(** * UDP-Web-Logger: the log intake and distribution engine

    A shallow embedding of [app/log_storage.py], [app/udp_listener.py],
    [app/telegram_notifier.py], [app/config.py] and the two HTTP handlers
    of [app/main.py] that touch the ring buffer, followed by the
    properties of the engine.

    Modelling conventions.
    - A Python [str] is a [string] holding the UTF-8 encoding of the text;
      a lone surrogate, which UTF-8 refuses, is held in the three-byte
      form [ED A0..BF xx] that [surrogatepass] gives it. [bytes] is
      [list byte].
    - Python [int] is [Z].
    - The clock is an input: every operation that reads
      [datetime.now(timezone.utc)] takes the reading as an argument.
    - asyncio objects shared between the storage and a viewer (the
      subscriber queues) live in a heap indexed by object identity.
    - The file system is a finite map from paths to file contents
      together with the multiset of open handles; system calls succeed.
      The one exception a call of the engine raises on its own account,
      the [UnicodeEncodeError] of a file write, is modelled by
      [add_entry_exc].
    - Tasks spawned with [asyncio.create_task] run in creation order, and
      [add_entry] never suspends, so a batch of spawned [add_entry] calls
      is their sequential composition. *)

From Stdlib Require Import ZArith.
From Stdlib.Strings Require Import Ascii String Byte.
From stdpp Require Import gmap strings list fin_maps.

Local Open Scope Z_scope.

(** ** Python built-ins *)

Module Py.

(** The line feed ["\n"], carriage return and the other ASCII characters
    that [str.splitlines] treats as line boundaries. *)
Definition LF : ascii := "010"%char.
Definition CR : ascii := "013"%char.

Definition nl : string := String LF "".

Definition is_empty (s : string) : bool :=
  match s with
  | EmptyString => true
  | String _ _ => false
  end.

(** [c in chars] for a character and a string. *)
Fixpoint mem_char (c : ascii) (chars : string) : bool :=
  match chars with
  | EmptyString => false
  | String d chars' => if Ascii.eqb c d then true else mem_char c chars'
  end.

(** [s.rstrip(chars)]: drops every trailing character that occurs in
    [chars]. *)
Fixpoint rstrip (chars : string) (s : string) : string :=
  match s with
  | EmptyString => EmptyString
  | String c s' =>
      match rstrip chars s' with
      | EmptyString => if mem_char c chars then EmptyString else String c EmptyString
      | r => String c r
      end
  end.

(** [s.startswith(p)], returning what follows the prefix. *)
Fixpoint strip_prefix (p s : string) : option string :=
  match p, s with
  | EmptyString, _ => Some s
  | String a p', String b s' => if Ascii.eqb a b then strip_prefix p' s' else None
  | String _ _, EmptyString => None
  end.

(** [s.replace(old, new)] for a non-empty [old]: leftmost non-overlapping
    occurrences, scanning left to right. The fuel is the length of the
    text still to scan. *)
Fixpoint replace_go (fuel : nat) (old new s : string) : string :=
  match fuel with
  | O => s
  | S fuel' =>
      match strip_prefix old s with
      | Some rest => new +:+ replace_go fuel' old new rest
      | None =>
          match s with
          | EmptyString => EmptyString
          | String c s' => String c (replace_go fuel' old new s')
          end
      end
  end.

Definition replace (old new s : string) : string :=
  replace_go (String.length s) old new s.

(** [l[start:]] for a list and a Python index (negative counts from the
    end, out-of-range indices are clamped). *)
Definition slice_from {A} (start : Z) (l : list A) : list A :=
  let n := Z.of_nat (length l) in
  let start := if start <? 0 then Z.max (start + n) 0 else Z.min start n in
  drop (Z.to_nat start) l.

(** *** [str.splitlines] *)

Definition is_ascii_linebreak (c : ascii) : bool :=
  match c with
  | "010" | "011" | "012" | "013" | "028" | "029" | "030" => true
  | _ => false
  end%char.

Definition snoc (s : string) (c : ascii) : string := s +:+ String c "".

(** U+0085 is [C2 85], U+2028 and U+2029 are [E2 80 A8] and [E2 80 A9]
    in UTF-8. [cur] is the line being collected. *)
Fixpoint splitlines_go (cur : string) (s : string) : list string :=
  match s with
  | EmptyString => if is_empty cur then [] else [cur]
  | String c s1 =>
      if Ascii.eqb c CR then
        match s1 with
        | String c2 s2 =>
            if Ascii.eqb c2 LF then cur :: splitlines_go "" s2
            else cur :: splitlines_go "" s1
        | EmptyString => cur :: splitlines_go "" s1
        end
      else if is_ascii_linebreak c then cur :: splitlines_go "" s1
      else if Ascii.eqb c "194"%char then
        match s1 with
        | String c2 s2 =>
            if Ascii.eqb c2 "133"%char then cur :: splitlines_go "" s2
            else splitlines_go (snoc cur c) s1
        | EmptyString => splitlines_go (snoc cur c) s1
        end
      else if Ascii.eqb c "226"%char then
        match s1 with
        | String c2 (String c3 s3) =>
            if Ascii.eqb c2 "128"%char
               && (Ascii.eqb c3 "168"%char || Ascii.eqb c3 "169"%char)
            then cur :: splitlines_go "" s3
            else splitlines_go (snoc cur c) s1
        | _ => splitlines_go (snoc cur c) s1
        end
      else splitlines_go (snoc cur c) s1
  end.

Definition splitlines (s : string) : list string := splitlines_go "" s.

(** *** [bytes.decode("utf-8", errors="replace")] *)

(** U+FFFD REPLACEMENT CHARACTER, UTF-8 encoded. *)
Definition replacement : string :=
  String "239"%char (String "191"%char (String "189"%char "")).

Definition is_cont (b : N) : bool := ((128 <=? b) && (b <=? 191))%N.

(** The second byte of a three- or four-byte sequence has a narrower
    range after the lead bytes [E0], [ED], [F0] and [F4]. *)
Definition second_ok (lead b : N) : bool :=
  (is_cont b &&
   if lead =? 224 then 160 <=? b
   else if lead =? 237 then b <? 160
   else if lead =? 240 then 144 <=? b
   else if lead =? 244 then b <? 144
   else true)%N.

Definition chars_of (bs : list N) : string :=
  string_of_list_ascii (map ascii_of_N bs).

(** One decoding step: the text produced and the input left. An
    ill-formed sequence yields one replacement character for its maximal
    well-formed prefix (or for the single offending byte); a sequence cut
    short by the end of the input yields one for all that is left. *)
Definition decode_step (b : N) (rest : list N) : string * list N :=
  (if b <? 128 then (chars_of [b], rest)
   else if (b <? 194) || (245 <=? b) then (replacement, rest)
   else if b <? 224 then
     match rest with
     | [] => (replacement, [])
     | b2 :: r2 =>
         if is_cont b2 then (chars_of [b; b2], r2) else (replacement, rest)
     end
   else if b <? 240 then
     match rest with
     | [] => (replacement, [])
     | b2 :: r2 =>
         if negb (second_ok b b2) then (replacement, rest)
         else match r2 with
              | [] => (replacement, [])
              | b3 :: r3 =>
                  if is_cont b3 then (chars_of [b; b2; b3], r3)
                  else (replacement, r2)
              end
     end
   else
     match rest with
     | [] => (replacement, [])
     | b2 :: r2 =>
         if negb (second_ok b b2) then (replacement, rest)
         else match r2 with
              | [] => (replacement, [])
              | b3 :: r3 =>
                  if negb (is_cont b3) then (replacement, r2)
                  else match r3 with
                       | [] => (replacement, [])
                       | b4 :: r4 =>
                           if is_cont b4 then (chars_of [b; b2; b3; b4], r4)
                           else (replacement, r3)
                       end
              end
     end)%N.

Fixpoint decode_go (fuel : nat) (bs : list N) : string :=
  match fuel, bs with
  | _, [] => ""
  | O, _ :: _ => ""
  | S fuel', b :: rest =>
      let '(out, rest') := decode_step b rest in
      out +:+ decode_go fuel' rest'
  end.

Definition decode_utf8_replace (data : list byte) : string :=
  decode_go (length data) (map Byte.to_N data).

(** *** [collections.deque] with a [maxlen] *)

Record deque (A : Type) := Deque { maxlen : Z; items : list A }.
Arguments Deque {A}.
Arguments maxlen {A}.
Arguments items {A}.

(** [deque(maxlen=n)] raises [ValueError] for a negative [n]. *)
Definition deque_new {A} (n : Z) : option (deque A) :=
  if n <? 0 then None else Some (Deque n []).

(** [d.append(x)]: append on the right, then discard from the left while
    the bound is exceeded. *)
Definition deque_append {A} (x : A) (d : deque A) : deque A :=
  let l := items d ++ [x] in
  Deque (maxlen d) (if maxlen d <? Z.of_nat (length l) then drop 1 l else l).

Definition deque_clear {A} (d : deque A) : deque A := Deque (maxlen d) [].

(** *** [asyncio.Queue] *)

Record Queue (A : Type) := MkQueue { maxsize : Z; queued : list A }.
Arguments MkQueue {A}.
Arguments maxsize {A}.
Arguments queued {A}.

Definition Queue_new {A} (n : Z) : Queue A := MkQueue n [].

(** [q.full()]: a queue with [maxsize <= 0] is never full. *)
Definition full {A} (q : Queue A) : bool :=
  if maxsize q <=? 0 then false
  else maxsize q <=? Z.of_nat (length (queued q)).

Inductive put_result (A : Type) :=
  | PutOk (q : Queue A)
  | QueueFull.
Arguments PutOk {A}.
Arguments QueueFull {A}.

Definition put_nowait {A} (x : A) (q : Queue A) : put_result A :=
  if full q then QueueFull else PutOk (MkQueue (maxsize q) (queued q ++ [x])).

(** [q.get_nowait()], the viewer's side of the queue. *)
Definition get_nowait {A} (q : Queue A) : option (A * Queue A) :=
  match queued q with
  | [] => None
  | x :: l => Some (x, MkQueue (maxsize q) l)
  end.

(** *** [len(s)] and [s[:n]] on [str]

    Python counts characters; in the UTF-8 text of a string these are the
    bytes that are not continuation bytes ([10xxxxxx]). *)
Definition is_continuation (c : ascii) : bool :=
  let n := N_of_ascii c in ((128 <=? n) && (n <=? 191))%N.

Fixpoint len (s : string) : nat :=
  match s with
  | EmptyString => O
  | String c s' => if is_continuation c then len s' else S (len s')
  end.

(** [s[:n]] for [n >= 0]: the first [n] characters, each with the
    continuation bytes that belong to it. *)
Fixpoint slice_to (n : nat) (s : string) : string :=
  match s with
  | EmptyString => EmptyString
  | String c s' =>
      if is_continuation c then String c (slice_to n s')
      else match n with
           | O => EmptyString
           | S n' => String c (slice_to n' s')
           end
  end.

(** *** [s.encode("utf-8")]

    The encoder refuses a text that holds a lone surrogate: in the text
    as it is held here, the lead byte [ED] followed by a byte of
    [A0..BF]. *)
Definition starts_surrogate (s : string) : bool :=
  match s with
  | String c (String d _) =>
      ((N_of_ascii c =? 237) && (160 <=? N_of_ascii d) && (N_of_ascii d <=? 191))%N
  | _ => false
  end.

Fixpoint encodable (s : string) : bool :=
  match s with
  | EmptyString => true
  | String _ s' => negb (starts_surrogate s) && encodable s'
  end.

(** Truth value of an [Optional[str]]: [None] and [""] are false. *)
Definition truthy (s : option string) : bool :=
  match s with
  | Some (String _ _) => true
  | _ => false
  end.

End Py.

(** ** [datetime]

    A [datetime] is an aware instant in UTC, as produced by
    [datetime.now(timezone.utc)]; on such a value
    [astimezone(timezone.utc)] is the identity. *)

Module Datetime.

Record date := Date { year : Z; month : Z; day : Z }.

Record datetime := Dt {
  dt_date : date;
  hour : Z;
  minute : Z;
  second : Z;
  microsecond : Z
}.

Global Instance date_eq_dec : EqDecision date.
Proof. solve_decision. Defined.

Global Instance datetime_eq_dec : EqDecision datetime.
Proof. solve_decision. Defined.

Definition is_leap (y : Z) : bool :=
  (y mod 4 =? 0) && (negb (y mod 100 =? 0) || (y mod 400 =? 0)).

(** [_days_in_month(year, month)] *)
Definition days_in_month (y m : Z) : Z :=
  if (m =? 2) && is_leap y then 29
  else nth (Z.to_nat m) [0; 31; 28; 31; 30; 31; 30; 31; 31; 30; 31; 30; 31] 0.

(** [_days_before_year(year)] *)
Definition days_before_year (y : Z) : Z :=
  let y := y - 1 in y * 365 + y / 4 - y / 100 + y / 400.

(** [_days_before_month(year, month)] *)
Definition days_before_month (y m : Z) : Z :=
  nth (Z.to_nat m) [0; 0; 31; 59; 90; 120; 151; 181; 212; 243; 273; 304; 334] 0
  + (if (2 <? m) && is_leap y then 1 else 0).

(** [date.toordinal()] *)
Definition toordinal (d : date) : Z :=
  days_before_year (year d) + days_before_month (year d) (month d) + day d.

(** The range checks of the [date] and [datetime] constructors. *)
Definition valid_date (d : date) : bool :=
  (1 <=? year d) && (year d <=? 9999)
  && (1 <=? month d) && (month d <=? 12)
  && (1 <=? day d) && (day d <=? days_in_month (year d) (month d)).

Definition valid_datetime (t : datetime) : bool :=
  valid_date (dt_date t)
  && (0 <=? hour t) && (hour t <? 24)
  && (0 <=? minute t) && (minute t <? 60)
  && (0 <=? second t) && (second t <? 60)
  && (0 <=? microsecond t) && (microsecond t <? 1000000).

(** *** Formatting *)

Definition digit (d : Z) : ascii := ascii_of_N (48 + Z.to_N d).

Definition digit_val (c : ascii) : option Z :=
  let n := Z.of_N (N_of_ascii c) in
  if (48 <=? n) && (n <=? 57) then Some (n - 48) else None.

(** ["%0wd" % n] for [0 <= n < 10^w], which is all a valid [datetime]
    asks for: the [w] decimal digits of [n], most significant first. *)
Fixpoint zfill (w : nat) (n : Z) : string :=
  match w with
  | O => ""
  | S w' => String (digit (n / 10 ^ Z.of_nat w' mod 10)) (zfill w' n)
  end.

(** ["%04d-%02d-%02d"], the body of [date.isoformat]. *)
Definition format_date (d : date) (rest : string) : string :=
  zfill 4 (year d) +:+ "-" +:+ zfill 2 (month d) +:+ "-" +:+ zfill 2 (day d) +:+ rest.

(** [_format_time(hh, mm, ss, us, "auto")]: the fraction is printed only
    when the microsecond field is not zero. *)
Definition format_time (t : datetime) (rest : string) : string :=
  zfill 2 (hour t) +:+ ":" +:+ zfill 2 (minute t) +:+ ":" +:+ zfill 2 (second t)
  +:+ (if microsecond t =? 0 then rest
       else "." +:+ zfill 6 (microsecond t) +:+ rest).

(** [datetime.isoformat()] of an aware UTC value. *)
Definition isoformat (t : datetime) : string :=
  format_date (dt_date t) ("T" +:+ format_time t "+00:00").

(** [%Y] of [strftime], which is the C library's: glibc does not pad
    the year, so a year below 1000 comes out with fewer than four
    digits ([999], [1]). *)
Definition strftime_year (y : Z) : string :=
  if y <? 10 then zfill 1 y
  else if y <? 100 then zfill 2 y
  else if y <? 1000 then zfill 3 y
  else zfill 4 y.

(** [t.strftime("%Y-%m-%d.log")] *)
Definition strftime_log (t : datetime) : string :=
  strftime_year (year (dt_date t)) +:+ "-" +:+ zfill 2 (month (dt_date t)) +:+ "-"
  +:+ zfill 2 (day (dt_date t)) +:+ ".log".

(** [t.strftime("%d/%m %H:%M:%S")] *)
Definition strftime_short (t : datetime) : string :=
  zfill 2 (day (dt_date t)) +:+ "/" +:+ zfill 2 (month (dt_date t)) +:+ " "
  +:+ zfill 2 (hour t) +:+ ":" +:+ zfill 2 (minute t) +:+ ":" +:+ zfill 2 (second t).

(** *** [datetime.strptime(s, "%Y-%m-%d").date()]

    [_strptime] matches the text against the regular expression
    [(\d\d\d\d)-(1[0-2]|0[1-9]|[1-9])-(3[01]|[12]\d|0[1-9]|[1-9]| [1-9])],
    rejects text left over after the match, and builds the date, which
    checks the ranges. [None] stands for [ValueError]. In a [str]
    pattern [\d] is any Unicode decimal digit, and [int] reads them all;
    the classes written out ([[0-2]], [[1-9]], ...) are ASCII. *)

(** The first code points of the runs of ten decimal digits (category
    [Nd]) of Unicode 14.0, the version of CPython 3.11: ASCII,
    Arabic-Indic, Devanagari, ..., fullwidth, mathematical. In each run
    the digit's value is its offset. *)
Definition nd_starts : list N :=
  [48; 1632; 1776; 1984; 2406; 2534; 2662; 2790; 2918; 3046; 3174; 3302;
   3430; 3558; 3664; 3792; 3872; 4160; 4240; 6112; 6160; 6470; 6608; 6784;
   6800; 6992; 7088; 7232; 7248; 42528; 43216; 43264; 43472; 43504; 43600;
   44016; 65296; 66720; 68912; 69734; 69872; 69942; 70096; 70384; 70736;
   70864; 71248; 71360; 71472; 71904; 72016; 72784; 73040; 73120; 92768;
   92864; 93008; 120782; 120792; 120802; 120812; 120822; 123200; 123632;
   125264; 130032]%N.

Fixpoint find_digit (starts : list N) (cp : N) : option N :=
  match starts with
  | [] => None
  | s :: rest =>
      if ((s <=? cp) && (cp <? s + 10))%N then Some (cp - s)%N
      else find_digit rest cp
  end.

(** The six payload bits of a continuation byte. *)
Definition payload (c : ascii) : option N :=
  let b := N_of_ascii c in
  if Py.is_cont b then Some (b - 128)%N else None.

(** The first character of a text, as a code point, and what follows
    it; [None] where the bytes are not the shortest encoding of a code
    point. *)
Definition read_char (s : string) : option (N * string) :=
  match s with
  | EmptyString => None
  | String c0 s1 =>
      let b0 := N_of_ascii c0 in
      (if b0 <? 128 then Some (b0, s1)
       else if b0 <? 192 then None
       else if b0 <? 224 then
         match s1 with
         | String c1 s2 =>
             x1 ← payload c1;
             let cp := (b0 - 192) * 64 + x1 in
             if cp <? 128 then None else Some (cp, s2)
         | _ => None
         end
       else if b0 <? 240 then
         match s1 with
         | String c1 (String c2 s3) =>
             x1 ← payload c1; x2 ← payload c2;
             let cp := (b0 - 224) * 4096 + x1 * 64 + x2 in
             if cp <? 2048 then None else Some (cp, s3)
         | _ => None
         end
       else
         match s1 with
         | String c1 (String c2 (String c3 s4)) =>
             x1 ← payload c1; x2 ← payload c2; x3 ← payload c3;
             let cp := (b0 - 240) * 262144 + x1 * 4096 + x2 * 64 + x3 in
             if (cp <? 65536) || (1114111 <? cp) then None else Some (cp, s4)
         | _ => None
         end)%N
  end.

(** [\d]: one decimal digit of any script, with its value. *)
Definition unicode_digit (s : string) : option (Z * string) :=
  '(cp, rest) ← read_char s;
  d ← find_digit nd_starts cp;
  Some (Z.of_N d, rest).

(** [\d] repeated [w] times, read as [int] does. *)
Fixpoint take_udigits_go (w : nat) (acc : Z) (s : string) : option (Z * string) :=
  match w with
  | O => Some (acc, s)
  | S w' =>
      match unicode_digit s with
      | Some (d, s') => take_udigits_go w' (10 * acc + d) s'
      | None => None
      end
  end.

Definition take_udigits (w : nat) (s : string) : option (Z * string) :=
  take_udigits_go w 0 s.

Definition expect (c : ascii) (s : string) : option string :=
  match s with
  | String d s' => if Ascii.eqb c d then Some s' else None
  | EmptyString => None
  end.

Fixpoint take_digits_go (w : nat) (acc : Z) (s : string) : option (Z * string) :=
  match w with
  | O => Some (acc, s)
  | S w' =>
      match s with
      | String c s' =>
          match digit_val c with
          | Some d => take_digits_go w' (10 * acc + d) s'
          | None => None
          end
      | EmptyString => None
      end
  end.

(** Exactly [w] decimal digits. *)
Definition take_digits (w : nat) (s : string) : option (Z * string) :=
  take_digits_go w 0 s.

(** The month alternatives, in the order the expression tries them; an
    alternative is kept only if the ["-"] that follows matches too. *)
Definition month_alternatives (s : string) : list (Z * string) :=
  match s with
  | String a s1 =>
      match digit_val a with
      | None => []
      | Some x =>
          let two :=
            match s1 with
            | String b s2 =>
                match digit_val b with
                | Some y =>
                    if ((x =? 1) && (y <=? 2)) || ((x =? 0) && (1 <=? y))
                    then [(10 * x + y, s2)] else []
                | None => []
                end
            | EmptyString => []
            end in
          two ++ (if 1 <=? x then [(x, s1)] else [])
      end
  | EmptyString => []
  end.

Fixpoint first_some {A B} (f : A → option B) (l : list A) : option B :=
  match l with
  | [] => None
  | x :: l' => match f x with Some y => Some y | None => first_some f l' end
  end.

(** The day alternatives; the first that matches is the match. The
    second digit of [[12]\d] may be of any script. *)
Definition match_day (s : string) : option (Z * string) :=
  match s with
  | String a s1 =>
      match digit_val a, s1 with
      | Some x, String b s2 =>
          match digit_val b with
          | Some y =>
              if ((x =? 3) && (y <=? 1)) || (x =? 1) || (x =? 2)
                 || ((x =? 0) && (1 <=? y))
              then Some (10 * x + y, s2)
              else if 1 <=? x then Some (x, s1) else None
          | None =>
              if (x =? 1) || (x =? 2) then
                match unicode_digit s1 with
                | Some (y, s3) => Some (10 * x + y, s3)
                | None => Some (x, s1)
                end
              else if 1 <=? x then Some (x, s1) else None
          end
      | Some x, EmptyString => if 1 <=? x then Some (x, s1) else None
      | None, String b s2 =>
          if Ascii.eqb a " "%char then
            match digit_val b with
            | Some y => if 1 <=? y then Some (y, s2) else None
            | None => None
            end
          else None
      | None, EmptyString => None
      end
  | EmptyString => None
  end.

Definition strptime_date (s : string) : option date :=
  '(y, s1) ← take_udigits 4 s;
  s2 ← expect "-"%char s1;
  '(m, s3) ← first_some (λ '(m, r), r' ← expect "-"%char r; Some (m, r'))
                        (month_alternatives s2);
  '(d, s4) ← match_day s3;
  if Py.is_empty s4 && valid_date (Date y m d) then Some (Date y m d) else None.

End Datetime.

(** ** The file system

    A path is a directory and a file name ([Path(dir) / name]). The
    state of the file system is the set of directories, the contents of
    the files, and the handles that are open (one list element per
    [open] not yet matched by a [close]). *)

Abbreviation Path := (string * string)%type.

Module FS.

Record FileSystem := {
  dirs : gset string;
  files : gmap Path string;
  handles : list Path
}.

Definition empty : FileSystem := {| dirs := ∅; files := ∅; handles := [] |}.

(** [dir.mkdir(parents=True, exist_ok=True)] *)
Definition mkdir (dir : string) (fs : FileSystem) : FileSystem :=
  {| dirs := {[dir]} ∪ dirs fs; files := files fs; handles := handles fs |}.

(** [path.open("a")]: creates the file when it does not exist, keeps its
    contents otherwise. *)
Definition open_append (p : Path) (fs : FileSystem) : FileSystem :=
  {| dirs := dirs fs;
     files := match files fs !! p with
              | Some _ => files fs
              | None => <[p := ""]> (files fs)
              end;
     handles := p :: handles fs |}.

(** [fh.write(text); fh.flush()] on a handle opened for appending. *)
Definition write (h : Path) (text : string) (fs : FileSystem) : FileSystem :=
  {| dirs := dirs fs;
     files := <[h := default "" (files fs !! h) +:+ text]> (files fs);
     handles := handles fs |}.

Fixpoint remove_first (h : Path) (l : list Path) : list Path :=
  match l with
  | [] => []
  | x :: l' => if decide (x = h) then l' else x :: remove_first h l'
  end.

(** [fh.close()] *)
Definition close (h : Path) (fs : FileSystem) : FileSystem :=
  {| dirs := dirs fs; files := files fs; handles := remove_first h (handles fs) |}.

(** [path.unlink(missing_ok=True)] *)
Definition unlink (p : Path) (fs : FileSystem) : FileSystem :=
  {| dirs := dirs fs; files := delete p (files fs); handles := handles fs |}.

Fixpoint ends_with (suffix s : string) : bool :=
  if bool_decide (s = suffix) then true
  else match s with
       | EmptyString => false
       | String _ s' => ends_with suffix s'
       end.

(** [dir.glob("*.log")]: the files of [dir] whose name ends in [.log],
    in the order the directory lists them. *)
Definition glob_log (dir : string) (fs : FileSystem) : list Path :=
  List.filter (λ p : Path, bool_decide (p.1 = dir) && ends_with ".log" p.2)
              (map_to_list (files fs)).*1.

(** Position of the last ["."] of a name. *)
Fixpoint last_dot (s : string) : option nat :=
  match s with
  | EmptyString => None
  | String c s' =>
      match last_dot s' with
      | Some i => Some (S i)
      | None => if Ascii.eqb c "."%char then Some O else None
      end
  end.

(** [path.stem]: the name without its last suffix; a leading or a
    trailing dot does not start a suffix. *)
Definition stem (p : Path) : string :=
  match last_dot p.2 with
  | Some i =>
      if (0 <? i)%nat && (i <? String.length p.2 - 1)%nat
      then String.substring 0 i p.2 else p.2
  | None => p.2
  end.

End FS.

(** ** [app/config.py] *)

Record AppConfig := {
  udp_port : Z;
  web_port : Z;
  max_memory_logs : Z;
  log_dir : string;
  keep_days : Z;
  allowed_origins : list string;
  write_to_file : bool;
  udp_whitelist : list string;
  websocket_token : option string
}.

(** [AppConfig()], the defaults of the dataclass. *)
Definition default_config : AppConfig := {|
  udp_port := 5140;
  web_port := 8080;
  max_memory_logs := 10000;
  log_dir := "./logs";
  keep_days := 3;
  allowed_origins := ["*"];
  write_to_file := true;
  udp_whitelist := [];
  websocket_token := None
|}.

(** ** [app/telegram_notifier.py]: the part [add_entry] calls *)

Record TelegramNotifier := {
  _enabled : bool;
  _queue : Py.Queue string
}.

(** [TelegramNotifier.send_message]: queue the text, drop it when the
    queue is full. *)
Definition send_message (text : string) (tg : TelegramNotifier) : TelegramNotifier :=
  if negb (_enabled tg) then tg
  else match Py.put_nowait text (_queue tg) with
       | Py.PutOk q => {| _enabled := _enabled tg; _queue := q |}
       | Py.QueueFull => tg
       end.

(** [TelegramNotifier.__init__]. The three settings it reads
    ([telegram_enabled], [telegram_bot_token], [telegram_chat_id]) are
    not fields of the [AppConfig] above, so they are arguments here. The
    forward queue holds at most 100 messages. *)
Definition TelegramNotifier_init (telegram_enabled : bool)
    (telegram_bot_token telegram_chat_id : option string) : TelegramNotifier :=
  let enabled := telegram_enabled in
  let enabled := if enabled && negb (Py.truthy telegram_bot_token) then false else enabled in
  let enabled := if enabled && negb (Py.truthy telegram_chat_id) then false else enabled in
  {| _enabled := enabled; _queue := Py.Queue_new 100 |}.

(** The body [_send_to_telegram] posts: the message, cut to 3997
    characters and ["..."] when it has more than 4000. *)
Definition _send_to_telegram_payload (chat_id : string) (message : string)
    : gmap string string :=
  let message :=
    if (4000 <? Py.len message)%nat then Py.slice_to 3997 message +:+ "..."
    else message in
  <["chat_id" := chat_id]> (<["text" := message]> (<["parse_mode" := "HTML"]> ∅)).

(** ** [app/log_storage.py] *)

Import Datetime.

Record LogEntry := { timestamp : datetime; message : string }.

Global Instance LogEntry_eq_dec : EqDecision LogEntry.
Proof. solve_decision. Defined.

(** The timestamp as [to_dict] and [_write_to_file] print it. *)
Definition utc_stamp (t : datetime) : string :=
  Py.replace "+00:00" "Z" (isoformat t).

(** [LogEntry.to_dict] *)
Definition to_dict (e : LogEntry) : gmap string string :=
  <["timestamp" := utc_stamp (timestamp e)]> (<["message" := message e]> ∅).

(** The fields of [LogStorage]. [_listeners] holds the identities of the
    subscriber queues, [_file_handle] the open [TextIO] (named by the
    path it was opened on). The lock is not a field of the model: every
    operation below is one critical section. *)
Record LogStorage := {
  _config : AppConfig;
  _buffer : Py.deque LogEntry;
  _listeners : list nat;
  _log_dir : string;
  _current_log_file : option Path;
  _file_handle : option Path;
  _telegram_notifier : option TelegramNotifier
}.

(** The storage together with the objects it shares with the rest of the
    process: the queues (also held by the viewers) and the file system. *)
Record World := {
  storage : LogStorage;
  queues : gmap nat (Py.Queue LogEntry);
  fs : FS.FileSystem
}.

Definition with_storage (f : LogStorage → LogStorage) (w : World) : World :=
  {| storage := f (storage w); queues := queues w; fs := fs w |}.

Definition with_queues
    (f : gmap nat (Py.Queue LogEntry) → gmap nat (Py.Queue LogEntry)) (w : World) : World :=
  {| storage := storage w; queues := f (queues w); fs := fs w |}.

Definition with_fs (f : FS.FileSystem → FS.FileSystem) (w : World) : World :=
  {| storage := storage w; queues := queues w; fs := f (fs w) |}.

Definition set_buffer (b : Py.deque LogEntry) (s : LogStorage) : LogStorage :=
  {| _config := _config s; _buffer := b; _listeners := _listeners s;
     _log_dir := _log_dir s; _current_log_file := _current_log_file s;
     _file_handle := _file_handle s; _telegram_notifier := _telegram_notifier s |}.

Definition set_listeners (l : list nat) (s : LogStorage) : LogStorage :=
  {| _config := _config s; _buffer := _buffer s; _listeners := l;
     _log_dir := _log_dir s; _current_log_file := _current_log_file s;
     _file_handle := _file_handle s; _telegram_notifier := _telegram_notifier s |}.

Definition set_current_log_file (p : option Path) (s : LogStorage) : LogStorage :=
  {| _config := _config s; _buffer := _buffer s; _listeners := _listeners s;
     _log_dir := _log_dir s; _current_log_file := p;
     _file_handle := _file_handle s; _telegram_notifier := _telegram_notifier s |}.

Definition set_file_handle (h : option Path) (s : LogStorage) : LogStorage :=
  {| _config := _config s; _buffer := _buffer s; _listeners := _listeners s;
     _log_dir := _log_dir s; _current_log_file := _current_log_file s;
     _file_handle := h; _telegram_notifier := _telegram_notifier s |}.

Definition set_telegram_notifier (t : option TelegramNotifier) (s : LogStorage) : LogStorage :=
  {| _config := _config s; _buffer := _buffer s; _listeners := _listeners s;
     _log_dir := _log_dir s; _current_log_file := _current_log_file s;
     _file_handle := _file_handle s; _telegram_notifier := t |}.

(** [LogStorage.__init__]: [None] is the [ValueError] of a negative
    [maxlen]. The queues that already exist in the process are kept. *)
Definition LogStorage_init (config : AppConfig) (tg : option TelegramNotifier)
    (qs : gmap nat (Py.Queue LogEntry)) (fs0 : FS.FileSystem) : option World :=
  buffer ← Py.deque_new (max_memory_logs config);
  Some {| storage := {| _config := config;
                        _buffer := buffer;
                        _listeners := [];
                        _log_dir := log_dir config;
                        _current_log_file := None;
                        _file_handle := None;
                        _telegram_notifier := tg |};
          queues := qs;
          fs := FS.mkdir (log_dir config) fs0 |}.

(** One iteration of the loop of [_notify]: a non-blocking put, whose
    [QueueFull] is caught and ignored. *)
Definition notify_one (entry : LogEntry)
    (qs : gmap nat (Py.Queue LogEntry)) (qid : nat) : gmap nat (Py.Queue LogEntry) :=
  match qs !! qid with
  | Some q =>
      match Py.put_nowait entry q with
      | Py.PutOk q' => <[qid := q']> qs
      | Py.QueueFull => qs
      end
  | None => qs
  end.

(** [LogStorage._notify] *)
Definition _notify (entry : LogEntry) (w : World) : World :=
  with_queues (λ qs, foldl (notify_one entry) qs (_listeners (storage w))) w.

(** [LogStorage._get_log_file_path] *)
Definition _get_log_file_path (s : LogStorage) (t : datetime) : Path :=
  (_log_dir s, strftime_log t).

(** [LogStorage._rotate_log_file] *)
Definition _rotate_log_file (new_path : Path) (w : World) : World :=
  let w1 :=
    match _file_handle (storage w) with
    | Some h => with_storage (set_file_handle None) (with_fs (FS.close h) w)
    | None => w
    end in
  let w2 := with_storage (set_current_log_file (Some new_path)) w1 in
  let w3 := with_fs (FS.mkdir new_path.1) w2 in
  with_storage (set_file_handle (Some new_path)) (with_fs (FS.open_append new_path) w3).

(** The line [_write_to_file] appends for an entry. *)
Definition file_line (entry : LogEntry) : string :=
  "[" +:+ utc_stamp (timestamp entry) +:+ "] " +:+ message entry +:+ Py.nl.

(** [LogStorage._write_to_file] *)
Definition _write_to_file (entry : LogEntry) (w : World) : World :=
  let log_path := _get_log_file_path (storage w) (timestamp entry) in
  let w1 :=
    if decide (_current_log_file (storage w) ≠ Some log_path)
    then _rotate_log_file log_path w else w in
  match _file_handle (storage w1) with
  | Some h => with_fs (FS.write h (file_line entry)) w1
  | None => w1
  end.

(** The text [add_entry] forwards to the notifier. *)
Definition telegram_text (entry : LogEntry) : string :=
  "<code>[" +:+ strftime_short (timestamp entry) +:+ "]</code> " +:+ message entry.

(** [LogStorage.add_entry], with the clock reading [now]. *)
Definition add_entry (now : datetime) (msg : string) (w : World) : LogEntry * World :=
  let entry := {| timestamp := now; message := Py.rstrip Py.nl msg |} in
  let w1 := with_storage (λ s, set_buffer (Py.deque_append entry (_buffer s)) s) w in
  let w2 := _notify entry w1 in
  let w3 := if write_to_file (_config (storage w2)) then _write_to_file entry w2 else w2 in
  let w4 :=
    match _telegram_notifier (storage w3) with
    | Some tg =>
        with_storage (set_telegram_notifier (Some (send_message (telegram_text entry) tg))) w3
    | None => w3
    end in
  (entry, w4).

(** *** The exception of the file write

    Above, [add_entry] is the method on the texts a [TextIO] opened with
    [encoding="utf-8"] can take. On another text (one that holds a lone
    surrogate) [write] raises [UnicodeEncodeError] before anything
    reaches the file, and the exception leaves [_write_to_file] and
    [add_entry]: the entry is in the buffer and in the queues by then,
    the notifier is not reached and nothing is returned. Below, the same
    two methods with that outcome. *)

Inductive exception := UnicodeEncodeError.

Inductive outcome (A : Type) :=
  | Returned (result : A) (w : World)
  | Raised (exc : exception) (w : World).
Arguments Returned {A}.
Arguments Raised {A}.

Definition world_of {A} (o : outcome A) : World :=
  match o with
  | Returned _ w => w
  | Raised _ w => w
  end.

(** [LogStorage._write_to_file], with the failure of [write]. *)
Definition _write_to_file_exc (entry : LogEntry) (w : World) : outcome unit :=
  let log_path := _get_log_file_path (storage w) (timestamp entry) in
  let w1 :=
    if decide (_current_log_file (storage w) ≠ Some log_path)
    then _rotate_log_file log_path w else w in
  match _file_handle (storage w1) with
  | Some h =>
      if Py.encodable (file_line entry)
      then Returned tt (with_fs (FS.write h (file_line entry)) w1)
      else Raised UnicodeEncodeError w1
  | None => Returned tt w1
  end.

(** [LogStorage.add_entry], with the failure of [write]. *)
Definition add_entry_exc (now : datetime) (msg : string) (w : World) : outcome LogEntry :=
  let entry := {| timestamp := now; message := Py.rstrip Py.nl msg |} in
  let w1 := with_storage (λ s, set_buffer (Py.deque_append entry (_buffer s)) s) w in
  let w2 := _notify entry w1 in
  match (if write_to_file (_config (storage w2))
         then _write_to_file_exc entry w2 else Returned tt w2) with
  | Raised exc w3 => Raised exc w3
  | Returned _ w3 =>
      let w4 :=
        match _telegram_notifier (storage w3) with
        | Some tg =>
            with_storage
              (set_telegram_notifier (Some (send_message (telegram_text entry) tg))) w3
        | None => w3
        end in
      Returned entry w4
  end.

(** [LogStorage.subscribe]: a new queue object, registered last. The
    argument defaults to 1000, which is what the WebSocket handler gets. *)
Definition subscribe (max_queue_size : Z) (w : World) : nat * World :=
  let qid := fresh (dom (queues w)) in
  (qid,
   with_storage (λ s, set_listeners (_listeners s ++ [qid]) s)
     (with_queues (insert qid (Py.Queue_new max_queue_size)) w)).

(** [list.remove(x)]: removes the first occurrence. *)
Fixpoint list_remove (x : nat) (l : list nat) : list nat :=
  match l with
  | [] => []
  | y :: l' => if decide (y = x) then l' else y :: list_remove x l'
  end.

(** [LogStorage.unsubscribe] *)
Definition unsubscribe (qid : nat) (w : World) : World :=
  if decide (qid ∈ _listeners (storage w))
  then with_storage (λ s, set_listeners (list_remove qid (_listeners s)) s) w
  else w.

(** [LogStorage.get_recent] *)
Definition get_recent (limit : Z) (w : World) : list (gmap string string) :=
  let items := Py.slice_from (- limit) (Py.items (_buffer (storage w))) in
  to_dict <$> items.

(** [LogStorage.clear_buffer] *)
Definition clear_buffer (w : World) : World :=
  with_storage (λ s, set_buffer (Py.deque_clear (_buffer s)) s) w.

(** [LogStorage.close] *)
Definition close (w : World) : World :=
  match _file_handle (storage w) with
  | Some h => with_storage (set_file_handle None) (with_fs (FS.close h) w)
  | None => w
  end.

(** The body of the loop of [cleanup_files]; a [ValueError] of
    [strptime] skips the file. *)
Definition cleanup_one (cutoff : Z) (w : World) (file : Path) : World :=
  match strptime_date (FS.stem file) with
  | None => w
  | Some file_date =>
      if toordinal file_date <? cutoff then with_fs (FS.unlink file) w else w
  end.

(** [LogStorage.cleanup_files], with the clock reading [now]. *)
Definition cleanup_files (now : datetime) (w : World) : World :=
  if negb (write_to_file (_config (storage w))) then w
  else if keep_days (_config (storage w)) <=? 0 then w
  else
    let cutoff := toordinal (dt_date now) - keep_days (_config (storage w)) in
    foldl (cleanup_one cutoff) w (FS.glob_log (_log_dir (storage w)) (fs w)).

(** ** [app/udp_listener.py] *)

(** [UDPServerProtocol.datagram_received]: the messages of the tasks it
    spawns, in spawning order. [addr] is the sender's host and port. *)
Definition datagram_received (config : AppConfig) (data : list byte) (addr : string * Z)
    : list string :=
  let host := addr.1 in
  if negb (bool_decide (udp_whitelist config = []))
     && negb (bool_decide (host ∈ udp_whitelist config))
  then []
  else
    let text := Py.decode_utf8_replace data in
    let lines := match Py.splitlines text with [] => [text] | l => l end in
    List.filter (λ line, negb (Py.is_empty line)) lines.

(** A sequence of [add_entry] calls, each with its clock reading; the
    entries they return are collected in call order. *)
Fixpoint add_entries (calls : list (datetime * string)) (w : World)
    : list LogEntry * World :=
  match calls with
  | [] => ([], w)
  | (now, msg) :: rest =>
      let '(e, w1) := add_entry now msg w in
      let '(es, w2) := add_entries rest w1 in
      (e :: es, w2)
  end.

(** The [add_entry] tasks spawned for [lines], run in spawning order;
    task [i] reads the clock as [clock i]. *)
Definition run_tasks (clock : nat → datetime) (lines : list string) (w : World)
    : list LogEntry * World :=
  add_entries (imap (λ i line, (clock i, line)) lines) w.

(** ** [app/main.py]: the handlers of [/logs] *)

(** [read_logs]: the query parameter defaults to 500 and is validated
    against [ge=1, le=5000]; [None] is the validation error response. *)
Definition read_logs (limit : option Z) (w : World) : option (list (gmap string string)) :=
  let limit := default 500 limit in
  if (1 <=? limit) && (limit <=? 5000) then Some (get_recent limit w) else None.

(** [clear_logs] *)
Definition clear_logs (w : World) : World := clear_buffer w.

(** [_cleanup_worker]: one sweep per wake-up, until the task is
    cancelled. [ticks] are the clock readings at the wake-ups. *)
Definition _cleanup_worker (keep_days : Z) (ticks : list datetime) (w : World) : World :=
  if keep_days <=? 0 then w
  else foldl (λ w now, cleanup_files now w) w ticks.

(** What happens while a WebSocket handler is connected: the process
    ingests a message, or the handler's loop gets to run. *)
Inductive ws_event :=
  | WsIngest (now : datetime) (msg : string)
  | WsDeliver.

(** The loop of [websocket_logs]: [queue.get()] then
    [send_json(entry.to_dict())]. On an empty queue the handler stays
    suspended. The loop ends when the peer disconnects, which is the end
    of [events]. The objects sent are collected in order. *)
Fixpoint ws_loop (qid : nat) (events : list ws_event) (w : World)
    : list (gmap string string) * World :=
  match events with
  | [] => ([], w)
  | WsIngest now msg :: rest => ws_loop qid rest (add_entry now msg w).2
  | WsDeliver :: rest =>
      match queues w !! qid with
      | Some q =>
          match Py.get_nowait q with
          | Some (entry, q') =>
              let '(sent, w') := ws_loop qid rest (with_queues (insert qid q') w) in
              (to_dict entry :: sent, w')
          | None => ws_loop qid rest w
          end
      | None => ws_loop qid rest w
      end
  end.

Inductive ws_outcome :=
  | WsRefused (code : Z)
  | WsServed (sent : list (gmap string string)).

(** [websocket_logs]: the token check, the subscription, the loop, and
    the [finally] that releases the subscription. *)
Definition websocket_logs (config : AppConfig) (token : option string)
    (events : list ws_event) (w : World) : ws_outcome * World :=
  if Py.truthy (websocket_token config)
     && negb (bool_decide (token = websocket_token config))
  then (WsRefused 4401, w)
  else
    let '(qid, w1) := subscribe 1000 w in
    let '(sent, w2) := ws_loop qid events w1 in
    (WsServed sent, unsubscribe qid w2).

(** * Properties *)

(** The entry [add_entry] builds from a clock reading and a message. *)
Definition entry_of (call : datetime * string) : LogEntry :=
  {| timestamp := call.1; message := Py.rstrip Py.nl call.2 |}.

(** The last [n] elements of a list. *)
Definition last_n {A} (n : nat) (l : list A) : list A :=
  drop (length l - n) l.

(** The contents of the ring buffer. *)
Definition buffered (w : World) : list LogEntry := Py.items (_buffer (storage w)).

(** The capacity fixed at construction. *)
Definition capacity (w : World) : Z := Py.maxlen (_buffer (storage w)).

(** The bound a [deque] keeps. *)
Definition bounded {A} (d : Py.deque A) : Prop :=
  0 ≤ Py.maxlen d ∧ Z.of_nat (length (Py.items d)) ≤ Py.maxlen d.

(** What a non-blocking put leaves in a queue, its [QueueFull] ignored. *)
Definition push_or_drop {A} (x : A) (q : Py.Queue A) : Py.Queue A :=
  match Py.put_nowait x q with
  | Py.PutOk q' => q'
  | Py.QueueFull => q
  end.

(** A viewer taking the next entry of its queue ([queue.get()] when one
    is there). *)
Definition viewer_get (qid : nat) (w : World) : World :=
  with_queues (λ qs,
    match qs !! qid with
    | Some q =>
        match Py.get_nowait q with
        | Some (_, q') => <[qid := q']> qs
        | None => qs
        end
    | None => qs
    end) w.

(** The operations of the process on the storage and its queues. *)
Inductive op :=
  | OpAddEntry (now : datetime) (msg : string)
  | OpSubscribe (max_queue_size : Z)
  | OpUnsubscribe (qid : nat)
  | OpGet (qid : nat)
  | OpClearBuffer
  | OpClose
  | OpCleanupFiles (now : datetime).

Definition run_op (o : op) (w : World) : World :=
  match o with
  | OpAddEntry now msg => (add_entry now msg w).2
  | OpSubscribe n => (subscribe n w).2
  | OpUnsubscribe qid => unsubscribe qid w
  | OpGet qid => viewer_get qid w
  | OpClearBuffer => clear_buffer w
  | OpClose => close w
  | OpCleanupFiles now => cleanup_files now w
  end.

Definition run_ops (ops : list op) (w : World) : World := foldl (flip run_op) w ops.

(** The invariant of the storage. [others] are the handles the rest of
    the process had open when the storage was built: the handles of the
    file system are those and the one of [_file_handle], if any. *)
Record wf (others : list Path) (w : World) : Prop := {
  wf_buffer : bounded (_buffer (storage w));
  wf_nodup : NoDup (_listeners (storage w));
  wf_queues : ∀ qid, qid ∈ _listeners (storage w) → is_Some (queues w !! qid);
  wf_handles : FS.handles (fs w) = option_list (_file_handle (storage w)) ++ others;
  wf_marker : ∀ p, _file_handle (storage w) = Some p → _current_log_file (storage w) = Some p
}.

(** The handles the writer holds: those of the file system that the
    rest of the process did not have. *)
Definition writer_handles (others : list Path) (w : World) : list Path :=
  take (length (FS.handles (fs w)) - length others) (FS.handles (fs w)).

(** Example values. *)
Definition t_9mar : datetime := Dt (Date 2024 3 9) 7 5 3 1234.
Definition t_9mar_later : datetime := Dt (Date 2024 3 9) 23 59 59 0.
Definition t_10mar : datetime := Dt (Date 2024 3 10) 0 0 0 17.

Definition config_cap (n : Z) : AppConfig := {|
  udp_port := 5140; web_port := 8080; max_memory_logs := n;
  log_dir := "./logs"; keep_days := 3; allowed_origins := ["*"];
  write_to_file := true; udp_whitelist := []; websocket_token := None
|}.

Definition config_no_files : AppConfig := {|
  udp_port := 5140; web_port := 8080; max_memory_logs := 10000;
  log_dir := "./logs"; keep_days := 3; allowed_origins := ["*"];
  write_to_file := false; udp_whitelist := []; websocket_token := None
|}.

(** The world [LogStorage(config)] builds in a fresh process. *)
Definition fresh_world (config : AppConfig) : World := {|
  storage := {| _config := config;
                _buffer := Py.Deque (max_memory_logs config) [];
                _listeners := [];
                _log_dir := log_dir config;
                _current_log_file := None;
                _file_handle := None;
                _telegram_notifier := None |};
  queues := ∅;
  fs := FS.mkdir (log_dir config) FS.empty
|}.

(** [k] line feeds. *)
Fixpoint newlines (k : nat) : string :=
  match k with
  | O => ""
  | S k' => String Py.LF (newlines k')
  end.

Fixpoint last_char (s : string) : option ascii :=
  match s with
  | EmptyString => None
  | String c EmptyString => Some c
  | String _ s' => last_char s'
  end.

(** A log directory holding the given files, as earlier runs of the
    writer left them, and the world of a storage built over it. *)
Definition dir_of (names : list string) : FS.FileSystem := {|
  FS.dirs := {["./logs"]};
  FS.files := list_to_map ((λ n, (("./logs", n), "[old] line" +:+ Py.nl)) <$> names);
  FS.handles := []
|}.

Definition world_over (config : AppConfig) (names : list string) : World := {|
  storage := storage (fresh_world config);
  queues := ∅;
  fs := dir_of names
|}.

(** The test of the loop of [cleanup_files]: the name parses as a date
    and the date is before the cutoff. *)
Definition expires (cutoff : Z) (p : Path) : bool :=
  match strptime_date (FS.stem p) with
  | Some file_date => toordinal file_date <? cutoff
  | None => false
  end.

(** The files a sweep of [dir] removes. *)
Definition swept (dir : string) (cutoff : Z) (p : Path) : bool :=
  bool_decide (p.1 = dir) && FS.ends_with ".log" p.2 && expires cutoff p.

(** *** Reading a serialized entry back

    The reader of the serialized form, written from the specification:
    an ISO-8601 instant in UTC, [YYYY-MM-DDTHH:MM:SS] with an optional
    fraction of six digits and the suffix [Z], and the message as it
    is. *)
Definition parse_utc_stamp (s : string) : option datetime :=
  '(y, s) ← take_digits 4 s;
  s ← expect "-"%char s;
  '(m, s) ← take_digits 2 s;
  s ← expect "-"%char s;
  '(d, s) ← take_digits 2 s;
  s ← expect "T"%char s;
  '(hh, s) ← take_digits 2 s;
  s ← expect ":"%char s;
  '(mm, s) ← take_digits 2 s;
  s ← expect ":"%char s;
  '(ss, s) ← take_digits 2 s;
  '(us, s) ← match expect "."%char s with
              | Some s' => take_digits 6 s'
              | None => Some (0, s)
              end;
  s ← expect "Z"%char s;
  let t := Dt (Date y m d) hh mm ss us in
  if Py.is_empty s && valid_datetime t then Some t else None.

Definition from_dict (d : gmap string string) : option LogEntry :=
  stamp ← d !! "timestamp";
  msg ← d !! "message";
  t ← parse_utc_stamp stamp;
  Some {| timestamp := t; message := msg |}.

(** The datagram of the scenario, ["a\nb\n\nc"]. *)
Definition payload_abc : list byte := [x61; x0a; x62; x0a; x0a; x63].

(** How many of [n] further entries a queue takes before it is full;
    a queue with [maxsize <= 0] takes them all. *)
Definition room {A} (q : Py.Queue A) (n : nat) : nat :=
  if Py.maxsize q <=? 0 then n
  else Z.to_nat (Py.maxsize q - Z.of_nat (length (Py.queued q))).

(** What the file writer reads and changes. *)
Definition writer_state (w : World) : string * option Path * option Path * FS.FileSystem :=
  (_log_dir (storage w), _current_log_file (storage w), _file_handle (storage w), fs w).

(** The files after [line] is appended to [target]. *)
Definition appended (target : Path) (line : string) (files : gmap Path string)
    : gmap Path string :=
  <[target := default "" (files !! target) +:+ line]> files.

(** The text the writer appends to the file [p] for the entries [es],
    in their order: the lines of the entries whose day is the file's. *)
Fixpoint written_to (dir : string) (p : Path) (es : list LogEntry) : string :=
  match es with
  | [] => ""
  | e :: es' =>
      (if decide ((dir, strftime_log (timestamp e)) = p) then file_line e else "")
      +:+ written_to dir p es'
  end.

(** Whether one of the entries goes to the file [p]. *)
Definition targeted (dir : string) (p : Path) (es : list LogEntry) : bool :=
  existsb (λ e, bool_decide ((dir, strftime_log (timestamp e)) = p)) es.

(** The writer between rotations: the open handle is the marked file's
    (or there is neither), and it is the only handle the writer has. *)
Definition writer_in_step (others : list Path) (w : World) : Prop :=
  FS.handles (fs w) = option_list (_file_handle (storage w)) ++ others
  ∧ _current_log_file (storage w) = _file_handle (storage w).

(** Every bounded queue of the heap is within its bound. *)
Definition queues_bounded (qs : gmap nat (Py.Queue LogEntry)) : Prop :=
  ∀ qid q, qs !! qid = Some q →
    0 < Py.maxsize q → Z.of_nat (length (Py.queued q)) ≤ Py.maxsize q.

(** The entries ingested during a WebSocket session. *)
Fixpoint ws_ingested (events : list ws_event) : list LogEntry :=
  match events with
  | [] => []
  | WsIngest now msg :: rest => entry_of (now, msg) :: ws_ingested rest
  | WsDeliver :: rest => ws_ingested rest
  end.

(** Lines joined by line feeds, as a sender packs them in a datagram. *)
Fixpoint join_lf (lines : list string) : string :=
  match lines with
  | [] => ""
  | [l] => l
  | l :: rest => l +:+ String Py.LF (join_lf rest)
  end.

(** An ASCII character that is not a line boundary. *)
Definition plain_char (c : ascii) : bool :=
  (N_of_ascii c <? 128)%N && negb (Py.is_ascii_linebreak c).

Fixpoint plain (s : string) : bool :=
  match s with
  | EmptyString => true
  | String c s' => plain_char c && plain s'
  end.

(** A text without any of the ASCII line boundaries. *)
Fixpoint breakless (s : string) : bool :=
  match s with
  | EmptyString => true
  | String c s' => negb (Py.is_ascii_linebreak c) && breakless s'
  end.

(** A text that starts with one of the line boundaries of
    [str.splitlines]: the seven ASCII ones, U+0085 ([C2 85]), U+2028 and
    U+2029 ([E2 80 A8], [E2 80 A9]). *)
Definition break_at (s : string) : bool :=
  match s with
  | String c s1 =>
      Py.is_ascii_linebreak c
      || match s1 with
         | String c2 s2 =>
             (Ascii.eqb c "194"%char && Ascii.eqb c2 "133"%char)
             || match s2 with
                | String c3 _ =>
                    Ascii.eqb c "226"%char && Ascii.eqb c2 "128"%char
                    && (Ascii.eqb c3 "168"%char || Ascii.eqb c3 "169"%char)
                | EmptyString => false
                end
         | EmptyString => false
         end
  | EmptyString => false
  end.

(** A text without any line boundary. *)
Fixpoint no_boundary (s : string) : bool :=
  match s with
  | EmptyString => true
  | String _ s' => negb (break_at s) && no_boundary s'
  end.

(** No line boundary starts in [cur] when [s] follows it. *)
Fixpoint clean (cur s : string) : bool :=
  match cur with
  | EmptyString => true
  | String _ cur' => negb (break_at (cur +:+ s)) && clean cur' s
  end.

(** A text of ASCII characters only. *)
Fixpoint ascii_only (s : string) : bool :=
  match s with
  | EmptyString => true
  | String c s' => (N_of_ascii c <? 128)%N && ascii_only s'
  end.

(** The lines that are not empty, which is what the listener keeps. *)
Definition nonempty_lines (lines : list string) : list string :=
  List.filter (λ line, negb (Py.is_empty line)) lines.

(** U+DC80, a lone surrogate, as a text. *)
Definition lone_surrogate : string :=
  String "237"%char (String "178"%char (String "128"%char "")).

(** The writer was closed with the file of the day of [now] as its
    current file: the one state in which [_write_to_file] writes
    nothing. *)
Definition closed_on (now : datetime) (w : World) : bool :=
  bool_decide (_current_log_file (storage w) = Some (_get_log_file_path (storage w) now))
  && bool_decide (_file_handle (storage w) = None).

(** The calls of [add_entry] in which the file write is refused:
    persistence on, a handle to write through, and a lone surrogate in
    the message. *)
Definition write_refused (now : datetime) (msg : string) (w : World) : bool :=
  write_to_file (_config (storage w)) && negb (closed_on now w) && negb (Py.encodable msg).

(** A file of the log directory named [YYYY-MM-DD.log] for a day, the
    year on four digits. *)
Definition day_file (s : LogStorage) (d : date) : Path :=
  (_log_dir s, format_date d ".log").

(** Reading the writer's file names back, whatever the width of the
    year: a run of ASCII digits, then [-MM-DD]. *)
Fixpoint read_number_go (acc : Z) (s : string) : Z * string :=
  match s with
  | EmptyString => (acc, EmptyString)
  | String c s' =>
      match digit_val c with
      | Some d => read_number_go (10 * acc + d) s'
      | None => (acc, s)
      end
  end.

Definition parse_log_name (s : string) : option date :=
  let '(y, s1) := read_number_go 0 s in
  s2 ← expect "-"%char s1;
  '(m, s3) ← take_digits 2 s2;
  s4 ← expect "-"%char s3;
  '(d, _) ← take_digits 2 s4;
  Some (Date y m d).

(** ** Frame lemmas: what each step of [add_entry] leaves alone *)

Section Frames.

Lemma _notify_storage e w : storage (_notify e w) = storage w.
Proof. reflexivity. Qed.

Lemma _notify_fs e w : fs (_notify e w) = fs w.
Proof. reflexivity. Qed.

Lemma _rotate_log_file_buffer p w :
  _buffer (storage (_rotate_log_file p w)) = _buffer (storage w).
Proof. unfold _rotate_log_file. by destruct (_file_handle (storage w)). Qed.

Lemma _rotate_log_file_listeners p w :
  _listeners (storage (_rotate_log_file p w)) = _listeners (storage w).
Proof. unfold _rotate_log_file. by destruct (_file_handle (storage w)). Qed.

Lemma _rotate_log_file_queues p w : queues (_rotate_log_file p w) = queues w.
Proof. unfold _rotate_log_file. by destruct (_file_handle (storage w)). Qed.

Lemma _rotate_log_file_config p w :
  _config (storage (_rotate_log_file p w)) = _config (storage w).
Proof. unfold _rotate_log_file. by destruct (_file_handle (storage w)). Qed.

(** [_write_to_file] is an optional rotation followed by an optional
    write; [tac] settles the rotation. *)
Ltac write_frame tac :=
  unfold _write_to_file;
  match goal with
  | |- context [if ?c then _rotate_log_file ?p ?w else ?w] =>
      let w1 := fresh "w1" in
      let H := fresh "H" in
      set (w1 := if c then _rotate_log_file p w else w);
      assert (H : w1 = _rotate_log_file p w ∨ w1 = w)
        by (subst w1; destruct c; auto);
      clearbody w1;
      destruct (_file_handle (storage w1)); simpl;
      destruct H as [-> | ->]; solve [tac | reflexivity]
  end.

Lemma _write_to_file_buffer e w :
  _buffer (storage (_write_to_file e w)) = _buffer (storage w).
Proof.
  write_frame ltac:(apply _rotate_log_file_buffer).
Qed.

Lemma _write_to_file_listeners e w :
  _listeners (storage (_write_to_file e w)) = _listeners (storage w).
Proof.
  write_frame ltac:(apply _rotate_log_file_listeners).
Qed.

Lemma _write_to_file_queues e w : queues (_write_to_file e w) = queues w.
Proof.
  write_frame ltac:(apply _rotate_log_file_queues).
Qed.

Lemma _write_to_file_config e w :
  _config (storage (_write_to_file e w)) = _config (storage w).
Proof.
  write_frame ltac:(apply _rotate_log_file_config).
Qed.

Lemma add_entry_entry now msg w : (add_entry now msg w).1 = entry_of (now, msg).
Proof. reflexivity. Qed.

Lemma add_entry_buffer now msg w :
  _buffer (storage (add_entry now msg w).2)
  = Py.deque_append (entry_of (now, msg)) (_buffer (storage w)).
Proof.
  unfold add_entry; simpl.
  destruct (_telegram_notifier _); simpl;
    destruct (write_to_file _); simpl; by rewrite ?_write_to_file_buffer.
Qed.

Lemma add_entry_listeners now msg w :
  _listeners (storage (add_entry now msg w).2) = _listeners (storage w).
Proof.
  unfold add_entry; simpl.
  destruct (_telegram_notifier _); simpl;
    destruct (write_to_file _); simpl; by rewrite ?_write_to_file_listeners.
Qed.

Lemma add_entry_config now msg w :
  _config (storage (add_entry now msg w).2) = _config (storage w).
Proof.
  unfold add_entry; simpl.
  destruct (_telegram_notifier _); simpl;
    destruct (write_to_file _); simpl; by rewrite ?_write_to_file_config.
Qed.

Lemma add_entry_queues now msg w :
  queues (add_entry now msg w).2
  = foldl (notify_one (entry_of (now, msg))) (queues w) (_listeners (storage w)).
Proof.
  unfold add_entry; simpl.
  destruct (_telegram_notifier _); simpl;
    destruct (write_to_file _); simpl; by rewrite ?_write_to_file_queues.
Qed.

End Frames.

(** ** The ring buffer *)

Section RingBuffer.

Lemma deque_new_bounded {A} n (d : Py.deque A) :
  Py.deque_new n = Some d → bounded d ∧ Py.maxlen d = n ∧ Py.items d = [].
Proof.
  unfold Py.deque_new. destruct (Z.ltb_spec n 0); [done|].
  intros [= <-]. unfold bounded; simpl. repeat split; lia.
Qed.

Lemma deque_append_maxlen {A} (x : A) d :
  Py.maxlen (Py.deque_append x d) = Py.maxlen d.
Proof. reflexivity. Qed.

Lemma deque_append_items {A} (x : A) d :
  bounded d →
  Py.items (Py.deque_append x d)
  = last_n (Z.to_nat (Py.maxlen d)) (Py.items d ++ [x]).
Proof.
  intros [Hc Hl]. unfold Py.deque_append, last_n; simpl.
  rewrite length_app; simpl.
  destruct (Z.ltb_spec (Py.maxlen d) (Z.of_nat (length (Py.items d) + 1))).
  - f_equal. lia.
  - replace (length (Py.items d) + 1 - Z.to_nat (Py.maxlen d))%nat with 0%nat by lia.
    done.
Qed.

Lemma last_n_length {A} n (l : list A) : length (last_n n l) = (length l `min` n)%nat.
Proof. unfold last_n. rewrite length_drop. lia. Qed.

Lemma last_n_all {A} n (l : list A) : (length l ≤ n)%nat → last_n n l = l.
Proof.
  intros H. unfold last_n. by replace (length l - n)%nat with 0%nat by lia.
Qed.

Lemma last_n_snoc {A} n (l : list A) x :
  last_n n (last_n n l ++ [x]) = last_n n (l ++ [x]).
Proof.
  unfold last_n. rewrite !length_app, length_drop; simpl.
  destruct (decide (length l ≤ n)%nat) as [Hle|Hgt].
  - replace (length l - n)%nat with 0%nat by lia. rewrite drop_0.
    f_equal. lia.
  - rewrite !skipn_app, drop_drop, length_drop.
    f_equal; f_equal; lia.
Qed.

Lemma deque_append_bounded {A} (x : A) d : bounded d → bounded (Py.deque_append x d).
Proof.
  intros Hb. pose proof (deque_append_items x d Hb) as Hi.
  destruct Hb as [Hc Hl]. split; [done|].
  rewrite Hi, last_n_length, deque_append_maxlen. lia.
Qed.

Lemma add_entries_unfold now msg calls w :
  add_entries ((now, msg) :: calls) w
  = ((add_entry now msg w).1 :: (add_entries calls (add_entry now msg w).2).1,
     (add_entries calls (add_entry now msg w).2).2).
Proof.
  cbn [add_entries]. destruct (add_entry now msg w) as [e w1].
  cbn [fst snd]. by destruct (add_entries calls w1).
Qed.

Lemma add_entries_entries calls w : (add_entries calls w).1 = entry_of <$> calls.
Proof.
  revert w. induction calls as [|[now msg] calls IH]; intros w; [done|].
  rewrite add_entries_unfold. cbn [fst fmap list_fmap]. by rewrite IH.
Qed.

Lemma add_entries_cons now msg calls w :
  (add_entries ((now, msg) :: calls) w).2
  = (add_entries calls (add_entry now msg w).2).2.
Proof. by rewrite add_entries_unfold. Qed.

Lemma add_entries_buffer calls w :
  bounded (_buffer (storage w)) →
  let w' := (add_entries calls w).2 in
  bounded (_buffer (storage w'))
  ∧ capacity w' = capacity w
  ∧ buffered w' = last_n (Z.to_nat (capacity w)) (buffered w ++ (entry_of <$> calls)).
Proof.
  revert w. induction calls as [|[now msg] calls IH]; intros w Hb;
    cbn [fmap list_fmap].
  - cbn [add_entries snd]. split; [done|]. split; [done|]. rewrite app_nil_r.
    symmetry. apply last_n_all. destruct Hb. unfold buffered, capacity. lia.
  - rewrite add_entries_cons.
    assert (Hb1 : bounded (_buffer (storage (add_entry now msg w).2))).
    { rewrite add_entry_buffer. by apply deque_append_bounded. }
    destruct (IH _ Hb1) as (IH1 & IH2 & IH3).
    split; [done|].
    assert (Hc : capacity (add_entry now msg w).2 = capacity w).
    { unfold capacity. by rewrite add_entry_buffer. }
    split; [congruence|].
    rewrite IH3, Hc. unfold buffered at 1.
    rewrite add_entry_buffer, deque_append_items by done.
    fold (buffered w) (capacity w).
    generalize (entry_of <$> calls) as es. intros es.
    revert w Hb Hb1 IH1 IH2 IH3 Hc.
    generalize (entry_of (now, msg)) as e.
    intros e w _ _ _ _ _ _.
    generalize (buffered w) as b. generalize (Z.to_nat (capacity w)) as n.
    clear. intros n b. revert b e.
    induction es as [|e' es IHes] using rev_ind; intros b e.
    + rewrite !app_nil_r. apply last_n_all. rewrite last_n_length. lia.
    + rewrite !app_assoc, <- last_n_snoc, IHes, last_n_snoc.
      by rewrite <- !app_assoc.
Qed.

End RingBuffer.

Section RingBufferClaims.

Lemma slice_from_neg {A} (limit : Z) (l : list A) :
  1 ≤ limit → Py.slice_from (- limit) l = last_n (Z.to_nat limit) l.
Proof.
  intros H. unfold Py.slice_from, last_n.
  destruct (Z.ltb_spec (- limit) 0); [|lia]. f_equal. lia.
Qed.

Lemma slice_from_0 {A} (l : list A) : Py.slice_from (- 0) l = l.
Proof.
  unfold Py.slice_from. change (- 0) with 0. simpl.
  by rewrite Z.min_l, drop_0 by lia.
Qed.

Lemma get_recent_capacity w :
  bounded (_buffer (storage w)) → get_recent (capacity w) w = to_dict <$> buffered w.
Proof.
  intros [Hc Hl]. unfold get_recent. fold (buffered w). f_equal.
  destruct (decide (capacity w = 0)) as [->|Hne].
  - apply slice_from_0.
  - rewrite slice_from_neg by (unfold capacity in *; lia).
    apply last_n_all. unfold buffered, capacity. lia.
Qed.

Lemma LogStorage_init_buffer config tg qs fs0 w0 :
  LogStorage_init config tg qs fs0 = Some w0 →
  bounded (_buffer (storage w0)) ∧ capacity w0 = max_memory_logs config ∧ buffered w0 = [].
Proof.
  unfold LogStorage_init. destruct (Py.deque_new _) as [b|] eqn:Hb; [|done].
  intros [= <-]. by apply deque_new_bounded.
Qed.

(** C1. With the capacity [C] fixed at construction, after any sequence
    of [N] calls of [add_entry] the ring buffer holds at most [C]
    entries, one more insertion into a buffer at capacity drops the
    oldest entry, and [get_recent(C)] returns exactly the last
    [min N C] entries, oldest first and most recent last. *)
Theorem ring_buffer_keeps_last_entries config tg qs fs0 w0 calls :
  LogStorage_init config tg qs fs0 = Some w0 →
  let C := max_memory_logs config in
  let N := length calls in
  let es := (add_entries calls w0).1 in
  let w := (add_entries calls w0).2 in
  es = entry_of <$> calls
  ∧ Z.of_nat (length (buffered w)) ≤ C
  ∧ (∀ now msg,
       Z.of_nat (length (buffered w)) = C →
       buffered (add_entry now msg w).2 = drop 1 (buffered w ++ [entry_of (now, msg)]))
  ∧ get_recent C w = to_dict <$> last_n (N `min` Z.to_nat C) es
  ∧ Z.of_nat (length (get_recent C w)) = Z.of_nat N `min` C.
Proof.
  intros Hinit C N es w.
  destruct (LogStorage_init_buffer _ _ _ _ _ Hinit) as (Hb0 & Hc0 & Hi0).
  destruct (add_entries_buffer calls w0 Hb0) as (Hb & Hc & Hi).
  fold w in Hb, Hc, Hi. rewrite Hi0, Hc0 in Hi. simpl in Hi. fold C in Hi.
  assert (Hes : es = entry_of <$> calls) by apply add_entries_entries.
  assert (HC : capacity w = C) by (unfold C; congruence).
  assert (Hrecent : get_recent C w = to_dict <$> last_n (N `min` Z.to_nat C) es).
  { rewrite <- HC at 1. rewrite get_recent_capacity by done.
    rewrite Hi, Hes. f_equal. unfold last_n, N.
    rewrite length_fmap. f_equal. lia. }
  split; [done|]. split; [destruct Hb; unfold buffered; fold (capacity w) in *; lia|].
  split; [|split; [done|]].
  - intros now msg Hfull. unfold buffered at 1.
    rewrite add_entry_buffer, deque_append_items by done.
    fold (buffered w) (capacity w). rewrite HC.
    unfold last_n. rewrite length_app. simpl. f_equal. lia.
  - rewrite Hrecent, length_fmap, last_n_length, Hes, length_fmap.
    fold N. destruct Hb. unfold capacity in HC. lia.
Qed.

Lemma ring_buffer_keeps_last_entries_witness :
  ∃ w0, LogStorage_init (config_cap 2) None ∅ FS.empty = Some w0
  ∧ get_recent 2 (add_entries [(t_9mar, "a"); (t_9mar, "b"); (t_10mar, "c")] w0).2
    = to_dict <$> last_n (3 `min` Z.to_nat 2)
                    (add_entries [(t_9mar, "a"); (t_9mar, "b"); (t_10mar, "c")] w0).1.
Proof.
  eexists. split; [reflexivity|].
  refine (proj1 (proj2 (proj2 (proj2
    (ring_buffer_keeps_last_entries (config_cap 2) None ∅ FS.empty _
       [(t_9mar, "a"); (t_9mar, "b"); (t_10mar, "c")] _))))).
  reflexivity.
Defined.

(** C9. [get_recent(limit)] with [limit >= 1] returns the last
    [min limit length] entries of the buffer; with [limit = 0] it
    returns the whole buffer, because the slice [[-0:]] selects
    everything. The HTTP handler never passes 0: it rejects a limit
    below 1 (or above 5000). *)
Theorem get_recent_zero_returns_everything w limit :
  1 ≤ limit →
  get_recent limit w
    = to_dict <$> last_n (Z.to_nat limit `min` length (buffered w)) (buffered w)
  ∧ get_recent 0 w = to_dict <$> buffered w
  ∧ read_logs (Some 0) w = None
  ∧ read_logs (Some limit) w
    = if limit <=? 5000 then Some (get_recent limit w) else None.
Proof.
  intros Hl. split; [|split; [|split]].
  - unfold get_recent. fold (buffered w). rewrite slice_from_neg by done.
    f_equal. unfold last_n. f_equal. lia.
  - unfold get_recent. fold (buffered w). f_equal. apply slice_from_0.
  - reflexivity.
  - unfold read_logs; simpl. by destruct (Z.leb_spec 1 limit); [|lia].
Qed.

Lemma get_recent_zero_returns_everything_witness :
  get_recent 0 (add_entries [(t_9mar, "a"); (t_9mar, "b")] (fresh_world (config_cap 5))).2
  = to_dict <$> [entry_of (t_9mar, "a"); entry_of (t_9mar, "b")].
Proof.
  exact (proj1 (proj2 (get_recent_zero_returns_everything
    (add_entries [(t_9mar, "a"); (t_9mar, "b")] (fresh_world (config_cap 5))).2 1
    ltac:(lia)))).
Defined.

End RingBufferClaims.

(** ** [add_entry] and the message *)

Section Messages.

Lemma append_cons c s r : String c s +:+ r = String c (s +:+ r).
Proof. reflexivity. Qed.

Lemma append_nil_l r : "" +:+ r = r.
Proof. reflexivity. Qed.

Lemma append_nil_r s : s +:+ "" = s.
Proof. induction s as [|c s IH]; [done|]. by rewrite append_cons, IH. Qed.

Lemma append_assoc (a b c : string) : (a +:+ b) +:+ c = a +:+ (b +:+ c).
Proof. induction a as [|x a IH]; [done|]. by rewrite !append_cons, IH. Qed.

Lemma mem_char_nl c : Py.mem_char c Py.nl = Ascii.eqb c Py.LF.
Proof. unfold Py.nl; simpl. by destruct (Ascii.eqb c Py.LF). Qed.

(** [rstrip("\n")] removes a run of line feeds at the end, all of it,
    and nothing else. *)
Lemma rstrip_nl_spec s :
  ∃ k, s = Py.rstrip Py.nl s +:+ newlines k
       ∧ last_char (Py.rstrip Py.nl s) ≠ Some Py.LF.
Proof.
  induction s as [|c s (k & Hs & Hlast)].
  - by exists 0%nat.
  - cbn [Py.rstrip]. destruct (Py.rstrip Py.nl s) as [|d r] eqn:Hr.
    + rewrite mem_char_nl. destruct (Ascii.eqb_spec c Py.LF) as [->|Hc].
      * exists (S k). split; [|done]. rewrite append_nil_l in *. simpl. by f_equal.
      * exists k. split; [by rewrite append_cons, <- Hs|].
        simpl. congruence.
    + exists k. split; [by rewrite append_cons, <- Hs|]. done.
Qed.


End Messages.

(** ** Clearing the buffer *)

(** C8. [clear_buffer] empties the ring buffer and changes nothing else:
    the file system (contents of the files, open handles), the queues
    with the entries waiting in them, the registry of subscribers, the
    open handle and the current-file marker are what they were. *)
Theorem clear_buffer_only_empties_buffer w :
  buffered (clear_buffer w) = []
  ∧ capacity (clear_buffer w) = capacity w
  ∧ fs (clear_buffer w) = fs w
  ∧ queues (clear_buffer w) = queues w
  ∧ _listeners (storage (clear_buffer w)) = _listeners (storage w)
  ∧ _file_handle (storage (clear_buffer w)) = _file_handle (storage w)
  ∧ _current_log_file (storage (clear_buffer w)) = _current_log_file (storage w)
  ∧ _telegram_notifier (storage (clear_buffer w)) = _telegram_notifier (storage w)
  ∧ _config (storage (clear_buffer w)) = _config (storage w)
  ∧ clear_logs w = clear_buffer w.
Proof. repeat split. Qed.

(** ** Dates in file names *)

Section DateNames.

Lemma digit_range q : 0 ≤ q < 10 →
  q = 0 ∨ q = 1 ∨ q = 2 ∨ q = 3 ∨ q = 4 ∨ q = 5 ∨ q = 6 ∨ q = 7 ∨ q = 8 ∨ q = 9.
Proof. lia. Qed.

Lemma digit_val_digit q : 0 ≤ q < 10 → digit_val (digit q) = Some q.
Proof.
  intros H. destruct (digit_range q H) as [->|[->|[->|[->|[->|[->|[->|[->|[->| ->]]]]]]]]];
    reflexivity.
Qed.

Lemma zfill_S w n :
  zfill (S w) n = String (digit (n / 10 ^ Z.of_nat w mod 10)) (zfill w n).
Proof. reflexivity. Qed.

Lemma take_digits_go_zfill w acc n rest :
  take_digits_go w acc (zfill w n +:+ rest)
  = Some (acc * 10 ^ Z.of_nat w + n mod 10 ^ Z.of_nat w, rest).
Proof.
  revert acc. induction w as [|w IH]; intros acc.
  - cbn [zfill take_digits_go]. rewrite append_nil_l.
    change (10 ^ Z.of_nat 0) with 1. rewrite Z.mod_1_r. do 2 f_equal. lia.
  - rewrite zfill_S, append_cons. cbn [take_digits_go].
    rewrite digit_val_digit by (apply Z.mod_pos_bound; lia).
    rewrite IH. do 2 f_equal.
    rewrite Nat2Z.inj_succ, Z.pow_succ_r by lia.
    rewrite (Z.mul_comm 10 (10 ^ Z.of_nat w)).
    rewrite (Z.rem_mul_r n (10 ^ Z.of_nat w) 10) by lia.
    lia.
Qed.

Lemma take_digits_zfill w n rest :
  0 ≤ n < 10 ^ Z.of_nat w → take_digits w (zfill w n +:+ rest) = Some (n, rest).
Proof.
  intros H. unfold take_digits. rewrite take_digits_go_zfill.
  by rewrite Z.mod_small.
Qed.

Lemma unicode_digit_digit q rest :
  0 ≤ q < 10 → unicode_digit (String (digit q) rest) = Some (q, rest).
Proof.
  intros H. destruct (digit_range q H) as [->|[->|[->|[->|[->|[->|[->|[->|[->| ->]]]]]]]]];
    reflexivity.
Qed.

Lemma take_udigits_go_zfill w acc n rest :
  take_udigits_go w acc (zfill w n +:+ rest)
  = Some (acc * 10 ^ Z.of_nat w + n mod 10 ^ Z.of_nat w, rest).
Proof.
  revert acc. induction w as [|w IH]; intros acc.
  - cbn [zfill take_udigits_go]. rewrite append_nil_l.
    change (10 ^ Z.of_nat 0) with 1. rewrite Z.mod_1_r. do 2 f_equal. lia.
  - rewrite zfill_S, append_cons. cbn [take_udigits_go].
    rewrite unicode_digit_digit by (apply Z.mod_pos_bound; lia).
    rewrite IH. do 2 f_equal.
    rewrite Nat2Z.inj_succ, Z.pow_succ_r by lia.
    rewrite (Z.mul_comm 10 (10 ^ Z.of_nat w)).
    rewrite (Z.rem_mul_r n (10 ^ Z.of_nat w) 10) by lia.
    lia.
Qed.

Lemma take_udigits_zfill w n rest :
  0 ≤ n < 10 ^ Z.of_nat w → take_udigits w (zfill w n +:+ rest) = Some (n, rest).
Proof.
  intros H. unfold take_udigits. rewrite take_udigits_go_zfill.
  by rewrite Z.mod_small.
Qed.

Lemma month_range m : 1 ≤ m ≤ 12 →
  m = 1 ∨ m = 2 ∨ m = 3 ∨ m = 4 ∨ m = 5 ∨ m = 6 ∨ m = 7 ∨ m = 8 ∨ m = 9
  ∨ m = 10 ∨ m = 11 ∨ m = 12.
Proof. lia. Qed.

Lemma match_month_zfill m rest : 1 ≤ m ≤ 12 →
  first_some (λ '(m, r), r' ← expect "-"%char r; Some (m, r'))
             (month_alternatives (zfill 2 m +:+ "-" +:+ rest))
  = Some (m, rest).
Proof.
  intros H.
  destruct (month_range m H)
    as [->|[->|[->|[->|[->|[->|[->|[->|[->|[->|[->| ->]]]]]]]]]]]; reflexivity.
Qed.

Lemma match_day_zfill d : 1 ≤ d ≤ 31 → match_day (zfill 2 d) = Some (d, "").
Proof.
  intros H.
  assert (Hd : ∃ k : nat, (k < 31)%nat ∧ d = 1 + Z.of_nat k).
  { exists (Z.to_nat (d - 1)). lia. }
  destruct Hd as (k & Hk & ->).
  do 31 (destruct k as [|k]; [reflexivity|]). lia.
Qed.

Lemma days_in_month_le y m : days_in_month y m ≤ 31.
Proof.
  unfold days_in_month. destruct ((m =? 2) && is_leap y); [lia|].
  destruct (Z.to_nat m) as [|k]; [simpl; lia|].
  do 12 (destruct k as [|k]; [simpl; lia|]). destruct k; simpl; lia.
Qed.

Lemma valid_date_ranges d : valid_date d = true →
  1 ≤ year d ≤ 9999 ∧ 1 ≤ month d ≤ 12 ∧ 1 ≤ day d ≤ 31.
Proof.
  unfold valid_date. rewrite !andb_true_iff, !Z.leb_le.
  pose proof (days_in_month_le (year d) (month d)). lia.
Qed.

(** Parsing the ISO text of a date gives the date back. *)
Lemma strptime_format_date d :
  valid_date d = true → strptime_date (format_date d "") = Some d.
Proof.
  intros Hv. destruct (valid_date_ranges d Hv) as (Hy & Hm & Hd).
  unfold strptime_date, format_date.
  rewrite take_udigits_zfill by (change (10 ^ Z.of_nat 4) with 10000; lia).
  cbn [mbind option_bind]. rewrite append_cons, append_nil_l.
  cbn [expect]. rewrite Ascii.eqb_refl. cbn [mbind option_bind].
  rewrite match_month_zfill by done.
  cbn [mbind option_bind]. rewrite append_nil_r, match_day_zfill by done.
  cbn [mbind option_bind Py.is_empty andb].
  destruct d; simpl in *. by rewrite Hv.
Qed.

Lemma last_dot_log s : FS.last_dot (s +:+ ".log") = Some (String.length s).
Proof.
  induction s as [|c s IH]; [done|].
  rewrite append_cons. cbn [FS.last_dot String.length]. by rewrite IH.
Qed.

Lemma length_append (a b : string) :
  String.length (a +:+ b) = (String.length a + String.length b)%nat.
Proof. induction a as [|c a IH]; [done|]. rewrite append_cons; simpl. by rewrite IH. Qed.

Lemma substring_prefix (a b : string) : String.substring 0 (String.length a) (a +:+ b) = a.
Proof.
  induction a as [|c a IH].
  - destruct b; reflexivity.
  - rewrite append_cons. cbn [String.length String.substring]. by rewrite IH.
Qed.

Lemma stem_log dir s : s ≠ "" → FS.stem (dir, s +:+ ".log") = s.
Proof.
  intros Hs. unfold FS.stem. cbn [snd]. rewrite last_dot_log, length_append.
  destruct s as [|c s]; [done|]. cbn [String.length].
  replace ((0 <? S (String.length s))%nat) with true
    by (symmetry; apply Nat.ltb_lt; lia).
  replace ((S (String.length s) <? S (String.length s) + 4 - 1)%nat) with true
    by (symmetry; apply Nat.ltb_lt; lia).
  cbn [andb]. apply (substring_prefix (String c s)).
Qed.

Lemma ends_with_append suffix s : FS.ends_with suffix (s +:+ suffix) = true.
Proof.
  induction s as [|c s IH].
  - rewrite append_nil_l. destruct suffix; cbn [FS.ends_with]; by case_bool_decide.
  - rewrite append_cons. cbn [FS.ends_with]. rewrite IH. by case_bool_decide.
Qed.

Lemma format_date_append d (a b : string) :
  format_date d (a +:+ b) = format_date d a +:+ b.
Proof. unfold format_date. by rewrite !append_assoc. Qed.

(** A file named [YYYY-MM-DD.log] for a day, the year on four digits:
    it matches [*.log] and its stem parses back to the day. *)
Lemma iso_name_parses dir d :
  valid_date d = true →
  FS.ends_with ".log" (format_date d ".log") = true
  ∧ strptime_date (FS.stem (dir, format_date d ".log")) = Some d.
Proof.
  intros Hv.
  rewrite <- (append_nil_l ".log"), format_date_append.
  split; [apply ends_with_append|].
  rewrite stem_log; [by apply strptime_format_date|].
  unfold format_date. by rewrite zfill_S.
Qed.

(** From the year 1000 on the writer's name for a day has that form. *)
Lemma strftime_log_padded (t : datetime) :
  1000 ≤ year (dt_date t) → strftime_log t = format_date (dt_date t) ".log".
Proof.
  intros Hy. unfold strftime_log, strftime_year, format_date.
  destruct (Z.ltb_spec (year (dt_date t)) 10); [lia|].
  destruct (Z.ltb_spec (year (dt_date t)) 100); [lia|].
  by destruct (Z.ltb_spec (year (dt_date t)) 1000); [lia|].
Qed.

Lemma log_name_parses dir (t : datetime) :
  valid_date (dt_date t) = true →
  1000 ≤ year (dt_date t) →
  FS.ends_with ".log" (strftime_log t) = true
  ∧ strptime_date (FS.stem (dir, strftime_log t)) = Some (dt_date t).
Proof.
  intros Hv Hy. rewrite strftime_log_padded by done. by apply iso_name_parses.
Qed.

Lemma read_number_go_zfill w acc n c rest :
  digit_val c = None →
  read_number_go acc (zfill w n +:+ String c rest)
  = (acc * 10 ^ Z.of_nat w + n mod 10 ^ Z.of_nat w, String c rest).
Proof.
  intros Hc. revert acc. induction w as [|w IH]; intros acc.
  - cbn [zfill]. rewrite append_nil_l. cbn [read_number_go]. rewrite Hc.
    change (10 ^ Z.of_nat 0) with 1. rewrite Z.mod_1_r. f_equal. lia.
  - rewrite zfill_S, append_cons. cbn [read_number_go].
    rewrite digit_val_digit by (apply Z.mod_pos_bound; lia).
    rewrite IH. f_equal.
    rewrite Nat2Z.inj_succ, Z.pow_succ_r by lia.
    rewrite (Z.mul_comm 10 (10 ^ Z.of_nat w)).
    rewrite (Z.rem_mul_r n (10 ^ Z.of_nat w) 10) by lia.
    lia.
Qed.

Lemma read_number_strftime_year y rest :
  0 ≤ y < 10000 →
  read_number_go 0 (strftime_year y +:+ String "-"%char rest) = (y, String "-"%char rest).
Proof.
  intros Hy. unfold strftime_year.
  destruct (Z.ltb_spec y 10); [|destruct (Z.ltb_spec y 100); [|destruct (Z.ltb_spec y 1000)]];
    rewrite read_number_go_zfill by done; f_equal; rewrite Z.mod_small; try lia.
  all: match goal with |- context [10 ^ Z.of_nat ?k] =>
         let v := eval compute in (10 ^ Z.of_nat k) in
         change (10 ^ Z.of_nat k) with v end; lia.
Qed.

(** The writer's name for a day reads back to the day, whatever the
    year: two days never share a file. *)
Lemma parse_log_name_strftime_log (t : datetime) :
  valid_date (dt_date t) = true → parse_log_name (strftime_log t) = Some (dt_date t).
Proof.
  intros Hv. destruct (valid_date_ranges _ Hv) as (Hy & Hm & Hd).
  unfold parse_log_name, strftime_log.
  change ("-" +:+ ?r) with (String "-"%char r).
  rewrite read_number_strftime_year by lia.
  cbn [expect]. rewrite Ascii.eqb_refl. cbn [mbind option_bind].
  rewrite take_digits_zfill by (change (10 ^ Z.of_nat 2) with 100; lia).
  cbn [mbind option_bind]. rewrite append_cons, append_nil_l.
  cbn [expect]. rewrite Ascii.eqb_refl. cbn [mbind option_bind].
  rewrite take_digits_zfill by (change (10 ^ Z.of_nat 2) with 100; lia).
  cbn [mbind option_bind]. by destruct (dt_date t).
Qed.

End DateNames.

(** ** The retention sweep *)

Section Retention.

Lemma cleanup_one_frame cutoff w file :
  storage (cleanup_one cutoff w file) = storage w
  ∧ queues (cleanup_one cutoff w file) = queues w
  ∧ FS.dirs (fs (cleanup_one cutoff w file)) = FS.dirs (fs w)
  ∧ FS.handles (fs (cleanup_one cutoff w file)) = FS.handles (fs w).
Proof.
  unfold cleanup_one. destruct (strptime_date _); [|done].
  by destruct (_ <? _).
Qed.

Lemma cleanup_one_files cutoff w file p :
  FS.files (fs (cleanup_one cutoff w file)) !! p
  = if bool_decide (p = file) && expires cutoff p then None else FS.files (fs w) !! p.
Proof.
  unfold cleanup_one, expires. case_bool_decide as Hp; cbn [andb].
  - subst p. destruct (strptime_date _); [|done].
    destruct (_ <? _); [|done]. simpl. apply lookup_delete_eq.
  - destruct (strptime_date (FS.stem file)); [|done].
    destruct (_ <? _); [|done]. simpl. by apply lookup_delete_ne.
Qed.

Lemma cleanup_loop_frame cutoff l w :
  storage (foldl (cleanup_one cutoff) w l) = storage w
  ∧ queues (foldl (cleanup_one cutoff) w l) = queues w
  ∧ FS.dirs (fs (foldl (cleanup_one cutoff) w l)) = FS.dirs (fs w)
  ∧ FS.handles (fs (foldl (cleanup_one cutoff) w l)) = FS.handles (fs w).
Proof.
  revert w. induction l as [|f l IH]; intros w; [done|].
  cbn [foldl]. destruct (IH (cleanup_one cutoff w f)) as (-> & -> & -> & ->).
  apply cleanup_one_frame.
Qed.

Lemma cleanup_loop_files cutoff l w p :
  FS.files (fs (foldl (cleanup_one cutoff) w l)) !! p
  = if bool_decide (p ∈ l) && expires cutoff p then None else FS.files (fs w) !! p.
Proof.
  revert w. induction l as [|f l IH]; intros w; [done|].
  cbn [foldl]. rewrite IH, cleanup_one_files.
  destruct (expires cutoff p); rewrite ?andb_false_r; [|done].
  rewrite !andb_true_r.
  destruct (decide (p ∈ l)) as [Hin|Hin].
  - by rewrite (bool_decide_eq_true_2 (p ∈ l)), (bool_decide_eq_true_2 (p ∈ f :: l))
      by set_solver.
  - rewrite (bool_decide_eq_false_2 (p ∈ l)) by done.
    destruct (decide (p = f)) as [Heq|Hne].
    + by rewrite (bool_decide_eq_true_2 (p = f)), (bool_decide_eq_true_2 (p ∈ f :: l))
        by set_solver.
    + by rewrite (bool_decide_eq_false_2 (p = f)), (bool_decide_eq_false_2 (p ∈ f :: l))
        by (done || by intros [?|?]%elem_of_cons).
Qed.

Lemma elem_of_glob_log dir fs0 p :
  p ∈ FS.glob_log dir fs0
  ↔ is_Some (FS.files fs0 !! p) ∧ p.1 = dir ∧ FS.ends_with ".log" p.2 = true.
Proof.
  unfold FS.glob_log. rewrite list_elem_of_In, filter_In, <- list_elem_of_In.
  rewrite andb_true_iff, bool_decide_eq_true.
  rewrite list_elem_of_fmap. split.
  - intros [([q c] & -> & Hq%elem_of_map_to_list) Hp]. simpl. split; [by eexists|done].
  - intros ([c Hc] & Hp). split; [|done].
    exists (p, c). split; [done|]. by apply elem_of_map_to_list.
Qed.

Lemma cleanup_files_swept now w p :
  write_to_file (_config (storage w)) = true →
  0 < keep_days (_config (storage w)) →
  FS.files (fs (cleanup_files now w)) !! p
  = if swept (_log_dir (storage w))
             (toordinal (dt_date now) - keep_days (_config (storage w))) p
    then None else FS.files (fs w) !! p.
Proof.
  intros Hw Hk. unfold cleanup_files. rewrite Hw. cbn [negb].
  destruct (Z.leb_spec (keep_days (_config (storage w))) 0); [lia|].
  rewrite cleanup_loop_files. unfold swept.
  case_bool_decide as Hin.
  - apply elem_of_glob_log in Hin as (_ & Hd & ->).
    by rewrite bool_decide_eq_true_2.
  - cbn [andb]. destruct (FS.files (fs w) !! p) as [c|] eqn:Hc.
    + assert (Hno : bool_decide (p.1 = _log_dir (storage w))
                    && FS.ends_with ".log" p.2 = false).
      { apply not_true_iff_false. intros [Hd He]%andb_true_iff.
        apply Hin, elem_of_glob_log. rewrite Hc.
        by apply bool_decide_eq_true in Hd. }
      by rewrite Hno.
    + by destruct (_ && _ && _).
Qed.

Lemma cleanup_files_frame now w :
  storage (cleanup_files now w) = storage w
  ∧ queues (cleanup_files now w) = queues w
  ∧ FS.dirs (fs (cleanup_files now w)) = FS.dirs (fs w)
  ∧ FS.handles (fs (cleanup_files now w)) = FS.handles (fs w).
Proof.
  unfold cleanup_files. destruct (negb _); [done|].
  destruct (_ <=? _); [done|]. apply cleanup_loop_frame.
Qed.

Lemma swept_iso_name dir d cutoff :
  valid_date d = true →
  swept dir cutoff (dir, format_date d ".log") = (toordinal d <? cutoff).
Proof.
  intros Hv. destruct (iso_name_parses dir d Hv) as [He Hp].
  unfold swept, expires. cbn [fst snd].
  by rewrite bool_decide_eq_true_2, He, Hp.
Qed.

Lemma swept_log_name w (t : datetime) cutoff :
  valid_date (dt_date t) = true →
  1000 ≤ year (dt_date t) →
  swept (_log_dir (storage w)) cutoff (_get_log_file_path (storage w) t)
  = (toordinal (dt_date t) <? cutoff).
Proof.
  intros Hv Hy. unfold _get_log_file_path.
  rewrite strftime_log_padded by done. by apply swept_iso_name.
Qed.

Lemma log_path_inj w (t t' : datetime) :
  valid_date (dt_date t) = true → valid_date (dt_date t') = true →
  _get_log_file_path (storage w) t = _get_log_file_path (storage w) t' →
  dt_date t = dt_date t'.
Proof.
  intros Hv Hv' Heq.
  pose proof (parse_log_name_strftime_log t Hv) as Hp.
  pose proof (parse_log_name_strftime_log t' Hv') as Hp'.
  apply (f_equal snd) in Heq.
  change (strftime_log t = strftime_log t') in Heq.
  rewrite Heq in Hp. congruence.
Qed.

Lemma iso_path_inj (dir : string) d d' :
  valid_date d = true → valid_date d' = true →
  (dir, format_date d ".log") = (dir, format_date d' ".log") → d = d'.
Proof.
  intros Hv Hv' Heq.
  destruct (iso_name_parses dir d Hv) as [_ Hp].
  destruct (iso_name_parses dir d' Hv') as [_ Hp'].
  rewrite Heq in Hp. congruence.
Qed.

(** The scenario of the specification: files named [YYYY-MM-DD.log]
    for the days [D-5], [D-2] and [D], three days kept, swept on day
    [D]. *)
Lemma sweep_three_files now d5 d2 c5 c2 c0 w :
  write_to_file (_config (storage w)) = true →
  keep_days (_config (storage w)) = 3 →
  valid_date (dt_date now) = true →
  valid_date d5 = true →
  valid_date d2 = true →
  toordinal d5 = toordinal (dt_date now) - 5 →
  toordinal d2 = toordinal (dt_date now) - 2 →
  FS.files (fs w)
  = <[day_file (storage w) d5 := c5]>
      (<[day_file (storage w) d2 := c2]>
         (<[day_file (storage w) (dt_date now) := c0]> ∅)) →
  FS.files (fs (cleanup_files now w))
  = <[day_file (storage w) d2 := c2]>
      (<[day_file (storage w) (dt_date now) := c0]> ∅).
Proof.
  intros Hw Hk Hv Hv5 Hv2 Ho5 Ho2 Hfiles. unfold day_file in *.
  assert (Hne52 : (_log_dir (storage w), format_date d5 ".log")
                  ≠ (_log_dir (storage w), format_date d2 ".log")).
  { intros Heq%iso_path_inj; [|done..]. rewrite Heq in Ho5. lia. }
  assert (Hne50 : (_log_dir (storage w), format_date d5 ".log")
                  ≠ (_log_dir (storage w), format_date (dt_date now) ".log")).
  { intros Heq%iso_path_inj; [|done..]. rewrite Heq in Ho5. lia. }
  apply map_eq. intros p.
  rewrite cleanup_files_swept by (done || lia). rewrite Hk, Hfiles.
  destruct (decide (p = (_log_dir (storage w), format_date d5 ".log"))) as [->|Hp5].
  { rewrite swept_iso_name by done.
    destruct (Z.ltb_spec (toordinal d5) (toordinal (dt_date now) - 3)); [|lia].
    by rewrite !lookup_insert_ne. }
  rewrite (lookup_insert_ne _ _ p) by done.
  destruct (decide (p = (_log_dir (storage w), format_date d2 ".log"))) as [->|Hp2].
  { rewrite swept_iso_name by done.
    by destruct (Z.ltb_spec (toordinal d2) (toordinal (dt_date now) - 3)); [lia|]. }
  destruct (decide (p = (_log_dir (storage w), format_date (dt_date now) ".log"))) as [->|Hp0].
  { rewrite swept_iso_name by done.
    by destruct (Z.ltb_spec (toordinal (dt_date now)) (toordinal (dt_date now) - 3)); [lia|]. }
  rewrite !lookup_insert_ne, lookup_empty by done.
  by destruct (swept _ _ _).
Qed.

(** C10. With [write_to_file] off, a sweep changes nothing, whatever
    [keep_days] is and whatever files the log directory holds. *)
Theorem sweep_gated_by_write_to_file now w :
  write_to_file (_config (storage w)) = false → cleanup_files now w = w.
Proof. intros H. unfold cleanup_files. by rewrite H. Qed.

Lemma sweep_gated_by_write_to_file_witness :
  cleanup_files t_10mar
    (world_over config_no_files ["2024-03-05.log"; "2024-03-08.log"; "2024-03-10.log"])
  = world_over config_no_files ["2024-03-05.log"; "2024-03-08.log"; "2024-03-10.log"].
Proof. apply sweep_gated_by_write_to_file. reflexivity. Defined.

(** C5, as the code has it. With file persistence on and
    [keep_days > 0], a sweep removes exactly the [*.log] files of the
    log directory whose stem parses as a date that is more than
    [keep_days] days before today, and touches nothing else; a file whose
    name does not parse stays; with [keep_days <= 0] the sweep does
    nothing. The stem is read as [strptime] reads [%Y-%m-%d]: decimal
    digits of any script count in the year. Of files named
    [YYYY-MM-DD.log] for the days [D-5], [D-2] and [D], swept on day [D]
    with three days kept, only the first goes. *)
Theorem sweep_deletes_expired_when_persisting now w :
  write_to_file (_config (storage w)) = true →
  let keep := keep_days (_config (storage w)) in
  let cutoff := toordinal (dt_date now) - keep in
  let w' := cleanup_files now w in
  (keep ≤ 0 → w' = w)
  ∧ (0 < keep → ∀ p,
       FS.files (fs w') !! p
       = if swept (_log_dir (storage w)) cutoff p then None else FS.files (fs w) !! p)
  ∧ (∀ p, strptime_date (FS.stem p) = None → FS.files (fs w') !! p = FS.files (fs w) !! p)
  ∧ storage w' = storage w ∧ queues w' = queues w
  ∧ FS.dirs (fs w') = FS.dirs (fs w) ∧ FS.handles (fs w') = FS.handles (fs w)
  ∧ (∀ d5 d2 c5 c2 c0,
       keep = 3 →
       valid_date (dt_date now) = true →
       valid_date d5 = true →
       valid_date d2 = true →
       toordinal d5 = toordinal (dt_date now) - 5 →
       toordinal d2 = toordinal (dt_date now) - 2 →
       FS.files (fs w)
       = <[day_file (storage w) d5 := c5]>
           (<[day_file (storage w) d2 := c2]>
              (<[day_file (storage w) (dt_date now) := c0]> ∅)) →
       FS.files (fs w')
       = <[day_file (storage w) d2 := c2]>
           (<[day_file (storage w) (dt_date now) := c0]> ∅)).
Proof.
  intros Hw keep cutoff w'.
  destruct (cleanup_files_frame now w) as (Hs & Hq & Hd & Hh).
  split; [|split; [|split]].
  - intros Hk. unfold w', cleanup_files. rewrite Hw. cbn [negb].
    by destruct (Z.leb_spec (keep_days (_config (storage w))) 0); [|unfold keep in *; lia].
  - intros Hk p. by apply cleanup_files_swept.
  - intros p Hp. destruct (decide (0 < keep)) as [Hk|Hk].
    + unfold w'. rewrite cleanup_files_swept by done.
      unfold swept, expires. rewrite Hp. by rewrite andb_false_r.
    + unfold w', cleanup_files. rewrite Hw. cbn [negb].
      by destruct (Z.leb_spec (keep_days (_config (storage w))) 0); [|unfold keep in *; lia].
  - repeat (split; [done|]).
    intros d5 d2 c5 c2 c0 Hk. by apply sweep_three_files.
Qed.

Lemma sweep_deletes_expired_when_persisting_witness :
  FS.files (fs (cleanup_files t_10mar
    (world_over (config_cap 5) ["2024-03-05.log"; "2024-03-08.log"; "2024-03-10.log"; "notes.log"])))
  !! ("./logs", "2024-03-05.log") = None.
Proof.
  refine (proj1 (proj2
    (sweep_deletes_expired_when_persisting t_10mar
       (world_over (config_cap 5)
          ["2024-03-05.log"; "2024-03-08.log"; "2024-03-10.log"; "notes.log"]) _)) _ _).
  - reflexivity.
  - by vm_compute.
Defined.

(** C5 as the claim words it fails when persistence is off: three days
    are kept, the file of [D-5] is due, and the sweep leaves it. *)
Lemma sweep_without_persistence_counterexample :
  let w := world_over config_no_files ["2024-03-05.log"; "2024-03-08.log"; "2024-03-10.log"] in
  0 < keep_days (_config (storage w))
  ∧ swept (_log_dir (storage w))
          (toordinal (dt_date t_10mar) - keep_days (_config (storage w)))
          ("./logs", "2024-03-05.log") = true
  ∧ is_Some (FS.files (fs w) !! ("./logs", "2024-03-05.log"))
  ∧ is_Some (FS.files (fs (cleanup_files t_10mar w)) !! ("./logs", "2024-03-05.log")).
Proof. repeat split; try done; by vm_compute. Qed.

End Retention.

(** ** The serialized entry *)

Section Serialization.

Lemma format_time_append t (a b : string) :
  format_time t (a +:+ b) = format_time t a +:+ b.
Proof.
  unfold format_time. destruct (microsecond t =? 0); by rewrite !append_assoc.
Qed.

Lemma mem_char_append c (a b : string) :
  Py.mem_char c (a +:+ b) = Py.mem_char c a || Py.mem_char c b.
Proof.
  induction a as [|d a IH]; [done|].
  rewrite append_cons. cbn [Py.mem_char]. by destruct (Ascii.eqb c d).
Qed.

(** A field printed by [zfill] holds digits only. *)
Lemma mem_char_zfill c w n :
  digit_val c = None → Py.mem_char c (zfill w n) = false.
Proof.
  intros Hc. induction w as [|w IH]; [done|].
  rewrite zfill_S. cbn [Py.mem_char]. rewrite IH.
  destruct (Ascii.eqb_spec c (digit (n / 10 ^ Z.of_nat w mod 10))) as [->|]; [|done].
  rewrite digit_val_digit in Hc; [done|]. apply Z.mod_pos_bound. lia.
Qed.

Lemma replace_go_nil fuel old new : old ≠ "" → Py.replace_go fuel old new "" = "".
Proof. intros H. destruct fuel; [done|]. by destruct old. Qed.

(** Replacing the offset that ends a text free of ["+"]. *)
Lemma replace_offset body :
  Py.mem_char "+"%char body = false →
  Py.replace "+00:00" "Z" (body +:+ "+00:00") = body +:+ "Z".
Proof.
  intros Hfree. unfold Py.replace.
  generalize (Nat.le_refl (String.length (body +:+ "+00:00"))).
  generalize (String.length (body +:+ "+00:00")) at 2 3 as fuel.
  induction body as [|c body IH]; intros fuel Hfuel.
  - rewrite append_nil_l in *. simpl in Hfuel.
    do 6 (destruct fuel as [|fuel]; [lia|]). reflexivity.
  - rewrite !append_cons in *. cbn [String.length] in Hfuel.
    destruct fuel as [|fuel]; [lia|]. cbn [Py.mem_char] in Hfree.
    destruct (Ascii.eqb "+"%char c) eqn:Hc; [done|].
    cbn [Py.replace_go Py.strip_prefix]. rewrite Hc.
    f_equal. apply IH; [done|lia].
Qed.

(** The text of a timestamp: date, ["T"], time, ["Z"]. *)
Lemma utc_stamp_shape t :
  utc_stamp t = format_date (dt_date t) ("T" +:+ format_time t "") +:+ "Z".
Proof.
  unfold utc_stamp, isoformat.
  rewrite <- (append_nil_l "+00:00"), format_time_append.
  rewrite <- append_assoc, format_date_append.
  apply replace_offset.
  unfold format_date, format_time.
  rewrite !mem_char_append, !mem_char_zfill by done.
  destruct (microsecond t =? 0); [done|].
  by rewrite !mem_char_append, !mem_char_zfill by done.
Qed.

Lemma valid_datetime_ranges t : valid_datetime t = true →
  valid_date (dt_date t) = true
  ∧ 0 ≤ hour t < 24 ∧ 0 ≤ minute t < 60 ∧ 0 ≤ second t < 60
  ∧ 0 ≤ microsecond t < 1000000.
Proof.
  unfold valid_datetime. rewrite !andb_true_iff, !Z.leb_le, !Z.ltb_lt. tauto.
Qed.

Lemma expect_cons c r : expect c (String c r) = Some r.
Proof. cbn [expect]. by rewrite Ascii.eqb_refl. Qed.

Lemma expect_digit c w n r :
  digit_val c = None → expect c (zfill (S w) n +:+ r) = None.
Proof.
  intros Hc. rewrite zfill_S, append_cons. cbn [expect].
  destruct (Ascii.eqb_spec c (digit (n / 10 ^ Z.of_nat w mod 10))) as [->|]; [|done].
  rewrite digit_val_digit in Hc; [done|]. apply Z.mod_pos_bound. lia.
Qed.

(** Reading the text of a timestamp gives the timestamp back, to the
    microsecond. *)
Lemma parse_utc_stamp_utc_stamp t :
  valid_datetime t = true → parse_utc_stamp (utc_stamp t) = Some t.
Proof.
  intros Hv. destruct (valid_datetime_ranges t Hv) as (Hvd & Hh & Hm & Hs & Hus).
  destruct (valid_date_ranges _ Hvd) as (Hy & Hmo & Hd).
  rewrite utc_stamp_shape. unfold parse_utc_stamp, format_date, format_time.
  rewrite !append_assoc.
  rewrite take_digits_zfill by (change (10 ^ Z.of_nat 4) with 10000; lia).
  cbn [mbind option_bind]. rewrite append_cons, append_nil_l, expect_cons.
  cbn [mbind option_bind].
  rewrite take_digits_zfill by (change (10 ^ Z.of_nat 2) with 100; lia).
  cbn [mbind option_bind]. rewrite append_cons, append_nil_l, expect_cons.
  cbn [mbind option_bind].
  rewrite take_digits_zfill by (change (10 ^ Z.of_nat 2) with 100; lia).
  cbn [mbind option_bind]. rewrite append_cons, append_nil_l, expect_cons.
  cbn [mbind option_bind].
  rewrite take_digits_zfill by (change (10 ^ Z.of_nat 2) with 100; lia).
  cbn [mbind option_bind]. rewrite append_cons, append_nil_l, expect_cons.
  cbn [mbind option_bind].
  rewrite take_digits_zfill by (change (10 ^ Z.of_nat 2) with 100; lia).
  cbn [mbind option_bind]. rewrite append_cons, append_nil_l, expect_cons.
  cbn [mbind option_bind].
  rewrite take_digits_zfill by (change (10 ^ Z.of_nat 2) with 100; lia).
  cbn [mbind option_bind].
  destruct (Z.eqb_spec (microsecond t) 0) as [Hz|Hnz].
  - rewrite append_nil_l. change (expect "."%char "Z") with (@None string).
    cbn [mbind option_bind]. rewrite expect_cons.
    cbn [mbind option_bind Py.is_empty andb].
    destruct t as [[y m d] hh mm ss us]; simpl in *. subst us. by rewrite Hv.
  - rewrite !append_assoc, append_cons, append_nil_l, expect_cons.
    rewrite take_digits_zfill by (change (10 ^ Z.of_nat 6) with 1000000; lia).
    cbn [mbind option_bind]. rewrite append_nil_l, expect_cons.
    cbn [mbind option_bind Py.is_empty andb].
    destruct t as [[y m d] hh mm ss us]; simpl in *. by rewrite Hv.
Qed.

(** C6. The serialized form of an entry is an object with the fields
    [timestamp] and [message]; the timestamp is ISO-8601 in UTC and ends
    in [Z]; the message is the raw string. Reading the object back gives
    the entry: the same message and a timestamp equal to the original in
    every field down to the microsecond. *)
Theorem to_dict_round_trip e :
  valid_datetime (timestamp e) = true →
  from_dict (to_dict e) = Some e
  ∧ to_dict e !! "message" = Some (message e)
  ∧ to_dict e !! "timestamp"
    = Some (format_date (dt_date (timestamp e))
              ("T" +:+ format_time (timestamp e) "") +:+ "Z")
  ∧ dom (to_dict e) = {["timestamp"; "message"]}.
Proof.
  intros Hv. unfold from_dict, to_dict.
  rewrite lookup_insert_eq, lookup_insert_ne, lookup_insert_eq by done.
  cbn [mbind option_bind]. rewrite parse_utc_stamp_utc_stamp by done.
  cbn [mbind option_bind]. split; [by destruct e|]. split; [done|].
  split; [by rewrite utc_stamp_shape|].
  rewrite !dom_insert_L. set_solver.
Qed.

Lemma to_dict_round_trip_witness :
  from_dict (to_dict {| timestamp := t_9mar; message := "GET /index" |})
  = Some {| timestamp := t_9mar; message := "GET /index" |}.
Proof.
  apply (to_dict_round_trip {| timestamp := t_9mar; message := "GET /index" |}).
  reflexivity.
Defined.

End Serialization.

(** ** The datagram listener *)

Section Listener.

Lemma run_tasks_entries clock lines w :
  (run_tasks clock lines w).1 = imap (λ i line, entry_of (clock i, line)) lines.
Proof.
  unfold run_tasks. rewrite add_entries_entries.
  generalize clock. clear clock.
  induction lines as [|l lines IH]; intros clock; [done|].
  cbn [imap fmap list_fmap]. f_equal. apply (IH (clock ∘ S)).
Qed.

(** C7. One datagram with the payload ["a\nb\n\nc"] and no allow-list:
    the text is decoded and split at the line boundaries, the empty line
    is skipped, and the three lines ["a"], ["b"], ["c"] are handed to
    [add_entry] in that order; the three entries produced carry those
    messages in that order and follow what the buffer held. *)
Theorem datagram_abc_gives_three_entries config addr clock w :
  udp_whitelist config = [] →
  bounded (_buffer (storage w)) →
  let lines := datagram_received config payload_abc addr in
  let es := (run_tasks clock lines w).1 in
  let w' := (run_tasks clock lines w).2 in
  Py.splitlines (Py.decode_utf8_replace payload_abc) = ["a"; "b"; ""; "c"]
  ∧ lines = ["a"; "b"; "c"]
  ∧ es = [ {| timestamp := clock 0%nat; message := "a" |};
           {| timestamp := clock 1%nat; message := "b" |};
           {| timestamp := clock 2%nat; message := "c" |} ]
  ∧ buffered w' = last_n (Z.to_nat (capacity w)) (buffered w ++ es).
Proof.
  intros Hwl Hb lines es w'.
  assert (Hlines : lines = ["a"; "b"; "c"]).
  { unfold lines, datagram_received. rewrite Hwl. reflexivity. }
  assert (Hes : es = [ {| timestamp := clock 0%nat; message := "a" |};
                       {| timestamp := clock 1%nat; message := "b" |};
                       {| timestamp := clock 2%nat; message := "c" |} ]).
  { unfold es. rewrite run_tasks_entries, Hlines. reflexivity. }
  split; [reflexivity|]. split; [done|]. split; [done|].
  unfold w', run_tasks.
  destruct (add_entries_buffer (imap (λ i line, (clock i, line)) lines) w Hb)
    as (_ & _ & ->).
  by rewrite <- (add_entries_entries _ w).
Qed.

Lemma datagram_abc_gives_three_entries_witness :
  (run_tasks (λ _, t_9mar) (datagram_received default_config payload_abc ("10.0.0.7", 514))
     (fresh_world default_config)).1
  = [ {| timestamp := t_9mar; message := "a" |};
      {| timestamp := t_9mar; message := "b" |};
      {| timestamp := t_9mar; message := "c" |} ].
Proof.
  refine (proj1 (proj2 (proj2
    (datagram_abc_gives_three_entries default_config ("10.0.0.7", 514) (λ _, t_9mar)
       (fresh_world default_config) _ _)))).
  - reflexivity.
  - split; by vm_compute.
Defined.

End Listener.

(** ** Subscriber queues *)

Section Subscribers.

Lemma push_or_drop_maxsize {A} (x : A) q : Py.maxsize (push_or_drop x q) = Py.maxsize q.
Proof. unfold push_or_drop, Py.put_nowait. by destruct (Py.full q). Qed.

Lemma push_or_drop_queued {A} (x : A) q :
  Py.queued (push_or_drop x q) = if Py.full q then Py.queued q else Py.queued q ++ [x].
Proof. unfold push_or_drop, Py.put_nowait. by destruct (Py.full q). Qed.

(** A run of puts into a queue nobody drains: the queue takes the
    first entries that fit and drops the rest. *)
Lemma push_all_queued {A} (es : list A) q :
  Py.maxsize (foldl (flip push_or_drop) q es) = Py.maxsize q
  ∧ Py.queued (foldl (flip push_or_drop) q es)
    = Py.queued q ++ take (room q (length es)) es.
Proof.
  revert q. induction es as [|e es IH]; intros q.
  - cbn [foldl]. by rewrite take_nil, app_nil_r.
  - cbn [foldl flip]. destruct (IH (push_or_drop e q)) as [IHm IHq].
    rewrite IHm, IHq, push_or_drop_maxsize, push_or_drop_queued.
    split; [done|]. unfold room. rewrite push_or_drop_maxsize, push_or_drop_queued.
    unfold Py.full. destruct (Z.leb_spec (Py.maxsize q) 0) as [Hq|Hq].
    + cbn [length]. by rewrite firstn_cons, <- app_assoc.
    + destruct (Z.leb_spec (Py.maxsize q) (Z.of_nat (length (Py.queued q)))) as [Hf|Hf].
      * replace (Z.to_nat (Py.maxsize q - Z.of_nat (length (Py.queued q)))) with 0%nat by lia.
        done.
      * rewrite length_app. cbn [length].
        replace (Z.to_nat (Py.maxsize q - Z.of_nat (length (Py.queued q))))
          with (S (Z.to_nat (Py.maxsize q - Z.of_nat (length (Py.queued q) + 1)))) by lia.
        by rewrite firstn_cons, <- app_assoc.
Qed.

Lemma notify_one_lookup e (qs : gmap nat (Py.Queue LogEntry)) i j :
  notify_one e qs i !! j
  = if decide (i = j) then push_or_drop e <$> qs !! j else qs !! j.
Proof.
  unfold notify_one, push_or_drop. case_decide as Hij.
  - subst j. destruct (qs !! i) as [q|] eqn:Hq; [|by rewrite Hq].
    cbn [fmap option_fmap option_map].
    destruct (Py.put_nowait e q); [by rewrite lookup_insert_eq|by rewrite Hq].
  - destruct (qs !! i) as [q|]; [|done].
    destruct (Py.put_nowait e q); [by rewrite lookup_insert_ne|done].
Qed.

Lemma notify_loop_lookup_other e l (qs : gmap nat (Py.Queue LogEntry)) j :
  j ∉ l → foldl (notify_one e) qs l !! j = qs !! j.
Proof.
  revert qs. induction l as [|i l IH]; intros qs Hj; [done|].
  apply not_elem_of_cons in Hj as [Hne Hj].
  cbn [foldl]. rewrite IH, notify_one_lookup by done. by case_decide.
Qed.

Lemma notify_loop_lookup e l (qs : gmap nat (Py.Queue LogEntry)) j :
  NoDup l → j ∈ l → foldl (notify_one e) qs l !! j = push_or_drop e <$> qs !! j.
Proof.
  revert qs. induction l as [|i l IH]; intros qs Hnd Hj; [by apply elem_of_nil in Hj|].
  apply NoDup_cons in Hnd as [Hi Hnd]. cbn [foldl].
  destruct (decide (i = j)) as [->|Hne].
  - rewrite notify_loop_lookup_other, notify_one_lookup by done. by case_decide.
  - apply elem_of_cons in Hj as [Hj|Hj]; [congruence|].
    rewrite IH, notify_one_lookup by done. by case_decide.
Qed.

Lemma add_entries_listeners calls w :
  _listeners (storage (add_entries calls w).2) = _listeners (storage w).
Proof.
  revert w. induction calls as [|[now msg] calls IH]; intros w; [done|].
  by rewrite add_entries_cons, IH, add_entry_listeners.
Qed.

Lemma add_entries_queue calls w qid q :
  NoDup (_listeners (storage w)) →
  qid ∈ _listeners (storage w) →
  queues w !! qid = Some q →
  queues (add_entries calls w).2 !! qid
  = Some (foldl (flip push_or_drop) q (entry_of <$> calls)).
Proof.
  revert w q. induction calls as [|[now msg] calls IH]; intros w q Hnd Hin Hq; [done|].
  rewrite add_entries_cons. cbn [fmap list_fmap foldl flip].
  apply IH; rewrite ?add_entry_listeners; [done..|].
  by rewrite add_entry_queues, notify_loop_lookup, Hq.
Qed.

(** C3, as the code has it. While a subscriber does not drain its queue
    of capacity [Q >= 1], the queue keeps what it held and takes the
    entries ingested next until it is full; from then on each new entry
    is the one dropped. So once [Q] or more entries are at stake exactly
    [Q] are deliverable, and they are the oldest ones, not the most
    recent. A queue with [Q <= 0] is unbounded and drops nothing. The
    put never waits, and the subscriber stays registered. *)
Theorem full_queue_drops_new_entries qid q calls w :
  NoDup (_listeners (storage w)) →
  qid ∈ _listeners (storage w) →
  queues w !! qid = Some q →
  let Q := Py.maxsize q in
  let es := (add_entries calls w).1 in
  let w' := (add_entries calls w).2 in
  _listeners (storage w') = _listeners (storage w)
  ∧ ∃ q', queues w' !! qid = Some q'
      ∧ Py.maxsize q' = Q
      ∧ Py.queued q' = Py.queued q ++ take (room q (length es)) es
      ∧ (0 < Q →
         Z.of_nat (length (Py.queued q)) ≤ Q →
         Q ≤ Z.of_nat (length (Py.queued q) + length es) →
         Z.of_nat (length (Py.queued q')) = Q
         ∧ Py.queued q' = take (Z.to_nat Q) (Py.queued q ++ es))
      ∧ (Q ≤ 0 → Py.queued q' = Py.queued q ++ es).
Proof.
  intros Hnd Hin Hq Q es w'.
  split; [apply add_entries_listeners|].
  assert (Hes : es = entry_of <$> calls) by apply add_entries_entries.
  destruct (push_all_queued es q) as [Hm Hqd].
  exists (foldl (flip push_or_drop) q es).
  split; [unfold w'; rewrite Hes; by apply add_entries_queue|].
  split; [done|]. split; [done|]. split.
  - intros HQ Hlen Hmany. rewrite Hqd. unfold room.
    destruct (Z.leb_spec (Py.maxsize q) 0); [unfold Q in *; lia|].
    fold Q. split.
    + rewrite length_app, length_take. lia.
    + rewrite firstn_app. rewrite (take_ge (Py.queued q)) by lia.
      do 2 f_equal. lia.
  - intros HQ. rewrite Hqd. unfold room.
    destruct (Z.leb_spec (Py.maxsize q) 0); [|unfold Q in *; lia].
    by rewrite firstn_all.
Qed.

Lemma full_queue_drops_new_entries_witness :
  Py.queued <$> queues (add_entries [(t_9mar, "a"); (t_9mar, "b"); (t_10mar, "c")]
                          (subscribe 2 (fresh_world (config_cap 5))).2).2
                !! (subscribe 2 (fresh_world (config_cap 5))).1
  = Some [entry_of (t_9mar, "a"); entry_of (t_9mar, "b")].
Proof.
  destruct (full_queue_drops_new_entries
              (subscribe 2 (fresh_world (config_cap 5))).1 (Py.Queue_new 2)
              [(t_9mar, "a"); (t_9mar, "b"); (t_10mar, "c")]
              (subscribe 2 (fresh_world (config_cap 5))).2)
    as (_ & q' & Hq' & _ & Hqueued & _).
  - apply NoDup_singleton.
  - apply list_elem_of_singleton. reflexivity.
  - reflexivity.
  - rewrite Hq'. cbn [fmap option_fmap option_map]. f_equal. exact Hqueued.
Defined.

(** C3 as the claim words it fails: with room for one entry and two
    ingested, the first stays queued and the second is dropped, whereas
    the most recent run of length one is the second; and a subscriber
    with capacity 0 keeps both. *)
Lemma subscriber_keeps_most_recent_counterexample :
  let calls := [(t_9mar, "a"); (t_9mar, "b")] in
  Py.queued <$> queues (add_entries calls (subscribe 1 (fresh_world (config_cap 5))).2).2
                  !! (subscribe 1 (fresh_world (config_cap 5))).1
    = Some [entry_of (t_9mar, "a")]
  ∧ last_n 1 (entry_of <$> calls) = [entry_of (t_9mar, "b")]
  ∧ entry_of (t_9mar, "a") ≠ entry_of (t_9mar, "b")
  ∧ Py.queued <$> queues (add_entries calls (subscribe 0 (fresh_world (config_cap 5))).2).2
                    !! (subscribe 0 (fresh_world (config_cap 5))).1
    = Some (entry_of <$> calls).
Proof. repeat split; by vm_compute. Qed.

End Subscribers.

(** ** The file writer *)

Section Writer.

Lemma remove_first_head h l : FS.remove_first h (h :: l) = l.
Proof. cbn [FS.remove_first]. by rewrite decide_True. Qed.

(** The writer looks at nothing but its own state. *)
Lemma _write_to_file_writer_state e w1 w2 :
  writer_state w1 = writer_state w2 →
  writer_state (_write_to_file e w1) = writer_state (_write_to_file e w2).
Proof.
  destruct w1 as [[c1 b1 l1 d1 m1 h1 t1] q1 f1], w2 as [[c2 b2 l2 d2 m2 h2 t2] q2 f2].
  unfold writer_state. cbn [storage fs _log_dir _current_log_file _file_handle].
  intros [= -> -> -> ->].
  unfold _write_to_file, _rotate_log_file, _get_log_file_path.
  cbn [storage fs _log_dir _current_log_file _file_handle].
  case_decide; destruct h2; reflexivity.
Qed.

Lemma add_entry_writer_state now msg w :
  writer_state (add_entry now msg w).2
  = if write_to_file (_config (storage w))
    then writer_state (_write_to_file (entry_of (now, msg)) w)
    else writer_state w.
Proof.
  unfold add_entry. cbn [snd].
  set (e := {| timestamp := now; message := Py.rstrip Py.nl msg |}).
  change (entry_of (now, msg)) with e.
  set (w2 := _notify e _).
  assert (Hw2 : writer_state w2 = writer_state w) by reflexivity.
  assert (Hc : write_to_file (_config (storage w2)) = write_to_file (_config (storage w)))
    by reflexivity.
  rewrite Hc. destruct (write_to_file (_config (storage w))).
  - rewrite <- (_write_to_file_writer_state e w2 w Hw2).
    by destruct (_telegram_notifier _).
  - rewrite <- Hw2. by destruct (_telegram_notifier _).
Qed.

Lemma _write_to_file_open e w h :
  _current_log_file (storage w) = Some (_get_log_file_path (storage w) (timestamp e)) →
  _file_handle (storage w) = Some h →
  _write_to_file e w = with_fs (FS.write h (file_line e)) w.
Proof.
  intros Hm Hh. unfold _write_to_file. rewrite decide_False by (by intros ?).
  by rewrite Hh.
Qed.

Lemma _write_to_file_closed e w :
  _current_log_file (storage w) = Some (_get_log_file_path (storage w) (timestamp e)) →
  _file_handle (storage w) = None →
  _write_to_file e w = w.
Proof.
  intros Hm Hh. unfold _write_to_file. rewrite decide_False by (by intros ?).
  by rewrite Hh.
Qed.

Lemma _rotate_log_file_handle p w :
  _file_handle (storage (_rotate_log_file p w)) = Some p
  ∧ _current_log_file (storage (_rotate_log_file p w)) = Some p
  ∧ _log_dir (storage (_rotate_log_file p w)) = _log_dir (storage w).
Proof. unfold _rotate_log_file. by destruct (_file_handle (storage w)). Qed.

Lemma _rotate_log_file_fs p w :
  fs (_rotate_log_file p w)
  = FS.open_append p (FS.mkdir p.1
      (match _file_handle (storage w) with
       | Some h => FS.close h (fs w)
       | None => fs w
       end)).
Proof. unfold _rotate_log_file. by destruct (_file_handle (storage w)). Qed.

Lemma _write_to_file_rotate e w :
  _current_log_file (storage w) ≠ Some (_get_log_file_path (storage w) (timestamp e)) →
  _write_to_file e w
  = with_fs (FS.write (_get_log_file_path (storage w) (timestamp e)) (file_line e))
      (_rotate_log_file (_get_log_file_path (storage w) (timestamp e)) w).
Proof.
  intros Hm. unfold _write_to_file. rewrite decide_True by done.
  by destruct (_rotate_log_file_handle
                 (_get_log_file_path (storage w) (timestamp e)) w) as (-> & _).
Qed.

Lemma write_after_open p line fs0 :
  FS.files (FS.write p line (FS.open_append p fs0)) = appended p line (FS.files fs0).
Proof.
  unfold appended. cbn [FS.write FS.open_append FS.files].
  destruct (FS.files fs0 !! p) as [c|] eqn:Hc.
  - by rewrite Hc.
  - by rewrite lookup_insert_eq, insert_insert_eq.
Qed.

(** One write, from a state where the handles of the file system are
    the writer's and the others', and an open handle is the marked
    file's. *)
Lemma _write_to_file_step others e w :
  FS.handles (fs w) = option_list (_file_handle (storage w)) ++ others →
  (∀ p, _file_handle (storage w) = Some p → _current_log_file (storage w) = Some p) →
  let target := _get_log_file_path (storage w) (timestamp e) in
  let w' := _write_to_file e w in
  (FS.handles (fs w') = option_list (_file_handle (storage w')) ++ others
   ∧ ∀ p, _file_handle (storage w') = Some p → _current_log_file (storage w') = Some p)
  ∧ (_file_handle (storage w) = Some target →
       _current_log_file (storage w') = Some target
       ∧ _file_handle (storage w') = Some target
       ∧ FS.handles (fs w') = FS.handles (fs w)
       ∧ FS.files (fs w') = appended target (file_line e) (FS.files (fs w)))
  ∧ (_current_log_file (storage w) ≠ Some target →
       _current_log_file (storage w') = Some target
       ∧ _file_handle (storage w') = Some target
       ∧ FS.handles (fs w') = target :: others
       ∧ FS.files (fs w') = appended target (file_line e) (FS.files (fs w))).
Proof.
  intros Hh Hm target w'.
  assert (Hrot : _current_log_file (storage w) ≠ Some target →
                 _current_log_file (storage w') = Some target
                 ∧ _file_handle (storage w') = Some target
                 ∧ FS.handles (fs w') = target :: others
                 ∧ FS.files (fs w') = appended target (file_line e) (FS.files (fs w))).
  { intros Hne. unfold w'. rewrite _write_to_file_rotate by done. fold target.
    destruct (_rotate_log_file_handle target w) as (Hh' & Hm' & _).
    cbn [with_fs storage fs]. rewrite Hh', Hm', _rotate_log_file_fs.
    split; [done|]. split; [done|]. split.
    - cbn [FS.write FS.handles FS.open_append FS.mkdir]. f_equal.
      destruct (_file_handle (storage w)) as [h|]; [|by rewrite Hh].
      cbn [FS.close FS.handles]. rewrite Hh. apply remove_first_head.
    - rewrite write_after_open. cbn [FS.mkdir FS.files].
      by destruct (_file_handle (storage w)). }
  split; [|split; [|done]].
  - destruct (decide (_current_log_file (storage w) = Some target)) as [Heq|Hne].
    + destruct (_file_handle (storage w)) as [h|] eqn:Hfh.
      * unfold w'. rewrite (_write_to_file_open e w h) by done.
        cbn [with_fs storage fs FS.write FS.handles]. by rewrite Hfh.
      * unfold w'. rewrite _write_to_file_closed by done. by rewrite Hfh.
    + destruct (Hrot Hne) as (Hm' & Hh' & Hhs & _). rewrite Hh', Hhs.
      split; [done|]. intros p [= <-]. done.
  - intros Hopen. pose proof (Hm _ Hopen) as Hmark.
    unfold w'. rewrite (_write_to_file_open e w target) by done.
    cbn [with_fs storage fs FS.write FS.handles FS.files].
    by rewrite Hopen, Hmark.
Qed.

End Writer.

(** ** What [add_entry] does with a message, and the one that fails *)

Section Encoding.

Lemma encodable_ascii c s :
  (N_of_ascii c <? 128)%N = true → Py.encodable (String c s) = Py.encodable s.
Proof.
  intros Hc. cbn [Py.encodable Py.starts_surrogate].
  destruct s as [|d s]; [done|].
  apply N.ltb_lt in Hc.
  destruct (N.eqb_spec (N_of_ascii c) 237) as [Heq|_]; [lia|done].
Qed.

Lemma encodable_ascii_app a s :
  ascii_only a = true → Py.encodable (a +:+ s) = Py.encodable s.
Proof.
  induction a as [|c a IH]; [done|]. cbn [ascii_only].
  intros [Hc Ha]%andb_true_iff. rewrite append_cons.
  rewrite encodable_ascii by done. by apply IH.
Qed.

Lemma ascii_only_app a b : ascii_only (a +:+ b) = ascii_only a && ascii_only b.
Proof.
  induction a as [|c a IH]; [done|]. rewrite append_cons. cbn [ascii_only].
  by rewrite IH, andb_assoc.
Qed.

Lemma ascii_only_zfill w n : ascii_only (zfill w n) = true.
Proof.
  induction w as [|w IH]; [done|]. rewrite zfill_S. cbn [ascii_only]. rewrite IH.
  assert (H : 0 ≤ n / 10 ^ Z.of_nat w mod 10 < 10) by (apply Z.mod_pos_bound; lia).
  by destruct (digit_range _ H) as [->|[->|[->|[->|[->|[->|[->|[->|[->| ->]]]]]]]]].
Qed.

Lemma ascii_only_utc_stamp t : ascii_only (utc_stamp t) = true.
Proof.
  rewrite utc_stamp_shape. unfold format_date, format_time.
  rewrite !ascii_only_app, !ascii_only_zfill.
  destruct (microsecond t =? 0); [done|].
  by rewrite !ascii_only_app, !ascii_only_zfill.
Qed.

Lemma encodable_newlines s k : Py.encodable (s +:+ newlines k) = Py.encodable s.
Proof.
  induction s as [|c s IH].
  - rewrite append_nil_l. induction k as [|k IH]; [done|].
    cbn [newlines]. by rewrite encodable_ascii.
  - rewrite append_cons. cbn [Py.encodable]. rewrite IH. f_equal. f_equal.
    destruct s as [|d s]; [|done]. rewrite append_nil_l.
    cbn [Py.starts_surrogate]. destruct k as [|k]; [done|].
    cbn [newlines]. by rewrite !andb_false_r.
Qed.

(** Only the message decides whether the line of an entry can be
    written: the rest of the line is ASCII. *)
Lemma encodable_file_line e : Py.encodable (file_line e) = Py.encodable (message e).
Proof.
  unfold file_line.
  rewrite (encodable_ascii_app "[") by done.
  rewrite encodable_ascii_app by apply ascii_only_utc_stamp.
  rewrite (encodable_ascii_app "] ") by done.
  apply (encodable_newlines _ 1).
Qed.

Lemma encodable_rstrip msg : Py.encodable (Py.rstrip Py.nl msg) = Py.encodable msg.
Proof.
  destruct (rstrip_nl_spec msg) as (k & Hk & _).
  rewrite Hk at 2. by rewrite encodable_newlines.
Qed.

(** With room for one item at least, the item appended is the newest. *)
Lemma last_deque_append {A} (x : A) d :
  1 ≤ Py.maxlen d → last (Py.items (Py.deque_append x d)) = Some x.
Proof.
  intros Hcap. unfold Py.deque_append. cbn [Py.items].
  destruct (Z.ltb_spec (Py.maxlen d) (Z.of_nat (length (Py.items d ++ [x]))));
    [|apply last_snoc].
  destruct (Py.items d) as [|y l]; [cbn in *; lia|].
  cbn [app drop]. apply last_snoc.
Qed.

(** The two outcomes of [_write_to_file]. *)
Lemma _write_to_file_exc_spec e w :
  let p := _get_log_file_path (storage w) (timestamp e) in
  let closed := bool_decide (_current_log_file (storage w) = Some p)
                && bool_decide (_file_handle (storage w) = None) in
  if negb closed && negb (Py.encodable (message e))
  then ∃ w', _write_to_file_exc e w = Raised UnicodeEncodeError w'
             ∧ _buffer (storage w') = _buffer (storage w)
             ∧ queues w' = queues w
  else _write_to_file_exc e w = Returned tt (_write_to_file e w).
Proof.
  intros p closed. unfold closed, _write_to_file_exc, _write_to_file. fold p.
  rewrite encodable_file_line.
  destruct (decide (_current_log_file (storage w) ≠ Some p)) as [Hne|Heq].
  - rewrite bool_decide_eq_false_2 by done. cbn [andb negb].
    rewrite (proj1 (_rotate_log_file_handle p w)).
    destruct (Py.encodable (message e)); cbn [negb]; [done|].
    eexists. split; [done|].
    by rewrite _rotate_log_file_buffer, _rotate_log_file_queues.
  - apply dec_stable in Heq. rewrite bool_decide_eq_true_2 by done. cbn [andb].
    destruct (_file_handle (storage w)) as [h|].
    + rewrite bool_decide_eq_false_2 by done. cbn [negb andb].
      destruct (Py.encodable (message e)); cbn [negb]; [done|].
      by eexists.
    + by rewrite bool_decide_eq_true_2.
Qed.

Lemma add_entry_exc_unfold now msg w :
  let e := entry_of (now, msg) in
  let w2 := _notify e
              (with_storage (λ s, set_buffer (Py.deque_append e (_buffer s)) s) w) in
  add_entry_exc now msg w
  = match (if write_to_file (_config (storage w))
           then _write_to_file_exc e w2 else Returned tt w2) with
    | Raised exc w3 => Raised exc w3
    | Returned _ w3 =>
        Returned e
          match _telegram_notifier (storage w3) with
          | Some tg =>
              with_storage
                (set_telegram_notifier (Some (send_message (telegram_text e) tg))) w3
          | None => w3
          end
    end.
Proof. reflexivity. Qed.

Lemma add_entry_unfold now msg w :
  let e := entry_of (now, msg) in
  let w2 := _notify e
              (with_storage (λ s, set_buffer (Py.deque_append e (_buffer s)) s) w) in
  (add_entry now msg w).2
  = match _telegram_notifier
            (storage (if write_to_file (_config (storage w))
                      then _write_to_file e w2 else w2)) with
    | Some tg =>
        with_storage
          (set_telegram_notifier (Some (send_message (telegram_text e) tg)))
          (if write_to_file (_config (storage w)) then _write_to_file e w2 else w2)
    | None => if write_to_file (_config (storage w)) then _write_to_file e w2 else w2
    end.
Proof. reflexivity. Qed.

(** The two outcomes of [add_entry]. *)
Lemma add_entry_exc_spec now msg w :
  let e := entry_of (now, msg) in
  let w2 := _notify e
              (with_storage (λ s, set_buffer (Py.deque_append e (_buffer s)) s) w) in
  if write_refused now msg w
  then ∃ w'', add_entry_exc now msg w = Raised UnicodeEncodeError w''
              ∧ _buffer (storage w'') = _buffer (storage w2)
              ∧ queues w'' = queues w2
  else add_entry_exc now msg w = Returned e (add_entry now msg w).2.
Proof.
  intros e w2. rewrite add_entry_exc_unfold, add_entry_unfold. fold e w2.
  unfold write_refused, closed_on.
  destruct (write_to_file (_config (storage w))); cbn [andb]; [|done].
  pose proof (_write_to_file_exc_spec e w2) as Hspec. cbn zeta in Hspec.
  change (message e) with (Py.rstrip Py.nl msg) in Hspec.
  rewrite encodable_rstrip in Hspec.
  change (_current_log_file (storage w2)) with (_current_log_file (storage w)) in Hspec.
  change (_file_handle (storage w2)) with (_file_handle (storage w)) in Hspec.
  change (_get_log_file_path (storage w2) (timestamp e))
    with (_get_log_file_path (storage w) now) in Hspec.
  destruct (negb _ && negb _).
  - destruct Hspec as (w'' & -> & Hb & Hq). by exists w''.
  - by rewrite Hspec.
Qed.



End Encoding.

(** ** The invariant of the storage *)

Section Invariant.

Lemma wf_init config tg qs fs0 w0 :
  LogStorage_init config tg qs fs0 = Some w0 → wf (FS.handles fs0) w0.
Proof.
  intros Hinit. destruct (LogStorage_init_buffer _ _ _ _ _ Hinit) as (Hb & _ & _).
  unfold LogStorage_init in Hinit.
  destruct (Py.deque_new (max_memory_logs config)) as [b|]; [|done].
  cbn [mbind option_bind] in Hinit. injection Hinit as <-.
  split; cbn [storage queues fs _listeners _file_handle _current_log_file _buffer] in *.
  - done.
  - apply NoDup_nil_2.
  - by intros qid ?%elem_of_nil.
  - done.
  - done.
Qed.

Lemma writer_state_ok others w1 w2 :
  writer_state w1 = writer_state w2 →
  FS.handles (fs w2) = option_list (_file_handle (storage w2)) ++ others →
  (∀ p, _file_handle (storage w2) = Some p → _current_log_file (storage w2) = Some p) →
  FS.handles (fs w1) = option_list (_file_handle (storage w1)) ++ others
  ∧ ∀ p, _file_handle (storage w1) = Some p → _current_log_file (storage w1) = Some p.
Proof. unfold writer_state. intros [= _ Hm Hh Hfs]. by rewrite Hm, Hh, Hfs. Qed.

Lemma notify_loop_is_Some e l (qs : gmap nat (Py.Queue LogEntry)) j :
  is_Some (qs !! j) → is_Some (foldl (notify_one e) qs l !! j).
Proof.
  revert qs. induction l as [|i l IH]; intros qs Hj; [done|].
  cbn [foldl]. apply IH. rewrite notify_one_lookup.
  case_decide; [|done]. by apply fmap_is_Some.
Qed.

Lemma wf_add_entry others now msg w : wf others w → wf others (add_entry now msg w).2.
Proof.
  intros [Hb Hnd Hq Hh Hm].
  pose proof (add_entry_writer_state now msg w) as Hws.
  assert (Hwriter :
    FS.handles (fs (add_entry now msg w).2)
      = option_list (_file_handle (storage (add_entry now msg w).2)) ++ others
    ∧ ∀ p, _file_handle (storage (add_entry now msg w).2) = Some p →
           _current_log_file (storage (add_entry now msg w).2) = Some p).
  { destruct (write_to_file (_config (storage w))).
    - destruct (_write_to_file_step others (entry_of (now, msg)) w Hh Hm) as ([? ?] & _).
      by eapply writer_state_ok.
    - by eapply writer_state_ok. }
  destruct Hwriter as [Hh' Hm'].
  split; [| | |done|done].
  - rewrite add_entry_buffer. by apply deque_append_bounded.
  - by rewrite add_entry_listeners.
  - intros qid. rewrite add_entry_listeners, add_entry_queues. intros Hin.
    by apply notify_loop_is_Some, Hq.
Qed.

Lemma wf_subscribe others n w : wf others w → wf others (subscribe n w).2.
Proof.
  intros [Hb Hnd Hq Hh Hm].
  assert (Hfresh : fresh (dom (queues w)) ∉ _listeners (storage w)).
  { intros Hin. apply Hq, elem_of_dom in Hin. by apply is_fresh in Hin. }
  split; cbn [subscribe snd with_storage with_queues storage queues fs set_listeners
              _buffer _listeners _file_handle _current_log_file]; [done| | |done|done].
  - apply NoDup_app. split; [done|]. split; [|apply NoDup_singleton].
    intros x Hx ->%list_elem_of_singleton. done.
  - intros qid [Hin| ->%list_elem_of_singleton]%elem_of_app.
    + destruct (decide (fresh (dom (queues w)) = qid)) as [<-|Hne]; [done|].
      rewrite lookup_insert_ne by done. by apply Hq.
    + by rewrite lookup_insert_eq.
Qed.

Lemma list_remove_subseteq x l y : y ∈ list_remove x l → y ∈ l.
Proof.
  induction l as [|z l IH]; [done|]. cbn [list_remove].
  case_decide; [by right|]. intros [->|Hy]%elem_of_cons; [by left|]. right. by apply IH.
Qed.

Lemma list_remove_NoDup x l : NoDup l → NoDup (list_remove x l).
Proof.
  induction 1 as [|z l Hz Hnd IH]; [apply NoDup_nil_2|].
  cbn [list_remove]. case_decide; [done|].
  apply NoDup_cons. split; [|done]. intros Hin. by apply Hz, (list_remove_subseteq x).
Qed.

Lemma wf_unsubscribe others qid w : wf others w → wf others (unsubscribe qid w).
Proof.
  intros Hwf. unfold unsubscribe. case_decide; [|done].
  destruct Hwf as [Hb Hnd Hq Hh Hm].
  split; cbn [with_storage storage queues fs set_listeners
              _buffer _listeners _file_handle _current_log_file]; [done| | |done|done].
  - by apply list_remove_NoDup.
  - intros j Hj. by apply Hq, (list_remove_subseteq qid).
Qed.

Lemma wf_viewer_get others qid w : wf others w → wf others (viewer_get qid w).
Proof.
  intros [Hb Hnd Hq Hh Hm].
  split; cbn [viewer_get with_queues storage queues fs]; [done|done| |done|done].
  intros j Hj. specialize (Hq j Hj).
  destruct (queues w !! qid) as [q|] eqn:Hqid; [|done].
  destruct (Py.get_nowait q) as [[x q']|]; [|done].
  destruct (decide (qid = j)) as [->|Hne]; [by rewrite lookup_insert_eq|].
  by rewrite lookup_insert_ne.
Qed.

Lemma wf_clear_buffer others w : wf others w → wf others (clear_buffer w).
Proof.
  intros [[Hc _] Hnd Hq Hh Hm]. by split.
Qed.

Lemma wf_close others w : wf others w → wf others (close w).
Proof.
  intros Hwf. unfold close. destruct (_file_handle (storage w)) as [h|] eqn:Hfh; [|done].
  destruct Hwf as [Hb Hnd Hq Hh Hm].
  split; cbn [with_storage with_fs storage queues fs set_file_handle FS.close FS.handles
              _buffer _listeners _file_handle _current_log_file]; try done.
  rewrite Hh, Hfh. apply remove_first_head.
Qed.

Lemma wf_cleanup_files others now w : wf others w → wf others (cleanup_files now w).
Proof.
  intros [Hb Hnd Hq Hh Hm].
  destruct (cleanup_files_frame now w) as (Hs & Hqs & _ & Hhs).
  split; rewrite ?Hs, ?Hqs, ?Hhs; done.
Qed.

Lemma wf_run_op others o w : wf others w → wf others (run_op o w).
Proof.
  destruct o; cbn [run_op];
    auto using wf_add_entry, wf_subscribe, wf_unsubscribe, wf_viewer_get,
               wf_clear_buffer, wf_close, wf_cleanup_files.
Qed.

(** The invariant holds in every state the process reaches. *)
Lemma wf_run_ops others ops w : wf others w → wf others (run_ops ops w).
Proof.
  revert w. induction ops as [|o ops IH]; intros w Hwf; [done|].
  cbn [run_ops foldl flip]. apply IH. by apply wf_run_op.
Qed.

Lemma option_list_length {A} (o : option A) : (length (option_list o) ≤ 1)%nat.
Proof. destruct o; simpl; lia. Qed.

Lemma writer_handles_wf others w :
  wf others w → writer_handles others w = option_list (_file_handle (storage w)).
Proof.
  intros [_ _ _ Hh _]. unfold writer_handles. rewrite Hh, length_app.
  replace (length (option_list (_file_handle (storage w))) + length others - length others)%nat
    with (length (option_list (_file_handle (storage w)))) by lia.
  by rewrite take_app_length.
Qed.




End Invariant.

(** * Further properties of the engine *)

(** ** The registry of subscribers *)

Section Registry.

Lemma list_remove_snoc x l : x ∉ l → list_remove x (l ++ [x]) = l.
Proof.
  induction l as [|y l IH]; intros Hx.
  - cbn [app list_remove]. by rewrite decide_True.
  - apply not_elem_of_cons in Hx as [Hne Hx].
    cbn [app list_remove]. rewrite decide_False by done. by rewrite IH.
Qed.

Lemma list_remove_not_elem x l : NoDup l → x ∉ list_remove x l.
Proof.
  induction 1 as [|y l Hy Hnd IH]; [by intros ?%elem_of_nil|].
  cbn [list_remove]. case_decide as Hxy; [by subst|].
  intros [->|Hin]%elem_of_cons; [done|]. by apply IH.
Qed.

Lemma fresh_not_listener others w : wf others w → fresh (dom (queues w)) ∉ _listeners (storage w).
Proof.
  intros [_ _ Hq _ _] Hin. apply Hq, elem_of_dom in Hin. by apply is_fresh in Hin.
Qed.

Lemma set_listeners_id s : set_listeners (_listeners s) s = s.
Proof. by destruct s. Qed.

(** Subscribing and then unsubscribing the queue obtained puts the
    registry back as it was: the storage is the one before, and the only
    trace is the new queue object, empty, in the heap. *)
Theorem subscribe_then_unsubscribe others n w :
  wf others w →
  let qid := (subscribe n w).1 in
  let w' := unsubscribe qid (subscribe n w).2 in
  storage w' = storage w
  ∧ fs w' = fs w
  ∧ queues w !! qid = None
  ∧ queues w' = <[qid := Py.Queue_new n]> (queues w).
Proof.
  intros Hwf qid w'. pose proof (fresh_not_listener others w Hwf) as Hfresh.
  assert (Hin : qid ∈ _listeners (storage (subscribe n w).2)).
  { cbn. apply elem_of_app. right. by apply list_elem_of_singleton. }
  unfold w', unsubscribe. rewrite decide_True by done.
  split; [|split; [done|split; [|done]]].
  - cbn [subscribe snd with_storage with_queues storage set_listeners _listeners].
    change (list_remove qid (_listeners (storage w) ++ [qid]))
      with (list_remove (fresh (dom (queues w))) (_listeners (storage w) ++ [fresh (dom (queues w))])).
    rewrite list_remove_snoc by done. by destruct (storage w).
  - apply not_elem_of_dom. apply is_fresh.
Qed.

Lemma subscribe_then_unsubscribe_witness :
  _listeners (storage (unsubscribe (subscribe 7 (fresh_world (config_cap 5))).1
                         (subscribe 7 (fresh_world (config_cap 5))).2))
  = [].
Proof.
  exact (f_equal _listeners
    (proj1 (subscribe_then_unsubscribe [] 7 (fresh_world (config_cap 5))
              (wf_init (config_cap 5) None ∅ FS.empty _ eq_refl)))).
Defined.

Lemma add_entries_queue_other calls w qid :
  qid ∉ _listeners (storage w) →
  queues (add_entries calls w).2 !! qid = queues w !! qid.
Proof.
  revert w. induction calls as [|[now msg] calls IH]; intros w Hq; [done|].
  rewrite add_entries_cons, IH by (by rewrite add_entry_listeners).
  by rewrite add_entry_queues, notify_loop_lookup_other.
Qed.

(** Once a queue is unsubscribed, no later [add_entry] puts anything
    in it: what it holds stays for its viewer to read. *)
Theorem unsubscribed_queue_is_left_alone others qid calls w :
  wf others w →
  queues (add_entries calls (unsubscribe qid w)).2 !! qid = queues w !! qid.
Proof.
  intros [_ Hnd _ _ _]. rewrite add_entries_queue_other.
  - unfold unsubscribe. by case_decide.
  - unfold unsubscribe. case_decide as Hin; [|done].
    cbn. by apply list_remove_not_elem.
Qed.

Lemma unsubscribed_queue_is_left_alone_witness :
  queues (add_entries [(t_9mar, "late")]
            (unsubscribe (subscribe 7 (fresh_world (config_cap 5))).1
               (subscribe 7 (fresh_world (config_cap 5))).2)).2
    !! (subscribe 7 (fresh_world (config_cap 5))).1
  = queues (subscribe 7 (fresh_world (config_cap 5))).2
    !! (subscribe 7 (fresh_world (config_cap 5))).1.
Proof.
  apply (unsubscribed_queue_is_left_alone []).
  apply wf_subscribe. by apply (wf_init (config_cap 5) None ∅ FS.empty).
Defined.

(** A viewer that subscribes with room for what follows misses nothing:
    its queue holds exactly the entries ingested after the subscription,
    in arrival order, and none from before. *)
Theorem new_subscriber_gets_following_entries others n calls w :
  wf others w →
  n ≤ 0 ∨ Z.of_nat (length calls) ≤ n →
  Py.queued <$> queues (add_entries calls (subscribe n w).2).2 !! (subscribe n w).1
  = Some (entry_of <$> calls).
Proof.
  intros Hwf Hroom. pose proof (wf_subscribe others n w Hwf) as [_ Hnd _ _ _].
  rewrite (add_entries_queue calls _ _ (Py.Queue_new n)); [|done| |].
  - cbn [fmap option_fmap option_map]. f_equal.
    destruct (push_all_queued (entry_of <$> calls) (Py.Queue_new n)) as [_ ->].
    unfold room. cbn [Py.Queue_new Py.maxsize Py.queued app length].
    rewrite length_fmap.
    destruct (Z.leb_spec n 0); rewrite take_ge; try done; rewrite length_fmap; lia.
  - cbn. apply elem_of_app. right. by apply list_elem_of_singleton.
  - cbn. apply lookup_insert_eq.
Qed.

Lemma new_subscriber_gets_following_entries_witness :
  Py.queued <$> queues (add_entries [(t_9mar, "a"); (t_10mar, "b")]
                          (subscribe 2 (fresh_world (config_cap 5))).2).2
                !! (subscribe 2 (fresh_world (config_cap 5))).1
  = Some (entry_of <$> [(t_9mar, "a"); (t_10mar, "b")]).
Proof.
  apply (new_subscriber_gets_following_entries []).
  - by apply (wf_init (config_cap 5) None ∅ FS.empty).
  - right. simpl. lia.
Defined.

(** The fan-out treats each subscriber on its own: a registered queue
    with room gets the new entry at its end whatever state the other
    queues are in, a registered queue that is full is left as it is, and
    a queue that is not registered is not touched. *)
Theorem fan_out_is_per_subscriber now msg w :
  NoDup (_listeners (storage w)) →
  let w' := (add_entry now msg w).2 in
  (∀ qid q, qid ∈ _listeners (storage w) → queues w !! qid = Some q →
     Py.full q = false →
     queues w' !! qid = Some (Py.MkQueue (Py.maxsize q) (Py.queued q ++ [entry_of (now, msg)])))
  ∧ (∀ qid q, qid ∈ _listeners (storage w) → queues w !! qid = Some q →
     Py.full q = true → queues w' !! qid = Some q)
  ∧ (∀ qid, qid ∉ _listeners (storage w) → queues w' !! qid = queues w !! qid).
Proof.
  intros Hnd w'. unfold w'. split; [|split].
  - intros qid q Hin Hq Hfull.
    rewrite add_entry_queues, notify_loop_lookup, Hq by done.
    cbn [fmap option_fmap option_map]. unfold push_or_drop, Py.put_nowait.
    by rewrite Hfull.
  - intros qid q Hin Hq Hfull.
    rewrite add_entry_queues, notify_loop_lookup, Hq by done.
    cbn [fmap option_fmap option_map]. unfold push_or_drop, Py.put_nowait.
    by rewrite Hfull.
  - intros qid Hq. by rewrite add_entry_queues, notify_loop_lookup_other.
Qed.

Lemma fan_out_is_per_subscriber_witness :
  queues (add_entry t_9mar "a" (subscribe 1 (subscribe 0 (fresh_world (config_cap 5))).2).2).2
    !! (subscribe 1 (subscribe 0 (fresh_world (config_cap 5))).2).1
  = Some (Py.MkQueue 1 ([] ++ [entry_of (t_9mar, "a")])).
Proof.
  refine (proj1 (fan_out_is_per_subscriber t_9mar "a"
            (subscribe 1 (subscribe 0 (fresh_world (config_cap 5))).2).2 _)
            _ (Py.Queue_new 1) _ _ _).
  - apply (wf_nodup []). apply wf_subscribe, wf_subscribe.
    by apply (wf_init (config_cap 5) None ∅ FS.empty).
  - apply elem_of_app. right. by apply list_elem_of_singleton.
  - apply lookup_insert_eq.
  - reflexivity.
Defined.

End Registry.

(** ** More on the ring buffer *)

Section BufferEdges.

(** A negative limit is not rejected by [get_recent]: the slice
    [[-limit:]] then starts [-limit] entries from the front, so the
    oldest [-limit] entries are left out and all the others returned. *)
Theorem get_recent_negative_limit_skips_oldest limit w :
  limit < 0 →
  get_recent limit w = to_dict <$> drop (Z.to_nat (- limit)) (buffered w).
Proof.
  intros Hl. unfold get_recent, Py.slice_from. fold (buffered w).
  destruct (Z.ltb_spec (- limit) 0); [lia|]. f_equal.
  destruct (decide (- limit ≤ Z.of_nat (length (buffered w)))) as [Hle|Hgt].
  - by rewrite Z.min_l.
  - rewrite Z.min_r, Nat2Z.id by lia. rewrite !drop_ge; [done|lia..].
Qed.

Lemma get_recent_negative_limit_skips_oldest_witness :
  get_recent (-1) (add_entries [(t_9mar, "a"); (t_9mar, "b"); (t_10mar, "c")]
                     (fresh_world (config_cap 5))).2
  = to_dict <$> [entry_of (t_9mar, "b"); entry_of (t_10mar, "c")].
Proof.
  apply (get_recent_negative_limit_skips_oldest (-1)). lia.
Defined.

(** After [clear_buffer] the buffer restarts from nothing: what
    [add_entry] then collects is the tail of the new entries alone, and
    the capacity is the one fixed at construction. *)
Theorem clear_buffer_then_refill calls w :
  bounded (_buffer (storage w)) →
  let w' := (add_entries calls (clear_buffer w)).2 in
  buffered w' = last_n (Z.to_nat (capacity w)) (entry_of <$> calls)
  ∧ capacity w' = capacity w
  ∧ get_recent (capacity w) w' = to_dict <$> last_n (Z.to_nat (capacity w)) (entry_of <$> calls).
Proof.
  intros Hb w'.
  assert (Hbc : bounded (_buffer (storage (clear_buffer w)))).
  { destruct Hb as [Hc _]. split; [done|]. cbn. lia. }
  destruct (add_entries_buffer calls (clear_buffer w) Hbc) as (Hb' & Hc' & Hi').
  fold w' in Hb', Hc', Hi'.
  change (capacity (clear_buffer w)) with (capacity w) in *.
  change (buffered (clear_buffer w)) with (@nil LogEntry) in Hi'.
  split; [done|]. split; [done|].
  rewrite <- Hc', get_recent_capacity by done. by rewrite Hi', Hc'.
Qed.

Lemma clear_buffer_then_refill_witness :
  buffered (add_entries [(t_10mar, "c")]
              (clear_buffer (add_entries [(t_9mar, "a"); (t_9mar, "b")]
                               (fresh_world (config_cap 2))).2)).2
  = last_n (Z.to_nat 2) (entry_of <$> [(t_10mar, "c")]).
Proof.
  refine (proj1 (clear_buffer_then_refill [(t_10mar, "c")]
            (add_entries [(t_9mar, "a"); (t_9mar, "b")] (fresh_world (config_cap 2))).2 _)).
  split; by vm_compute.
Defined.

(** A storage built with [max_memory_logs = 0] keeps nothing: whatever
    is added, the buffer is empty and [get_recent] returns no entry for
    any limit. The entries still reach the subscribers and the file. *)
Theorem zero_capacity_buffer_keeps_nothing config tg qs fs0 w0 calls limit :
  LogStorage_init config tg qs fs0 = Some w0 →
  max_memory_logs config = 0 →
  buffered (add_entries calls w0).2 = []
  ∧ get_recent limit (add_entries calls w0).2 = [].
Proof.
  intros Hinit Hzero.
  destruct (LogStorage_init_buffer _ _ _ _ _ Hinit) as (Hb0 & Hc0 & Hi0).
  destruct (add_entries_buffer calls w0 Hb0) as (_ & _ & Hi).
  rewrite Hc0, Hzero in Hi.
  assert (Hnil : buffered (add_entries calls w0).2 = []).
  { rewrite Hi. unfold last_n. apply drop_ge. simpl. lia. }
  split; [done|]. unfold get_recent. fold (buffered (add_entries calls w0).2).
  rewrite Hnil. unfold Py.slice_from. by rewrite drop_nil.
Qed.

Lemma zero_capacity_buffer_keeps_nothing_witness :
  get_recent 10 (add_entries [(t_9mar, "a"); (t_9mar, "b")] (fresh_world (config_cap 0))).2 = [].
Proof.
  refine (proj2 (zero_capacity_buffer_keeps_nothing (config_cap 0) None ∅ FS.empty
                   (fresh_world (config_cap 0)) [(t_9mar, "a"); (t_9mar, "b")] 10 _ _));
    reflexivity.
Defined.

Lemma push_or_drop_bounded {A} (x : A) q :
  (0 < Py.maxsize q → Z.of_nat (length (Py.queued q)) ≤ Py.maxsize q) →
  0 < Py.maxsize (push_or_drop x q) →
  Z.of_nat (length (Py.queued (push_or_drop x q))) ≤ Py.maxsize (push_or_drop x q).
Proof.
  rewrite push_or_drop_maxsize, push_or_drop_queued. intros Hb Hpos.
  unfold Py.full. destruct (Z.leb_spec (Py.maxsize q) 0); [lia|].
  destruct (Z.leb_spec (Py.maxsize q) (Z.of_nat (length (Py.queued q)))); [by apply Hb|].
  rewrite length_app. simpl. lia.
Qed.

Lemma notify_one_bounded e qs i : queues_bounded qs → queues_bounded (notify_one e qs i).
Proof.
  intros Hb j q'. rewrite notify_one_lookup. case_decide as Hij; [|apply Hb].
  destruct (qs !! j) as [q|] eqn:Hq; [|done].
  intros [= <-]. apply push_or_drop_bounded. by apply (Hb j).
Qed.

Lemma notify_loop_bounded e l qs :
  queues_bounded qs → queues_bounded (foldl (notify_one e) qs l).
Proof.
  revert qs. induction l as [|i l IH]; intros qs Hb; [done|].
  cbn [foldl]. by apply IH, notify_one_bounded.
Qed.

Lemma queues_bounded_run_op o w : queues_bounded (queues w) → queues_bounded (queues (run_op o w)).
Proof.
  intros Hb. destruct o as [now msg|n|qid|qid| | |now]; cbn [run_op].
  - rewrite add_entry_queues. by apply notify_loop_bounded.
  - cbn. intros j q. destruct (decide (fresh (dom (queues w)) = j)) as [<-|Hne].
    + rewrite lookup_insert_eq. intros [= <-]. cbn. lia.
    + rewrite lookup_insert_ne by done. apply Hb.
  - unfold unsubscribe. by case_decide.
  - cbn. destruct (queues w !! qid) as [q|] eqn:Hq; [|done].
    unfold Py.get_nowait. destruct (Py.queued q) as [|x l] eqn:Hl; [done|].
    intros j q'. destruct (decide (qid = j)) as [<-|Hne].
    + rewrite lookup_insert_eq. intros [= <-]. cbn. intros Hpos.
      specialize (Hb qid q Hq Hpos). rewrite Hl in Hb. cbn [length] in Hb. lia.
    + rewrite lookup_insert_ne by done. apply Hb.
  - done.
  - unfold close. by destruct (_file_handle (storage w)).
  - by destruct (cleanup_files_frame now w) as (_ & -> & _).
Qed.

Lemma queues_bounded_run_ops ops w :
  queues_bounded (queues w) → queues_bounded (queues (run_ops ops w)).
Proof.
  revert w. induction ops as [|o ops IH]; intros w Hb; [done|].
  cbn [run_ops foldl flip]. by apply IH, queues_bounded_run_op.
Qed.

Lemma capacity_run_op o w : capacity (run_op o w) = capacity w.
Proof.
  destruct o as [now msg|n|qid|qid| | |now]; cbn [run_op]; try done.
  - unfold capacity. by rewrite add_entry_buffer.
  - unfold unsubscribe. by case_decide.
  - unfold close. by destruct (_file_handle (storage w)).
  - unfold capacity. by destruct (cleanup_files_frame now w) as (-> & _).
Qed.

Lemma capacity_run_ops ops w : capacity (run_ops ops w) = capacity w.
Proof.
  revert w. induction ops as [|o ops IH]; intros w; [done|].
  cbn [run_ops foldl flip]. unfold run_ops in IH. by rewrite IH, capacity_run_op.
Qed.

(** Memory stays bounded in every state the process reaches, whatever
    the operations and their order: the ring buffer holds at most
    [max_memory_logs] entries, every subscriber queue with a positive
    [maxsize] holds at most that many, and no queue is registered
    twice. *)
Theorem memory_is_bounded_in_every_state config tg fs0 w0 ops :
  LogStorage_init config tg ∅ fs0 = Some w0 →
  let w := run_ops ops w0 in
  Z.of_nat (length (buffered w)) ≤ max_memory_logs config
  ∧ queues_bounded (queues w)
  ∧ NoDup (_listeners (storage w)).
Proof.
  intros Hinit w.
  assert (Hwf : wf (FS.handles fs0) w) by (apply wf_run_ops; by eapply wf_init).
  destruct (LogStorage_init_buffer _ _ _ _ _ Hinit) as (_ & Hcap & _).
  split; [|split].
  - destruct Hwf as [[_ Hl] _ _ _ _]. rewrite <- Hcap.
    unfold w in *. rewrite <- (capacity_run_ops ops w0). done.
  - apply queues_bounded_run_ops.
    unfold LogStorage_init in Hinit.
    destruct (Py.deque_new _); [|done]. injection Hinit as <-. by intros j q.
  - apply Hwf.
Qed.

Lemma memory_is_bounded_in_every_state_witness :
  Z.of_nat (length (buffered (run_ops [OpSubscribe 1; OpAddEntry t_9mar "a";
                                       OpAddEntry t_9mar "b"; OpClearBuffer;
                                       OpAddEntry t_10mar "c"]
                               (fresh_world (config_cap 1)))))
  ≤ max_memory_logs (config_cap 1).
Proof.
  refine (proj1 (memory_is_bounded_in_every_state (config_cap 1) None FS.empty
                   (fresh_world (config_cap 1)) _ _)).
  reflexivity.
Defined.

End BufferEdges.

(** ** What the writer leaves in the files *)

Section WrittenFiles.

Lemma _write_to_file_log_dir e w :
  _log_dir (storage (_write_to_file e w)) = _log_dir (storage w).
Proof.
  unfold _write_to_file. case_decide.
  - destruct (_rotate_log_file_handle
                (_get_log_file_path (storage w) (timestamp e)) w) as (Hh & _ & Hd).
    by rewrite Hh.
  - by destruct (_file_handle (storage w)).
Qed.

(** One [add_entry] with persistence on, between rotations or across
    one: the line is appended to the file of the entry's day, which is
    the file open afterwards. *)
Lemma add_entry_in_step others now msg w :
  write_to_file (_config (storage w)) = true →
  writer_in_step others w →
  let target := (_log_dir (storage w), strftime_log now) in
  let w' := (add_entry now msg w).2 in
  writer_in_step others w'
  ∧ _log_dir (storage w') = _log_dir (storage w)
  ∧ _file_handle (storage w') = Some target
  ∧ FS.files (fs w') = appended target (file_line (entry_of (now, msg))) (FS.files (fs w)).
Proof.
  intros Hflag [Hh Hm] target w'.
  pose proof (add_entry_writer_state now msg w) as Hws. rewrite Hflag in Hws.
  fold w' in Hws. unfold writer_state in Hws.
  set (e := entry_of (now, msg)) in *.
  assert (Hd' : _log_dir (storage w') = _log_dir (storage w)).
  { replace (_log_dir (storage w')) with (_log_dir (storage (_write_to_file e w)))
      by congruence. apply _write_to_file_log_dir. }
  assert (Hm' : _current_log_file (storage w')
                = _current_log_file (storage (_write_to_file e w))) by congruence.
  assert (Hh' : _file_handle (storage w')
                = _file_handle (storage (_write_to_file e w))) by congruence.
  assert (Hfs' : fs w' = fs (_write_to_file e w)) by congruence.
  assert (Hmk : ∀ p, _file_handle (storage w) = Some p → _current_log_file (storage w) = Some p)
    by (intros p Hp; by rewrite Hm).
  destruct (_write_to_file_step others e w Hh Hmk) as ([Hhs _] & Hsame & Hrot).
  change (_get_log_file_path (storage w) (timestamp e)) with target in Hsame, Hrot.
  assert (Hres : _current_log_file (storage (_write_to_file e w)) = Some target
                 ∧ _file_handle (storage (_write_to_file e w)) = Some target
                 ∧ FS.files (fs (_write_to_file e w))
                   = appended target (file_line e) (FS.files (fs w))).
  { destruct (decide (_current_log_file (storage w) = Some target)) as [Heq|Hne].
    - rewrite Hm in Heq. destruct (Hsame Heq) as (? & ? & _ & ?). done.
    - destruct (Hrot Hne) as (? & ? & _ & ?). done. }
  destruct Hres as (Hr1 & Hr2 & Hr3).
  split; [|split; [done|split]].
  - split; [by rewrite Hfs', Hh'|congruence].
  - congruence.
  - by rewrite Hfs'.
Qed.

Lemma written_to_untargeted dir p es : targeted dir p es = false → written_to dir p es = "".
Proof.
  induction es as [|e es IH]; [done|]. cbn [targeted existsb written_to].
  intros [He Hes]%orb_false_iff. apply bool_decide_eq_false in He.
  by rewrite decide_False, IH.
Qed.

Lemma add_entries_files others calls w p :
  write_to_file (_config (storage w)) = true →
  writer_in_step others w →
  writer_in_step others (add_entries calls w).2
  ∧ FS.files (fs (add_entries calls w).2) !! p
    = if targeted (_log_dir (storage w)) p (entry_of <$> calls)
      then Some (default "" (FS.files (fs w) !! p)
                 +:+ written_to (_log_dir (storage w)) p (entry_of <$> calls))
      else FS.files (fs w) !! p.
Proof.
  revert w. induction calls as [|[now msg] calls IH]; intros w Hflag Hstep; [done|].
  destruct (add_entry_in_step others now msg w Hflag Hstep) as (Hstep1 & Hd1 & _ & Hf1).
  assert (Hflag1 : write_to_file (_config (storage (add_entry now msg w).2)) = true)
    by (by rewrite add_entry_config).
  destruct (IH _ Hflag1 Hstep1) as [Hstep' Hfiles'].
  rewrite add_entries_cons. split; [done|].
  rewrite Hfiles', Hd1, Hf1. unfold appended.
  cbn [fmap list_fmap targeted existsb written_to].
  change (timestamp (entry_of (now, msg))) with now.
  set (dir := _log_dir (storage w)).
  fold (targeted dir p (entry_of <$> calls)).
  destruct (decide ((dir, strftime_log now) = p)) as [<-|Hne].
  - rewrite bool_decide_eq_true_2 by done. rewrite lookup_insert_eq.
    cbn [orb from_option id].
    destruct (targeted dir (dir, strftime_log now) (entry_of <$> calls)) eqn:Ht.
    + by rewrite append_assoc.
    + by rewrite written_to_untargeted, append_nil_r.
  - rewrite bool_decide_eq_false_2 by done. rewrite lookup_insert_ne by done.
    cbn [orb]. by rewrite append_nil_l.
Qed.



Lemma init_in_step config tg qs fs0 w0 :
  LogStorage_init config tg qs fs0 = Some w0 →
  writer_in_step (FS.handles fs0) w0
  ∧ _config (storage w0) = config
  ∧ _log_dir (storage w0) = log_dir config
  ∧ FS.files (fs w0) = FS.files fs0.
Proof.
  unfold LogStorage_init. destruct (Py.deque_new _); [|done].
  intros [= <-]. by repeat split.
Qed.



Lemma persistence_off_run_op o w :
  write_to_file (_config (storage w)) = false →
  _file_handle (storage w) = None →
  write_to_file (_config (storage (run_op o w))) = false
  ∧ _file_handle (storage (run_op o w)) = None
  ∧ fs (run_op o w) = fs w.
Proof.
  intros Hflag Hh. destruct o as [now msg|n|qid|qid| | |now]; cbn [run_op]; try done.
  - pose proof (add_entry_writer_state now msg w) as Hws. rewrite Hflag in Hws.
    unfold writer_state in Hws. rewrite add_entry_config.
    split; [done|]. split; congruence.
  - unfold unsubscribe. by case_decide.
  - unfold close. by rewrite Hh.
  - unfold cleanup_files. by rewrite Hflag.
Qed.

(** With [write_to_file] off the engine never touches the file system
    after it is built: whatever operations run (entries added, sweeps,
    [close]), in whatever order, every file and directory is as
    construction left it, and no handle is ever opened. *)
Theorem persistence_off_never_touches_files config tg qs fs0 w0 ops :
  LogStorage_init config tg qs fs0 = Some w0 →
  write_to_file config = false →
  fs (run_ops ops w0) = FS.mkdir (log_dir config) fs0
  ∧ _file_handle (storage (run_ops ops w0)) = None.
Proof.
  intros Hinit Hflag.
  assert (H0 : write_to_file (_config (storage w0)) = false
               ∧ _file_handle (storage w0) = None
               ∧ fs w0 = FS.mkdir (log_dir config) fs0).
  { unfold LogStorage_init in Hinit. destruct (Py.deque_new _); [|done].
    by injection Hinit as <-. }
  clear Hinit. revert w0 H0.
  induction ops as [|o ops IH]; intros w0 (Hf & Hh & Hfs); [done|].
  cbn [run_ops foldl flip]. apply IH.
  destruct (persistence_off_run_op o w0 Hf Hh) as (? & ? & ->). done.
Qed.

Lemma persistence_off_never_touches_files_witness :
  fs (run_ops [OpAddEntry t_9mar "a"; OpCleanupFiles t_10mar; OpClose; OpAddEntry t_10mar "b"]
        (fresh_world config_no_files))
  = FS.mkdir "./logs" FS.empty.
Proof.
  refine (proj1 (persistence_off_never_touches_files config_no_files None ∅ FS.empty
                   (fresh_world config_no_files) _ _ _)); reflexivity.
Defined.

(** [close] releases the writer's handle and nothing else: afterwards
    the only handles open are those of the rest of the process, every
    file has the contents it had, the buffer and the queues are
    untouched, and a second [close] changes nothing. *)
Theorem close_releases_the_handle others w :
  wf others w →
  _file_handle (storage (close w)) = None
  ∧ FS.handles (fs (close w)) = others
  ∧ FS.files (fs (close w)) = FS.files (fs w)
  ∧ buffered (close w) = buffered w
  ∧ queues (close w) = queues w
  ∧ close (close w) = close w.
Proof.
  intros [_ _ _ Hh _].
  assert (Hnone : _file_handle (storage (close w)) = None).
  { unfold close. by destruct (_file_handle (storage w)) eqn:Hfh. }
  assert (Hidem : close (close w) = close w).
  { unfold close at 1. by rewrite Hnone. }
  split; [done|]. split; [|split; [|split; [|split; [|done]]]].
  - unfold close. destruct (_file_handle (storage w)) as [h|] eqn:Hfh.
    + cbn. rewrite Hh. apply remove_first_head.
    + by rewrite Hh.
  - unfold close. by destruct (_file_handle (storage w)).
  - unfold close. by destruct (_file_handle (storage w)).
  - unfold close. by destruct (_file_handle (storage w)).
Qed.

Lemma close_releases_the_handle_witness :
  FS.handles (fs (close (add_entry t_9mar "a" (fresh_world (config_cap 5))).2)) = [].
Proof.
  refine (proj1 (proj2 (close_releases_the_handle []
                          (add_entry t_9mar "a" (fresh_world (config_cap 5))).2 _))).
  apply wf_add_entry. by apply (wf_init (config_cap 5) None ∅ FS.empty).
Defined.

End WrittenFiles.

(** ** More on the retention sweep *)

Section SweepAgain.

Lemma world_eq a b :
  storage a = storage b → queues a = queues b →
  FS.dirs (fs a) = FS.dirs (fs b) → FS.files (fs a) = FS.files (fs b) →
  FS.handles (fs a) = FS.handles (fs b) → a = b.
Proof.
  destruct a as [sa qa [da fa ha]], b as [sb qb [db fb hb]]. cbn.
  by intros -> -> -> -> ->.
Qed.

Lemma cleanup_files_lookup now w p :
  FS.files (fs (cleanup_files now w)) !! p = FS.files (fs w) !! p
  ∨ FS.files (fs (cleanup_files now w)) !! p = None.
Proof.
  destruct (write_to_file (_config (storage w))) eqn:Hflag.
  - destruct (decide (0 < keep_days (_config (storage w)))) as [Hk|Hk].
    + rewrite cleanup_files_swept by done. destruct (swept _ _ _); auto.
    + left. unfold cleanup_files. rewrite Hflag. cbn [negb].
      by destruct (Z.leb_spec (keep_days (_config (storage w))) 0); [|lia].
  - left. unfold cleanup_files. by rewrite Hflag.
Qed.

(** Sweeping twice at the same instant is sweeping once: the second
    sweep finds nothing left to remove. *)
Theorem sweep_is_idempotent now w :
  cleanup_files now (cleanup_files now w) = cleanup_files now w.
Proof.
  destruct (cleanup_files_frame now w) as (Hs & Hq & Hd & Hh).
  destruct (cleanup_files_frame now (cleanup_files now w)) as (Hs2 & Hq2 & Hd2 & Hh2).
  apply world_eq; [done..| |done].
  apply map_eq. intros p.
  destruct (write_to_file (_config (storage w))) eqn:Hflag.
  - destruct (decide (0 < keep_days (_config (storage w)))) as [Hk|Hk].
    + rewrite cleanup_files_swept by (by rewrite Hs).
      rewrite Hs, cleanup_files_swept by done. by destruct (swept _ _ _).
    + assert (Hid : cleanup_files now w = w).
      { unfold cleanup_files. rewrite Hflag. cbn [negb].
        by destruct (Z.leb_spec (keep_days (_config (storage w))) 0); [|lia]. }
      by rewrite !Hid.
  - assert (Hid : cleanup_files now w = w).
    { unfold cleanup_files. by rewrite Hflag. }
    by rewrite !Hid.
Qed.

(** A sweep only removes files: every file that is there afterwards was
    there before with the same contents, and the storage, the queues,
    the directories and the open handles are untouched. *)
Theorem sweep_only_removes now w :
  FS.files (fs (cleanup_files now w)) ⊆ FS.files (fs w)
  ∧ storage (cleanup_files now w) = storage w
  ∧ queues (cleanup_files now w) = queues w
  ∧ FS.dirs (fs (cleanup_files now w)) = FS.dirs (fs w)
  ∧ FS.handles (fs (cleanup_files now w)) = FS.handles (fs w).
Proof.
  split; [|apply cleanup_files_frame].
  apply map_subseteq_spec. intros p c Hc.
  destruct (cleanup_files_lookup now w p) as [Heq|Heq]; congruence.
Qed.

(** The sweeper recognises the writer's files of the years 1000 and
    later, where [strftime] prints the year on four digits: the file the
    writer names for such a day parses back to that day, so with
    persistence on and [keep_days > 0] a sweep removes it exactly when
    that day is more than [keep_days] days before today. In particular
    today's file, the one being written, is never swept. *)
Theorem day_file_is_swept_once_expired now t w :
  write_to_file (_config (storage w)) = true →
  0 < keep_days (_config (storage w)) →
  valid_date (dt_date t) = true →
  1000 ≤ year (dt_date t) →
  let p := _get_log_file_path (storage w) t in
  strptime_date (FS.stem p) = Some (dt_date t)
  ∧ FS.files (fs (cleanup_files now w)) !! p
    = if toordinal (dt_date t) <? toordinal (dt_date now) - keep_days (_config (storage w))
      then None else FS.files (fs w) !! p.
Proof.
  intros Hflag Hk Hv Hy p. split.
  - by apply log_name_parses.
  - rewrite cleanup_files_swept by done. unfold p. by rewrite swept_log_name.
Qed.

Lemma day_file_is_swept_once_expired_witness :
  FS.files (fs (cleanup_files t_10mar
                  (add_entry t_10mar "a" (world_over (config_cap 5) ["2024-03-05.log"])).2))
    !! ("./logs", strftime_log t_10mar)
  = FS.files (fs (add_entry t_10mar "a" (world_over (config_cap 5) ["2024-03-05.log"])).2)
    !! ("./logs", strftime_log t_10mar).
Proof.
  refine (proj2 (day_file_is_swept_once_expired t_10mar t_10mar
                   (add_entry t_10mar "a" (world_over (config_cap 5) ["2024-03-05.log"])).2
                   _ _ _ _)); by vm_compute.
Defined.

Lemma cleanup_worker_loop ticks w p :
  write_to_file (_config (storage w)) = true →
  0 < keep_days (_config (storage w)) →
  storage (foldl (λ w now, cleanup_files now w) w ticks) = storage w
  ∧ queues (foldl (λ w now, cleanup_files now w) w ticks) = queues w
  ∧ FS.handles (fs (foldl (λ w now, cleanup_files now w) w ticks)) = FS.handles (fs w)
  ∧ FS.files (fs (foldl (λ w now, cleanup_files now w) w ticks)) !! p
    = if existsb (λ now, swept (_log_dir (storage w))
                           (toordinal (dt_date now) - keep_days (_config (storage w))) p)
                 ticks
      then None else FS.files (fs w) !! p.
Proof.
  revert w. induction ticks as [|now ticks IH]; intros w Hflag Hk; [done|].
  cbn [foldl existsb].
  destruct (cleanup_files_frame now w) as (Hs & Hq & _ & Hh).
  destruct (IH (cleanup_files now w)) as (IHs & IHq & IHh & IHf); [by rewrite Hs..|].
  rewrite IHs, IHq, IHh, IHf, Hs, Hq, Hh.
  split; [done|]. split; [done|]. split; [done|].
  rewrite cleanup_files_swept by done.
  destruct (swept _ (toordinal (dt_date now) - _) p); [|done].
  rewrite orb_true_l. clear. by destruct (existsb _ ticks).
Qed.

(** The background worker with persistence on: after its wake-ups a
    file is gone exactly if one of the sweeps found it expired, every
    other file is as it was, and the storage and the queues are never
    touched; with [keep_days <= 0] the worker does nothing at all. *)
Theorem cleanup_worker_removes_what_expires ticks w p :
  write_to_file (_config (storage w)) = true →
  let keep := keep_days (_config (storage w)) in
  let w' := _cleanup_worker keep ticks w in
  storage w' = storage w
  ∧ queues w' = queues w
  ∧ (keep ≤ 0 → w' = w)
  ∧ (0 < keep →
     FS.files (fs w') !! p
     = if existsb (λ now, swept (_log_dir (storage w)) (toordinal (dt_date now) - keep) p) ticks
       then None else FS.files (fs w) !! p).
Proof.
  intros Hflag keep w'. unfold w', _cleanup_worker.
  destruct (Z.leb_spec keep 0) as [Hk|Hk].
  - repeat split; try done. lia.
  - destruct (cleanup_worker_loop ticks w p Hflag Hk) as (Hs & Hq & _ & Hf).
    repeat split; try done. lia.
Qed.

Lemma cleanup_worker_removes_what_expires_witness :
  FS.files (fs (_cleanup_worker 3 [t_9mar; t_10mar]
                  (world_over (config_cap 5) ["2024-03-06.log"; "2024-03-08.log"])))
    !! ("./logs", "2024-03-06.log")
  = None.
Proof.
  refine (proj2 (proj2 (proj2 (cleanup_worker_removes_what_expires [t_9mar; t_10mar]
            (world_over (config_cap 5) ["2024-03-06.log"; "2024-03-08.log"])
            ("./logs", "2024-03-06.log") _))) _).
  - reflexivity.
  - by vm_compute.
Defined.

End SweepAgain.

(** ** The shape of a printed timestamp *)

Section StampShape.

Lemma length_zfill w n : String.length (zfill w n) = w.
Proof. induction w as [|w IH]; [done|]. rewrite zfill_S. cbn. by rewrite IH. Qed.

Lemma last_char_append_Z s : last_char (s +:+ "Z") = Some "Z"%char.
Proof.
  induction s as [|c s IH]; [done|]. rewrite append_cons.
  destruct s as [|d s]; [done|]. rewrite append_cons in *. exact IH.
Qed.

(** The timestamp of a serialized entry, and of a line in a file, ends
    in [Z] and has one of two shapes: twenty characters without a
    fraction when the microsecond field is zero, twenty-seven with a
    fraction of six digits otherwise. A reader must accept both. *)
Theorem timestamp_text_has_two_shapes t :
  last_char (utc_stamp t) = Some "Z"%char
  ∧ Py.mem_char "."%char (utc_stamp t) = negb (microsecond t =? 0)
  ∧ String.length (utc_stamp t) = if microsecond t =? 0 then 20%nat else 27%nat.
Proof.
  rewrite utc_stamp_shape. split; [apply last_char_append_Z|].
  unfold format_date, format_time. split.
  - rewrite !mem_char_append, !mem_char_zfill by done.
    destruct (microsecond t =? 0); [done|].
    rewrite !mem_char_append. cbn [Py.mem_char]. done.
  - rewrite !length_append, !length_zfill.
    destruct (microsecond t =? 0); [done|].
    rewrite !length_append, !length_zfill. done.
Qed.

End StampShape.

(** ** More on the datagram listener *)

Section ListenerAgain.

(** The allow-list: with a non-empty [udp_whitelist], a datagram from a
    host that is not on it spawns no task, whatever it carries; a
    datagram from a listed host is handled as if there were no list. *)
Theorem allow_list_filters_by_sender config data addr :
  udp_whitelist config ≠ [] →
  (addr.1 ∉ udp_whitelist config → datagram_received config data addr = [])
  ∧ (addr.1 ∈ udp_whitelist config →
     ∀ config' addr', udp_whitelist config' = [] →
       datagram_received config data addr = datagram_received config' data addr').
Proof.
  intros Hne. unfold datagram_received. rewrite (bool_decide_eq_false_2 _ Hne).
  split.
  - intros Hout. by rewrite bool_decide_eq_false_2.
  - intros Hin config' addr' Hnone. rewrite bool_decide_eq_true_2 by done.
    by rewrite Hnone.
Qed.

Lemma allow_list_filters_by_sender_witness :
  datagram_received
    {| udp_port := 5140; web_port := 8080; max_memory_logs := 10; log_dir := "./logs";
       keep_days := 3; allowed_origins := ["*"]; write_to_file := true;
       udp_whitelist := ["10.0.0.1"]; websocket_token := None |}
    payload_abc ("10.0.0.2", 514)
  = [].
Proof.
  refine (proj1 (allow_list_filters_by_sender _ payload_abc ("10.0.0.2", 514) _) _).
  - done.
  - cbn. by intros ?%list_elem_of_singleton.
Defined.

Lemma break_at_app b s : break_at b = true → break_at (b +:+ s) = true.
Proof.
  destruct b as [|c [|c2 [|c3 b]]]; [done|..]; rewrite ?append_cons, ?append_nil_l;
    cbn [break_at]; destruct (Py.is_ascii_linebreak c); try done; cbn [orb].
  - destruct (Ascii.eqb c "194"%char && Ascii.eqb c2 "133"%char); [done|].
    by cbn [orb].
Qed.

Lemma clean_nil cur : clean cur "" = no_boundary cur.
Proof.
  induction cur as [|c cur IH]; [done|]. cbn [clean no_boundary].
  by rewrite append_nil_r, IH.
Qed.

Lemma clean_no_boundary cur s : clean cur s = true → no_boundary cur = true.
Proof.
  induction cur as [|c cur IH]; [done|]. cbn [clean no_boundary].
  intros [Hb Hc]%andb_true_iff. rewrite IH by done.
  destruct (break_at (String c cur)) eqn:Hat; [|done].
  by rewrite (break_at_app _ s Hat) in Hb.
Qed.

Lemma clean_snoc cur c s :
  clean cur (String c s) = true → break_at (String c s) = false →
  clean (Py.snoc cur c) s = true.
Proof.
  intros Hcur Hc. unfold Py.snoc. induction cur as [|d cur IH].
  - rewrite append_nil_l. cbn [clean]. rewrite append_cons, append_nil_l.
    by rewrite Hc.
  - rewrite append_cons. cbn [clean] in *.
    apply andb_true_iff in Hcur as [Hd Hcur]. rewrite IH by done.
    rewrite <- (append_cons d cur), append_assoc.
    change (String c "" +:+ s) with (String c s). by rewrite Hd.
Qed.

Lemma no_boundary_breakless s : no_boundary s = true → breakless s = true.
Proof.
  induction s as [|c s IH]; [done|]. cbn [no_boundary breakless break_at].
  intros [Hb Hs]%andb_true_iff. rewrite IH by done.
  by destruct (Py.is_ascii_linebreak c).
Qed.

(** Every line [splitlines] gives is free of line boundaries, the three
    beyond ASCII included. *)
Lemma splitlines_go_no_boundary n : ∀ s cur,
  (String.length s ≤ n)%nat → clean cur s = true →
  Forall (λ l, no_boundary l = true) (Py.splitlines_go cur s).
Proof.
  induction n as [|n IH]; intros s cur Hlen Hcur.
  - destruct s; [|cbn in Hlen; lia]. cbn.
    rewrite clean_nil in Hcur. destruct (Py.is_empty cur); by repeat constructor.
  - destruct s as [|c s1].
    { cbn. rewrite clean_nil in Hcur. destruct (Py.is_empty cur); by repeat constructor. }
    pose proof (clean_no_boundary _ _ Hcur) as Hline.
    cbn [String.length] in Hlen. cbn [Py.splitlines_go].
    destruct (Ascii.eqb c Py.CR).
    { destruct s1 as [|c2 s2].
      - constructor; [done|]. apply IH; [cbn; lia|done].
      - destruct (Ascii.eqb c2 Py.LF); (constructor; [done|]);
          apply IH; cbn [String.length] in *; (lia || done). }
    destruct (Py.is_ascii_linebreak c) eqn:Hc.
    { constructor; [done|]. apply IH; [lia|done]. }
    assert (Hgo : break_at (String c s1) = false →
                  Forall (λ l, no_boundary l = true)
                         (Py.splitlines_go (Py.snoc cur c) s1)).
    { intros Hat. apply IH; [lia|]. by apply clean_snoc. }
    cbn [break_at] in Hgo. rewrite Hc in Hgo. cbn [orb] in Hgo.
    destruct (Ascii.eqb c "194"%char) eqn:H194.
    { apply Ascii.eqb_eq in H194 as ->.
      destruct s1 as [|c2 s2]; [by apply Hgo|].
      destruct (Ascii.eqb c2 "133"%char).
      - constructor; [done|]. apply IH; cbn [String.length] in *; (lia || done).
      - apply Hgo. by destruct s2. }
    cbn [andb orb] in Hgo.
    destruct (Ascii.eqb c "226"%char).
    { destruct s1 as [|c2 [|c3 s3]]; try (by apply Hgo).
      destruct (_ && _).
      - constructor; [done|]. apply IH; cbn [String.length] in *; (lia || done).
      - by apply Hgo. }
    apply Hgo. by destruct s1 as [|c2 [|c3 s3]].
Qed.

Lemma snoc_not_empty cur c : Py.snoc cur c ≠ "".
Proof. unfold Py.snoc. by destruct cur. Qed.

(** [splitlines] gives no line only for the empty text. *)
Lemma splitlines_go_nil n : ∀ s cur,
  (String.length s ≤ n)%nat → Py.splitlines_go cur s = [] → cur = "" ∧ s = "".
Proof.
  induction n as [|n IH]; intros s cur Hlen.
  - destruct s; [|cbn in Hlen; lia]. cbn. by destruct cur.
  - destruct s as [|c s1]; [cbn; by destruct cur|].
    cbn [String.length] in Hlen. cbn [Py.splitlines_go].
    assert (Hrec : ∀ s', (String.length s' ≤ n)%nat →
                     Py.splitlines_go (Py.snoc cur c) s' = [] → cur = "" ∧ String c s1 = "").
    { intros s' Hs' H. apply IH in H as [H _]; [|done]. by apply snoc_not_empty in H. }
    destruct (Ascii.eqb c Py.CR).
    { destruct s1 as [|c2 s2]; [done|]. by destruct (Ascii.eqb c2 Py.LF). }
    destruct (Py.is_ascii_linebreak c); [done|].
    destruct (Ascii.eqb c "194"%char).
    { destruct s1 as [|c2 s2]; [apply Hrec; cbn [String.length] in *; lia|].
      destruct (Ascii.eqb c2 "133"%char); [done|]. apply Hrec; cbn [String.length] in *; lia. }
    destruct (Ascii.eqb c "226"%char).
    { destruct s1 as [|c2 [|c3 s3]]; try (apply Hrec; cbn [String.length] in *; lia).
      destruct (_ && _); [done|]. apply Hrec; cbn [String.length] in *; lia. }
    apply Hrec; cbn [String.length] in *; lia.
Qed.

Lemma rstrip_breakless s : breakless s = true → Py.rstrip Py.nl s = s.
Proof.
  induction s as [|c s IH]; [done|]. cbn [breakless Py.rstrip].
  intros [Hc Hs]%andb_true_iff. rewrite IH by done.
  destruct s as [|d s]; [|done].
  rewrite mem_char_nl. destruct (Ascii.eqb_spec c Py.LF) as [->|]; [done|done].
Qed.

(** Whatever the datagram and its sender, each line handed to
    [add_entry] is not empty and holds no line boundary, neither one of
    the seven of ASCII nor U+0085, U+2028 or U+2029, so the entry made of
    it carries the line itself as its message: nothing is left for
    [add_entry] to strip. *)
Theorem handed_off_lines_are_clean config data addr line :
  line ∈ datagram_received config data addr →
  line ≠ ""
  ∧ no_boundary line = true
  ∧ breakless line = true
  ∧ ∀ now w, message (add_entry now line w).1 = line.
Proof.
  unfold datagram_received. destruct (_ && _); [by intros ?%elem_of_nil|].
  rewrite list_elem_of_In, filter_In, <- list_elem_of_In. intros [Hin Hne].
  assert (Hline : line ≠ "") by (by destruct line).
  assert (Hclean : no_boundary line = true).
  { set (text := Py.decode_utf8_replace data) in *.
    pose proof (splitlines_go_no_boundary (String.length text) text ""
                  (Nat.le_refl _) eq_refl) as Hall.
    fold (Py.splitlines text) in Hall.
    destruct (Py.splitlines text) as [|l ls] eqn:Hsplit.
    - apply (splitlines_go_nil (String.length text)) in Hsplit as [_ Htext]; [|done].
      apply list_elem_of_singleton in Hin. congruence.
    - rewrite Forall_forall in Hall. by apply Hall. }
  pose proof (no_boundary_breakless _ Hclean) as Hless.
  split; [done|]. split; [done|]. split; [done|].
  intros now w. rewrite add_entry_entry. cbn. by apply rstrip_breakless.
Qed.

Lemma handed_off_lines_are_clean_witness :
  message (add_entry t_9mar "b" (fresh_world (config_cap 5))).1 = "b".
Proof.
  refine (proj2 (proj2 (proj2 (handed_off_lines_are_clean default_config payload_abc
                          ("10.0.0.7", 514) "b" _))) t_9mar (fresh_world (config_cap 5))).
  change (datagram_received default_config payload_abc ("10.0.0.7", 514))
    with ["a"; "b"; "c"].
  apply list_elem_of_In. right. left. reflexivity.
Defined.

End ListenerAgain.

(** ** Datagrams of ASCII text *)

Section AsciiDatagrams.

Lemma to_N_byte_of_ascii c : Byte.to_N (byte_of_ascii c) = N_of_ascii c.
Proof. apply Byte.to_of_N. symmetry. apply byte_of_ascii_via_N. Qed.

(** ASCII bytes decode to the characters they are. *)
Lemma decode_go_ascii s : ∀ fuel,
  (String.length s ≤ fuel)%nat → ascii_only s = true →
  Py.decode_go fuel (map Byte.to_N (list_byte_of_string s)) = s.
Proof.
  induction s as [|c s IH]; intros fuel Hfuel Hs.
  - by destruct fuel.
  - cbn [String.length] in Hfuel. destruct fuel as [|fuel]; [lia|].
    cbn [ascii_only] in Hs. apply andb_true_iff in Hs as [Hc Hs].
    change (list_byte_of_string (String c s))
      with (byte_of_ascii c :: list_byte_of_string s).
    cbn [map Py.decode_go]. rewrite to_N_byte_of_ascii.
    unfold Py.decode_step. rewrite Hc.
    unfold Py.chars_of. cbn [map string_of_list_ascii].
    rewrite ascii_N_embedding, append_cons, append_nil_l, IH; [done|lia|done].
Qed.

Lemma decode_ascii s :
  ascii_only s = true → Py.decode_utf8_replace (list_byte_of_string s) = s.
Proof.
  intros Hs. unfold Py.decode_utf8_replace. apply decode_go_ascii; [|done].
  unfold list_byte_of_string. rewrite length_map.
  clear. induction s; cbn; lia.
Qed.

Lemma plain_char_step cur c s1 :
  plain_char c = true →
  Py.splitlines_go cur (String c s1) = Py.splitlines_go (Py.snoc cur c) s1.
Proof.
  unfold plain_char. intros [Hlt Hnb%negb_true_iff]%andb_true_iff.
  cbn [Py.splitlines_go]. rewrite Hnb.
  destruct (Ascii.eqb_spec c Py.CR) as [->|_]; [done|].
  destruct (Ascii.eqb_spec c "194"%char) as [->|_]; [done|].
  by destruct (Ascii.eqb_spec c "226"%char) as [->|_].
Qed.

Lemma plain_step cur l rest :
  plain l = true → Py.splitlines_go cur (l +:+ rest) = Py.splitlines_go (cur +:+ l) rest.
Proof.
  revert cur. induction l as [|c l IH]; intros cur Hl.
  - by rewrite append_nil_l, append_nil_r.
  - cbn [plain] in Hl. apply andb_true_iff in Hl as [Hc Hl].
    rewrite append_cons, plain_char_step, IH by done.
    unfold Py.snoc. by rewrite append_assoc.
Qed.

Lemma nonempty_lines_cons l ls :
  nonempty_lines (l :: ls)
  = (if negb (Py.is_empty l) then [l] else []) ++ nonempty_lines ls.
Proof. unfold nonempty_lines. cbn [List.filter]. by destruct (negb (Py.is_empty l)). Qed.

Lemma splitlines_join lines :
  Forall (λ l, plain l = true) lines →
  nonempty_lines (Py.splitlines (join_lf lines)) = nonempty_lines lines.
Proof.
  unfold Py.splitlines. induction 1 as [|l lines Hl Hall IH]; [done|].
  destruct lines as [|l2 lines].
  - cbn [join_lf]. rewrite <- (append_nil_r l) at 1.
    rewrite plain_step, append_nil_l by done.
    cbn [Py.splitlines_go nonempty_lines List.filter]. by destruct l.
  - change (join_lf (l :: l2 :: lines)) with (l +:+ String Py.LF (join_lf (l2 :: lines))).
    rewrite plain_step, append_nil_l by done.
    change (Py.splitlines_go l (String Py.LF (join_lf (l2 :: lines))))
      with (l :: Py.splitlines_go "" (join_lf (l2 :: lines))).
    by rewrite (nonempty_lines_cons l), (nonempty_lines_cons l (l2 :: lines)), IH.
Qed.

Lemma plain_ascii_only l : plain l = true → ascii_only l = true.
Proof.
  induction l as [|c l IH]; [done|]. cbn [plain ascii_only]. unfold plain_char.
  intros [[-> _]%andb_true_iff Hl]%andb_true_iff. by apply IH.
Qed.

Lemma ascii_only_append a b : ascii_only (a +:+ b) = ascii_only a && ascii_only b.
Proof.
  induction a as [|c a IH]; [done|]. rewrite append_cons. cbn [ascii_only].
  by rewrite IH, andb_assoc.
Qed.

Lemma join_lf_ascii_only lines :
  Forall (λ l, plain l = true) lines → ascii_only (join_lf lines) = true.
Proof.
  induction 1 as [|l lines Hl Hall IH]; [done|].
  destruct lines as [|l2 lines]; [by apply plain_ascii_only|].
  change (join_lf (l :: l2 :: lines)) with (l +:+ String Py.LF (join_lf (l2 :: lines))).
  rewrite ascii_only_append, plain_ascii_only by done.
  cbn [ascii_only andb]. by rewrite IH.
Qed.

(** What an accepted datagram spawns, whatever it carries: the lines of
    its text that are not empty. *)
Lemma datagram_received_accepted config data addr :
  udp_whitelist config = [] ∨ addr.1 ∈ udp_whitelist config →
  datagram_received config data addr
  = nonempty_lines (Py.splitlines (Py.decode_utf8_replace data)).
Proof.
  intros Hok. unfold datagram_received.
  assert (Hpass : negb (bool_decide (udp_whitelist config = []))
                  && negb (bool_decide (addr.1 ∈ udp_whitelist config)) = false).
  { destruct Hok as [Hnone|Hin].
    - by rewrite bool_decide_eq_true_2.
    - rewrite (bool_decide_eq_true_2 (addr.1 ∈ _)) by done. apply andb_false_r. }
  rewrite Hpass. set (text := Py.decode_utf8_replace data).
  destruct (Py.splitlines text) as [|l ls] eqn:Hsplit; [|done].
  apply (splitlines_go_nil (String.length text)) in Hsplit as [_ ->]; done.
Qed.

(** A sender that packs ASCII lines in one datagram, separated by line
    feeds, gets one task per line that is not empty, in the order of the
    lines, each carrying its line unchanged. Empty lines, a trailing line
    feed and an empty datagram spawn nothing. *)
Theorem ascii_datagram_gives_its_lines config lines addr :
  udp_whitelist config = [] ∨ addr.1 ∈ udp_whitelist config →
  Forall (λ l, plain l = true) lines →
  datagram_received config (list_byte_of_string (join_lf lines)) addr
  = nonempty_lines lines.
Proof.
  intros Hok Hlines. rewrite datagram_received_accepted by done.
  rewrite decode_ascii by (by apply join_lf_ascii_only).
  by apply splitlines_join.
Qed.

Lemma ascii_datagram_gives_its_lines_witness :
  datagram_received default_config
    (list_byte_of_string (join_lf ["GET /a 200"; ""; "GET /b 404"; ""])) ("10.0.0.7", 514)
  = nonempty_lines ["GET /a 200"; ""; "GET /b 404"; ""].
Proof.
  apply ascii_datagram_gives_its_lines.
  - left. reflexivity.
  - repeat constructor.
Defined.

End AsciiDatagrams.

(** ** A WebSocket session *)

Section WebSocket.

Lemma ws_loop_ingest qid now msg rest w :
  ws_loop qid (WsIngest now msg :: rest) w = ws_loop qid rest (add_entry now msg w).2.
Proof. reflexivity. Qed.

Lemma ws_loop_deliver qid rest w q x q' :
  queues w !! qid = Some q →
  Py.get_nowait q = Some (x, q') →
  ws_loop qid (WsDeliver :: rest) w
  = (to_dict x :: (ws_loop qid rest (with_queues (insert qid q') w)).1,
     (ws_loop qid rest (with_queues (insert qid q') w)).2).
Proof.
  intros Hq Hget. cbn [ws_loop]. rewrite Hq, Hget.
  by destruct (ws_loop qid rest (with_queues (insert qid q') w)).
Qed.

Lemma ws_loop_wait qid rest w :
  (∀ q, queues w !! qid = Some q → Py.get_nowait q = None) →
  ws_loop qid (WsDeliver :: rest) w = ws_loop qid rest w.
Proof.
  intros Hq. cbn [ws_loop]. destruct (queues w !! qid) as [q|]; [|done].
  by rewrite (Hq q).
Qed.

(** The loop, seen from the queue of the session: what was sent followed
    by what is still queued is what was queued and ingested, with the
    entries a full queue dropped left out, nothing added and nothing out
    of order. *)
Lemma ws_loop_spec qid events : ∀ w q,
  NoDup (_listeners (storage w)) →
  qid ∈ _listeners (storage w) →
  queues w !! qid = Some q →
  ∃ delivered q',
    (ws_loop qid events w).1 = to_dict <$> delivered
    ∧ queues (ws_loop qid events w).2 !! qid = Some q'
    ∧ _listeners (storage (ws_loop qid events w).2) = _listeners (storage w)
    ∧ (delivered ++ Py.queued q') `sublist_of` (Py.queued q ++ ws_ingested events)
    ∧ (Py.maxsize q ≤ 0
       ∨ Z.of_nat (length (Py.queued q) + length (ws_ingested events)) ≤ Py.maxsize q →
       delivered ++ Py.queued q' = Py.queued q ++ ws_ingested events).
Proof.
  induction events as [|[now msg|] events IH]; intros w q Hnd Hin Hq.
  - exists [], q. cbn. rewrite app_nil_r. by repeat split.
  - rewrite ws_loop_ingest. cbn [ws_ingested].
    set (e := entry_of (now, msg)).
    assert (Hq1 : queues (add_entry now msg w).2 !! qid = Some (push_or_drop e q)).
    { by rewrite add_entry_queues, notify_loop_lookup, Hq. }
    destruct (IH (add_entry now msg w).2 (push_or_drop e q))
      as (delivered & q' & Hsent & Hq' & Hl & Hsub & Hall);
      rewrite ?add_entry_listeners; [done..|].
    exists delivered, q'. rewrite add_entry_listeners in Hl.
    rewrite push_or_drop_queued, push_or_drop_maxsize in *.
    split; [done|]. split; [done|]. split; [done|]. split.
    + etrans; [exact Hsub|]. destruct (Py.full q).
      * apply sublist_app; [done|]. by apply sublist_cons.
      * by rewrite <- app_assoc.
    + intros Hroom.
      assert (Hfull : Py.full q = false).
      { unfold Py.full. destruct (Z.leb_spec (Py.maxsize q) 0); [done|].
        apply Z.leb_gt. cbn [length] in Hroom. lia. }
      rewrite Hfull in *. rewrite Hall, <- app_assoc; [done|].
      rewrite length_app. cbn [length] in *. lia.
  - cbn [ws_ingested]. destruct (Py.get_nowait q) as [[x q1]|] eqn:Hget.
    + rewrite (ws_loop_deliver qid events w q x q1) by done. cbn [fst snd].
      unfold Py.get_nowait in Hget. destruct (Py.queued q) as [|y l] eqn:Hl; [done|].
      injection Hget as -> <-.
      destruct (IH (with_queues (insert qid (Py.MkQueue (Py.maxsize q) l)) w)
                   (Py.MkQueue (Py.maxsize q) l))
        as (delivered & q' & Hsent & Hq' & Hls & Hsub & Hall);
        [done|done|apply lookup_insert_eq|].
      exists (x :: delivered), q'. cbn [Py.queued Py.maxsize] in *.
      split; [by rewrite Hsent|]. split; [done|]. split; [done|]. split.
      * cbn [app]. by apply sublist_skip.
      * intros Hroom. cbn [app]. f_equal. apply Hall. cbn [length] in Hroom. lia.
    + rewrite ws_loop_wait by (intros q0; rewrite Hq; by intros [= <-]).
      by apply IH.
Qed.

(** A WebSocket session. When no token is configured or the right one is
    presented, the viewer is subscribed with room for 1000 entries. What
    it is sent is made of entries ingested during the session, each at
    most once and in arrival order; as long as no more than 1000 are
    ingested nothing is skipped, so it is sent a prefix of them. When the
    session ends the registry of subscribers is what it was before. *)
Theorem websocket_session_delivers_in_order others config token events w :
  wf others w →
  Py.truthy (websocket_token config) = false ∨ token = websocket_token config →
  ∃ delivered,
    (websocket_logs config token events w).1 = WsServed (to_dict <$> delivered)
    ∧ delivered `sublist_of` ws_ingested events
    ∧ ((length (ws_ingested events) ≤ 1000)%nat → delivered `prefix_of` ws_ingested events)
    ∧ _listeners (storage (websocket_logs config token events w).2)
      = _listeners (storage w).
Proof.
  intros Hwf Hok.
  assert (Hpass : Py.truthy (websocket_token config)
                  && negb (bool_decide (token = websocket_token config)) = false).
  { destruct Hok as [->|Heq]; [done|]. rewrite bool_decide_eq_true_2 by done.
    apply andb_false_r. }
  pose proof (fresh_not_listener others w Hwf) as Hfresh.
  pose proof (wf_subscribe others 1000 w Hwf) as [_ Hnd1 _ _ _].
  unfold websocket_logs. rewrite Hpass.
  set (qid := fresh (dom (queues w))) in *.
  set (w1 := (subscribe 1000 w).2) in *.
  change (subscribe 1000 w) with (qid, w1).
  assert (Hin1 : qid ∈ _listeners (storage w1)).
  { cbn. apply elem_of_app. right. by apply list_elem_of_singleton. }
  assert (Hq1 : queues w1 !! qid = Some (Py.Queue_new 1000)) by apply lookup_insert_eq.
  destruct (ws_loop_spec qid events w1 _ Hnd1 Hin1 Hq1)
    as (delivered & q' & Hsent & _ & Hl & Hsub & Hall).
  destruct (ws_loop qid events w1) as [sent w2]. cbn [fst snd] in *.
  exists delivered. split; [by rewrite Hsent|]. split; [|split].
  - etrans; [|exact Hsub]. by apply sublist_inserts_r.
  - intros Hfew. exists (Py.queued q'). symmetry. apply Hall. right. cbn. lia.
  - unfold unsubscribe. rewrite Hl, decide_True by done.
    cbn [with_storage storage set_listeners _listeners]. rewrite Hl.
    cbn [w1 subscribe snd with_storage with_queues storage set_listeners _listeners].
    by apply list_remove_snoc.
Qed.

Lemma websocket_session_delivers_in_order_witness :
  ∃ delivered,
    (websocket_logs (config_cap 5) None
       [WsIngest t_9mar "a"; WsDeliver; WsIngest t_10mar "b"] (fresh_world (config_cap 5))).1
    = WsServed (to_dict <$> delivered)
    ∧ delivered `sublist_of` [entry_of (t_9mar, "a"); entry_of (t_10mar, "b")].
Proof.
  destruct (websocket_session_delivers_in_order [] (config_cap 5) None
              [WsIngest t_9mar "a"; WsDeliver; WsIngest t_10mar "b"]
              (fresh_world (config_cap 5)))
    as (delivered & Hsent & Hsub & _).
  - by apply (wf_init (config_cap 5) None ∅ FS.empty).
  - left. reflexivity.
  - exists delivered. split; [exact Hsent|exact Hsub].
Defined.

End WebSocket.

(** ** The Telegram notifier *)

Section Notifier.

Lemma _write_to_file_telegram e w :
  _telegram_notifier (storage (_write_to_file e w)) = _telegram_notifier (storage w).
Proof.
  unfold _write_to_file. case_decide.
  - destruct (_rotate_log_file_handle
                (_get_log_file_path (storage w) (timestamp e)) w) as (Hh & _ & _).
    rewrite Hh. cbn. unfold _rotate_log_file. by destruct (_file_handle (storage w)).
  - by destruct (_file_handle (storage w)).
Qed.

Lemma add_entry_telegram now msg w :
  _telegram_notifier (storage (add_entry now msg w).2)
  = send_message (telegram_text (entry_of (now, msg))) <$> _telegram_notifier (storage w).
Proof.
  unfold add_entry. cbn [snd].
  set (e := {| timestamp := now; message := Py.rstrip Py.nl msg |}).
  change (entry_of (now, msg)) with e.
  set (w2 := _notify e _).
  assert (Htg : ∀ w3, w3 = _write_to_file e w2 ∨ w3 = w2 →
                 _telegram_notifier (storage w3) = _telegram_notifier (storage w)).
  { intros w3 [-> | ->]; [by rewrite _write_to_file_telegram|done]. }
  destruct (write_to_file (_config (storage w2))).
  - rewrite (Htg (_write_to_file e w2)) by auto.
    destruct (_telegram_notifier (storage w)); [done|]. by apply Htg; left.
  - rewrite (Htg w2) by auto.
    destruct (_telegram_notifier (storage w)); [done|]. by apply Htg; right.
Qed.

Lemma send_message_enabled text tg :
  _enabled tg = true →
  send_message text tg = {| _enabled := true; _queue := push_or_drop text (_queue tg) |}.
Proof.
  intros He. unfold send_message, push_or_drop. rewrite He. cbn [negb].
  destruct tg as [en q]. cbn in *. subst en. by destruct (Py.put_nowait text q).
Qed.

Lemma send_message_disabled text tg : _enabled tg = false → send_message text tg = tg.
Proof. intros He. unfold send_message. by rewrite He. Qed.

Lemma add_entries_telegram calls w :
  _telegram_notifier (storage (add_entries calls w).2)
  = (λ tg, foldl (flip send_message) tg (telegram_text ∘ entry_of <$> calls))
      <$> _telegram_notifier (storage w).
Proof.
  revert w. induction calls as [|[now msg] calls IH]; intros w.
  - cbn. by destruct (_telegram_notifier (storage w)).
  - rewrite add_entries_cons, IH, add_entry_telegram.
    by destruct (_telegram_notifier (storage w)).
Qed.

Lemma send_all_enabled texts tg :
  _enabled tg = true →
  foldl (flip send_message) tg texts
  = {| _enabled := true; _queue := foldl (flip push_or_drop) (_queue tg) texts |}.
Proof.
  revert tg. induction texts as [|text texts IH]; intros tg He.
  - cbn. destruct tg. cbn in *. by subst.
  - cbn [foldl flip]. rewrite send_message_enabled by done. by rewrite IH.
Qed.



(** A notifier built without a bot token or without a chat id, or with
    the feature off, is disabled for good: no [add_entry] ever queues
    anything for it. *)
Theorem notifier_without_credentials_forwards_nothing enabled token chat calls w :
  enabled = false ∨ Py.truthy token = false ∨ Py.truthy chat = false →
  _telegram_notifier (storage w) = Some (TelegramNotifier_init enabled token chat) →
  _telegram_notifier (storage (add_entries calls w).2)
  = Some (TelegramNotifier_init enabled token chat).
Proof.
  intros Hoff Htg. rewrite add_entries_telegram, Htg. cbn [fmap option_fmap option_map].
  f_equal.
  assert (He : _enabled (TelegramNotifier_init enabled token chat) = false).
  { unfold TelegramNotifier_init. cbn [_enabled].
    destruct Hoff as [->|[->| ->]]; [done| |].
    - by destruct enabled.
    - destruct enabled; [|done]. by destruct (Py.truthy token). }
  generalize dependent (TelegramNotifier_init enabled token chat). clear.
  intros tg _ He. induction (telegram_text ∘ entry_of <$> calls) as [|text texts IH]; [done|].
  cbn [foldl flip]. by rewrite send_message_disabled.
Qed.

Lemma notifier_without_credentials_forwards_nothing_witness :
  _telegram_notifier
    (storage (add_entries [(t_9mar, "a")]
                (with_storage
                   (set_telegram_notifier (Some (TelegramNotifier_init true (Some "") (Some "42"))))
                   (fresh_world (config_cap 5)))).2)
  = Some (TelegramNotifier_init true (Some "") (Some "42")).
Proof.
  apply notifier_without_credentials_forwards_nothing.
  - right. left. reflexivity.
  - reflexivity.
Defined.

(** Forwarding is on the side: with any notifier attached, or none,
    [add_entry] returns the same entry and leaves the same buffer,
    subscribers, queues, files, handle and marker. *)
Theorem notifier_does_not_affect_the_core now msg tg w :
  let w_tg := with_storage (set_telegram_notifier tg) w in
  (add_entry now msg w_tg).1 = (add_entry now msg w).1
  ∧ _buffer (storage (add_entry now msg w_tg).2) = _buffer (storage (add_entry now msg w).2)
  ∧ _listeners (storage (add_entry now msg w_tg).2)
    = _listeners (storage (add_entry now msg w).2)
  ∧ queues (add_entry now msg w_tg).2 = queues (add_entry now msg w).2
  ∧ writer_state (add_entry now msg w_tg).2 = writer_state (add_entry now msg w).2.
Proof.
  intros w_tg. split; [done|].
  rewrite !add_entry_buffer, !add_entry_listeners, !add_entry_queues, !add_entry_writer_state.
  split; [done|]. split; [done|]. split; [done|].
  change (write_to_file (_config (storage w_tg))) with (write_to_file (_config (storage w))).
  destruct (write_to_file (_config (storage w))); [|done].
  by apply _write_to_file_writer_state.
Qed.

Lemma len_append (a b : string) : Py.len (a +:+ b) = (Py.len a + Py.len b)%nat.
Proof.
  induction a as [|c a IH]; [done|]. rewrite append_cons. cbn [Py.len].
  destruct (Py.is_continuation c); lia.
Qed.

Lemma len_slice_to n s : Py.len (Py.slice_to n s) = (n `min` Py.len s)%nat.
Proof.
  revert n. induction s as [|c s IH]; intros n; [cbn; lia|].
  cbn [Py.slice_to Py.len]. destruct (Py.is_continuation c) eqn:Hc.
  - cbn [Py.len]. by rewrite Hc, IH.
  - destruct n as [|n]; [done|]. cbn [Py.len]. rewrite Hc, IH. lia.
Qed.

Lemma slice_to_prefix n s : ∃ r, s = Py.slice_to n s +:+ r.
Proof.
  revert n. induction s as [|c s IH]; intros n; [by exists ""|].
  cbn [Py.slice_to]. destruct (Py.is_continuation c).
  - destruct (IH n) as [r Hr]. exists r. by rewrite append_cons, <- Hr.
  - destruct n as [|n]; [by eexists|].
    destruct (IH n) as [r Hr]. exists r. by rewrite append_cons, <- Hr.
Qed.

(** The text posted to Telegram never has more than 4000 characters: a
    message of at most 4000 goes as it is, a longer one as its first
    3997 characters followed by ["..."], which makes exactly 4000. The
    body also names the chat and asks for HTML. *)
Theorem telegram_text_is_cut_to_4000 chat_id message :
  ∃ text,
    _send_to_telegram_payload chat_id message !! "text" = Some text
    ∧ (Py.len text ≤ 4000)%nat
    ∧ ((Py.len message ≤ 4000)%nat → text = message)
    ∧ ((4000 < Py.len message)%nat →
       text = Py.slice_to 3997 message +:+ "..."
       ∧ Py.len text = 4000%nat
       ∧ ∃ r, message = Py.slice_to 3997 message +:+ r)
    ∧ _send_to_telegram_payload chat_id message !! "chat_id" = Some chat_id
    ∧ _send_to_telegram_payload chat_id message !! "parse_mode" = Some "HTML".
Proof.
  unfold _send_to_telegram_payload.
  rewrite lookup_insert_ne, lookup_insert_eq by done.
  rewrite lookup_insert_eq.
  rewrite !lookup_insert_ne, lookup_insert_eq by done.
  eexists. split; [done|].
  destruct (Nat.ltb_spec 4000 (Py.len message)) as [Hlong|Hshort].
  - assert (Hlen : Py.len (Py.slice_to 3997 message +:+ "...") = 4000%nat).
    { rewrite len_append, len_slice_to. change (Py.len "...") with 3%nat. lia. }
    split; [lia|]. split; [lia|]. split; [|done].
    intros _. split; [done|]. split; [done|]. apply slice_to_prefix.
  - split; [done|]. split; [done|]. split; [lia|done].
Qed.

Lemma telegram_text_is_cut_to_4000_witness :
  ∃ text, _send_to_telegram_payload "42" "disk full" !! "text" = Some text
          ∧ text = "disk full".
Proof.
  destruct (telegram_text_is_cut_to_4000 "42" "disk full") as (text & Ht & _ & Hshort & _).
  exists text. split; [exact Ht|]. apply Hshort. vm_compute. lia.
Defined.

End Notifier.
